(** * external-dns-management: entry state handling, DNS locks, plain record sets

    A shallow embedding of
      - pkg/dns/provider/direct  (plain record sets: FromPlainRecordSet,
        ToPlainRecordset, GetAttr),
      - pkg/dns/provider         (state handling for entries: AddEntryVersion,
        cleanupEntry, HandleUpdateEntry, checkAndUpdateLock,
        checkAndDeleteLock, UpdateLockStates, EntryDeleted,
        GetEntriesByOwner, TriggerEntriesByOwner, addBlockingEntries),
      - pkg/controller/source/service (GetTargets),
      - resources                (I_modify),
    with the properties of the entry reconciliation engine and of the lock
    protocol stated and proved over it.

    Conventions.
      - Go strings are byte strings: [string].
      - Go integers are [Z] with the wrap-around written out ([Go.wrap]).
      - Go maps are [gmap]; their iteration order is an explicit permutation.
      - [*Entry] pointers are addresses into a store ([mem]); pointer equality
        is equality of addresses.
      - Calls that leave the process (cluster API, DNS provider, resolver,
        work queue) are recorded in a trace of events; their results are read
        from an environment record ([World]).
      - A Go run-time panic is the outcome [Panic]. *)

From Stdlib Require Import ZArith Lia String Ascii List.
From Stdlib Require OrderedTypeEx.
From stdpp Require Import gmap strings list fin_maps pretty sorting.

Local Open Scope string_scope.
Local Open Scope Z_scope.
Local Open Scope list_scope.

(* ===================================================================== *)
(** * The Go primitives the code relies on                                 *)
(* ===================================================================== *)

Module Go.

(** ** Fixed-width integers *)

(** Two's complement reading of [z] in [bits] bits. *)
Definition wrap (bits z : Z) : Z :=
  (z + 2 ^ (bits - 1)) mod 2 ^ bits - 2 ^ (bits - 1).

Definition MaxInt64 : Z := 2 ^ 63 - 1.
Definition MinInt64 : Z := - 2 ^ 63.

(** Conversion [int64(x)]. *)
Definition int64 (z : Z) : Z := wrap 64 z.

(** Conversion [int(x)]; [intSize] is 32 or 64, the platform's int width. *)
Definition int (intSize z : Z) : Z := wrap intSize z.

(** ** Strings *)

(** The byte 0x22. *)
Definition dquote : ascii := "034"%char.

Definition len (s : string) : Z := Z.of_nat (String.length s).

(** [strings.HasPrefix(s, prefix)]. *)
Definition HasPrefix (s prefix : string) : bool := String.prefix prefix s.

(** The slice expression [s[lo:hi]]; out of range indices panic
    ([None]). *)
Definition slice (s : string) (lo hi : Z) : option string :=
  if (0 <=? lo) && (lo <=? hi) && (hi <=? len s)
  then Some (String.substring (Z.to_nat lo) (Z.to_nat (hi - lo)) s)
  else None.

(** [strings.TrimLeft(s, string(c))]. *)
Fixpoint TrimLeft (s : string) (c : ascii) : string :=
  match s with
  | String a r => if Ascii.eqb a c then TrimLeft r c else s
  | EmptyString => EmptyString
  end.

(** [strings.TrimRight(s, string(c))]. *)
Fixpoint TrimRight (s : string) (c : ascii) : string :=
  match s with
  | String a r =>
      match TrimRight r c with
      | EmptyString => if Ascii.eqb a c then EmptyString else String a EmptyString
      | r' => String a r'
      end
  | EmptyString => EmptyString
  end.

(** [strings.Trim(s, string(c))]: leading and trailing [c] removed. *)
Definition Trim (s : string) (c : ascii) : string :=
  TrimRight (TrimLeft s c) c.

(** [strings.Split(s, string(sep))]: the pieces between the separators;
    a string without separator is its own single piece. *)
Fixpoint Split (s : string) (sep : ascii) : list string :=
  match s with
  | EmptyString => [EmptyString]
  | String a r =>
      if Ascii.eqb a sep then EmptyString :: Split r sep
      else match Split r sep with
           | h :: t => String a h :: t
           | [] => [String a EmptyString]
           end
  end.

(** Number of occurrences of a byte. *)
Fixpoint count (s : string) (c : ascii) : nat :=
  match s with
  | EmptyString => 0%nat
  | String a r => ((if Ascii.eqb a c then 1 else 0) + count r c)%nat
  end.

(** [fmt.Sprintf("%d", n)]. *)
Definition itoa (n : Z) : string := pretty n.

(** ** strconv.ParseInt(s, 10, 64) *)

Inductive NumError := ErrSyntax | ErrRange.

Definition digit (c : ascii) : option Z :=
  let n := Z.of_nat (nat_of_ascii c) in
  if (48 <=? n) && (n <=? 57) then Some (n - 48) else None.

Fixpoint digits (s : string) (acc : Z) : option Z :=
  match s with
  | EmptyString => Some acc
  | String c r =>
      match digit c with
      | Some d => digits r (10 * acc + d)
      | None => None
      end
  end.

(** The value and the error, as Go returns them: 0 with a syntax error,
    the nearest bound with a range error. *)
Definition ParseInt (s : string) : Z * option NumError :=
  match s with
  | EmptyString => (0, Some ErrSyntax)
  | String c r =>
      let '(neg, body) :=
        if Ascii.eqb c "+" then (false, r)
        else if Ascii.eqb c "-" then (true, r)
        else (false, s) in
      match body with
      | EmptyString => (0, Some ErrSyntax)
      | _ =>
          match digits body 0 with
          | None => (0, Some ErrSyntax)
          | Some un =>
              if negb neg && (2 ^ 63 <=? un) then (MaxInt64, Some ErrRange)
              else if neg && (2 ^ 63 <? un) then (MinInt64, Some ErrRange)
              else (if neg then - un else un, None)
          end
      end
  end.

(** ** time *)

(** An instant, in nanoseconds since the Unix epoch.  Wall clock readings
    only; locations and monotonic readings play no part in the
    comparisons used. *)
Definition Time : Type := Z.

Definition Second : Z := 1000000000.

(** Seconds between year 1 (the zero [time.Time]) and 1970. *)
Definition unixToInternal : Z := 62135596800.

(** [time.Time{}]. *)
Definition zeroTime : Time := - unixToInternal * Second.

Definition IsZero (t : Time) : bool := t =? zeroTime.

(** [time.Unix(sec, 0)]: the seconds are kept as an int64 counted from
    year 1, so the sum wraps. *)
Definition Unix (sec : Z) : Time :=
  (int64 (sec + unixToInternal) - unixToInternal) * Second.

Definition Before (t u : Time) : bool := t <? u.
Definition After (t u : Time) : bool := u <? t.
Definition Equal (t u : Time) : bool := t =? u.

(** [t.Sub(u)]: a Duration (int64 nanoseconds), saturating. *)
Definition Sub (t u : Time) : Z :=
  let d := t - u in
  if MaxInt64 <? d then MaxInt64
  else if d <? MinInt64 then MinInt64
  else d.

(** [time.Duration(n) * time.Second] and other int64 products. *)
Definition mul64 (a b : Z) : Z := int64 (a * b).

End Go.

(* ===================================================================== *)
(** * pkg/dns: record sets                                                 *)
(* ===================================================================== *)

Module dns.

(** [dns.Record]: one value. *)
Record Record := { Value : string }.

(** Modelled from the spec: the declaration of dns.RecordSet and its
    constructor NewRecordSet are not under src/.  A record set is the
    "record type (A/AAAA/CNAME/TXT/...), target values, TTL" of section 3;
    the constructor stores its three arguments. *)
Record RecordSet := { Type_ : string; TTL : Z; Records : list Record }.

Definition NewRecordSet (rtype : string) (ttl : Z) (records : list Record)
  : RecordSet :=
  {| Type_ := rtype; TTL := ttl; Records := records |}.

Definition RS_TXT : string := "TXT".

#[global] Instance Record_eq_dec : EqDecision Record.
Proof. solve_decision. Defined.

#[global] Instance RecordSet_eq_dec : EqDecision RecordSet.
Proof. solve_decision. Defined.

End dns.

(* ===================================================================== *)
(** * pkg/dns/provider/direct: plain record sets                           *)
(* ===================================================================== *)

Module direct.

(** [plainRecord], the implementation of the [Record] interface. *)
Record plainRecord := {
  DNSName : string;
  Type_ : string;
  TTL : Z;
  Value : string
}.

#[global] Instance plainRecord_eq_dec : EqDecision plainRecord.
Proof. solve_decision. Defined.

Definition GetType (r : plainRecord) : string := Type_ r.
Definition GetValue (r : plainRecord) : string := Value r.
Definition GetDNSName (r : plainRecord) : string := DNSName r.
Definition GetTTL (r : plainRecord) : Z := TTL r.

(** [type RecordSet []Record]. *)
Definition RecordSet : Type := list plainRecord.

(** [FromPlainRecordSet(dnsName, rs)] for a non-nil [rs]. *)
Definition FromPlainRecordSet (intSize : Z) (dnsName : string)
    (rs : dns.RecordSet) : RecordSet :=
  fold_left
    (fun recordset r =>
       recordset ++ [ {| DNSName := dnsName;
                         Type_ := dns.Type_ rs;
                         TTL := Go.int intSize (dns.TTL rs);
                         Value := dns.Value r |} ])
    (dns.Records rs) [].

(** [ToPlainRecordset(rawrs)]; [None] is the nil record set. *)
Definition ToPlainRecordset (rawrs : RecordSet)
  : string * option dns.RecordSet :=
  match rawrs with
  | [] => ("", None)
  | r0 :: _ =>
      let dnsName := GetDNSName r0 in
      let rtype := GetType r0 in
      let ttl := Go.int64 (GetTTL r0) in
      let records :=
        fold_left (fun records r => records ++ [ {| dns.Value := GetValue r |} ])
                  rawrs [] in
      (dnsName, Some (dns.NewRecordSet rtype ttl records))
  end.

(** [newAttrKeyPrefix(name)]: a double quote, the name, an equals sign. *)
Definition newAttrKeyPrefix (name : string) : string :=
  String Go.dquote (name +:+ "=").

(** [rs.GetAttr(name)].  The slice drops the prefix and the last byte; it
    panics ([None]) on a value that is the bare prefix. *)
Fixpoint GetAttr (rs : RecordSet) (name : string) : option string :=
  match rs with
  | [] => Some ""
  | r :: rest =>
      let prefix := newAttrKeyPrefix name in
      let value := GetValue r in
      if Go.HasPrefix value prefix
      then Go.slice value (Go.len prefix) (Go.len value - 1)
      else GetAttr rest name
  end.

End direct.

(* ===================================================================== *)
(** * pkg/dns/provider: the data of the entry state engine                 *)
(* ===================================================================== *)

Module provider.

(** ** Objects of the cluster *)

(** Object names, rendered "namespace/name". *)
Definition ObjectName : Type := string.

(** The two kinds of objects that become entries. *)
Inductive Kind := DNSEntryKind | DNSLockKind.

#[global] Instance Kind_eq_dec : EqDecision Kind.
Proof. solve_decision. Defined.

(** [ClusterObjectKey]: kind and object name (one cluster). *)
Definition ClusterKey : Type := (Kind * ObjectName)%type.

(** Modelled from the spec: the api constants STATE_... are not under
    src/.  Section 6: "Status values. pending, ready, error, invalid,
    stale"; any other content of the state string is [STATE_other]. *)
Inductive StateValue :=
| STATE_PENDING | STATE_READY | STATE_ERROR | STATE_INVALID | STATE_STALE
| STATE_other (s : string).

#[global] Instance StateValue_eq_dec : EqDecision StateValue.
Proof. solve_decision. Defined.

Definition Err : Type := string.

(** Status messages.  Modelled from the spec: perrs.AlreadyBusyForEntry is
    not under src/; section 4.3: "a well-defined AlreadyBusy diagnostic
    citing the holder".  The rendered error keeps the DNS name and the
    holder's object name. *)
Inductive Message :=
| MsgText (s : string)
| MsgAlreadyBusyForEntry (DNSName : string) (holder : ObjectName).

#[global] Instance Message_eq_dec : EqDecision Message.
Proof. solve_decision. Defined.

(** [api.DNSBaseStatus], the fields read here. *)
Record BaseStatus := {
  State : StateValue;
  Message_ : option Message;
  Zone : option string;
  ProviderType : option string;
  Provider_ : option string
}.

(** A snapshot of a DNSEntry or DNSLock object as the handler receives it
    ([dnsutils.DNSSpecification]). *)
Record Object := {
  oName : ObjectName;
  oKind : Kind;
  oCreationTimestamp : Go.Time;
  oDeleting : bool;                      (* deletion timestamp set *)
  oFinalizer : bool;                     (* carries the controller's finalizer *)
  oOwnerId : string;
  oDNSName : string;                     (* GetDNSName() *)
  oStatus : BaseStatus;                  (* BaseStatus() *)
  (* DNSLock *)
  oText : list string;                   (* GetText() *)
  oTTL : Z;                              (* Spec.TTL, int64 seconds *)
  oLockId : option string;               (* Spec().LockId *)
  oTimestamp : Go.Time;                  (* GetTimestamp() *)
  oStatusTimestamp : option Go.Time;     (* Status.Timestamp *)
  oFirstFailedDNSLookup : option Go.Time;(* Status.FirstFailedDNSLookup *)
  oAttributes : gmap string string       (* Status.Attributes *)
}.

(** ** Entries *)

Record EntryVersion := {
  object : Object;
  dnsname : string;
  status : BaseStatus;
  ttl : Z;
  interval : Z;
  valid : bool;
  duplicate : bool;
  obsolete : bool
}.

(** [Entry] embeds [*EntryVersion]. *)
Record Entry := {
  version : EntryVersion;
  modified : bool;
  activezone : string;
  updateRequired : bool
}.

(** Modelled from the spec: the accessors of EntryVersion and Entry
    (ObjectName, DNSName, IsDeleting, Kind, Object, OwnerId, ClusterKey,
    IsValid, IsModified, Interval, TTL ...) are not under src/; each reads
    the attribute of section 3 it is named after ("object name", "DNS
    name", "kind", "TTL", "owner id", "valid flag", "modified flag"). *)
Definition vObjectName (v : EntryVersion) : ObjectName := oName (object v).
Definition vDNSName (v : EntryVersion) : string := dnsname v.
Definition vIsDeleting (v : EntryVersion) : bool := oDeleting (object v).

Definition ObjectName_ (e : Entry) : ObjectName := vObjectName (version e).
Definition DNSName (e : Entry) : string := vDNSName (version e).
Definition Kind_ (e : Entry) : Kind := oKind (object (version e)).
Definition Object_ (e : Entry) : Object := object (version e).
Definition OwnerId (e : Entry) : string := oOwnerId (object (version e)).
Definition CreationTimestamp (e : Entry) : Go.Time :=
  oCreationTimestamp (object (version e)).
Definition ClusterKey_ (e : Entry) : ClusterKey := (Kind_ e, ObjectName_ e).
Definition IsValid (e : Entry) : bool := valid (version e).
Definition IsModified (e : Entry) : bool := modified e.
Definition Interval (e : Entry) : Z := interval (version e).
Definition TTL (e : Entry) : Z := ttl (version e).

(** Modelled from the spec: Entry.ZoneId is not under src/; section 3:
    "activezone (the zone id last successfully bound)". *)
Definition ZoneId (e : Entry) : string := activezone e.

(** Modelled from the spec: Entry.Before is not under src/.  Section 4.3:
    "Earlier is defined by a total order: primarily the object's creation
    timestamp, with object name as a deterministic tie-break." *)
Definition Before (a b : Entry) : bool :=
  if Go.Equal (CreationTimestamp a) (CreationTimestamp b)
  then String.ltb (ObjectName_ a) (ObjectName_ b)
  else Go.Before (CreationTimestamp a) (CreationTimestamp b).

Definition set_duplicate (d m : bool) (e : Entry) : Entry :=
  let v := version e in
  {| version := {| object := object v; dnsname := dnsname v;
                   status := status v; ttl := ttl v; interval := interval v;
                   valid := valid v; duplicate := d; obsolete := obsolete v |};
     modified := m; activezone := activezone e;
     updateRequired := updateRequired e |}.

Definition set_updateRequired (b : bool) (e : Entry) : Entry :=
  {| version := version e; modified := modified e;
     activezone := activezone e; updateRequired := b |}.

Definition empty_status : BaseStatus :=
  {| State := STATE_other ""; Message_ := None; Zone := None;
     ProviderType := None; Provider_ := None |}.

Definition empty_object : Object :=
  {| oName := ""; oKind := DNSEntryKind; oCreationTimestamp := 0;
     oDeleting := false; oFinalizer := false; oOwnerId := "";
     oDNSName := ""; oStatus := empty_status; oText := []; oTTL := 0; oLockId := None;
     oTimestamp := 0; oStatusTimestamp := None;
     oFirstFailedDNSLookup := None; oAttributes := ∅ |}.

#[global] Instance Entry_inhabited : Inhabited Entry :=
  populate {| version := {| object := empty_object; dnsname := "";
                            status := empty_status; ttl := 0; interval := 0;
                            valid := false; duplicate := false;
                            obsolete := false |};
              modified := false; activezone := ""; updateRequired := false |}.

(** ** reconcile.Status (controller-manager-library) *)

Record Status := { Completed : bool; Error : option Err; Interval_ : Z }.

Definition Succeeded : Status :=
  {| Completed := true; Error := None; Interval_ := -1 |}.
Definition Repeat : Status :=
  {| Completed := false; Error := None; Interval_ := -1 |}.
Definition Delay (err : option Err) : Status :=
  {| Completed := true;
     Error := Some (default "reconcilation with problem" err);
     Interval_ := -1 |}.
Definition DelayOnError (err : option Err) : Status :=
  match err with None => Succeeded | Some _ => Delay err end.
Definition IsSucceeded (s : Status) : bool :=
  Completed s && bool_decide (Error s = None).
Definition RescheduleAfter (s : Status) (d : Z) : Status :=
  if (Interval_ s <? 0) || (d <? Interval_ s)
  then {| Completed := Completed s; Error := Error s; Interval_ := d |}
  else s.

#[global] Instance Status_eq_dec : EqDecision Status.
Proof. solve_decision. Defined.

(** ** Providers, zones, premises *)

Record Zone_ := { zId : string; zDomain : string; zProviderType : string }.

Record DNSProvider := {
  pObjectName : ObjectName;
  pIsValid : bool;
  pTypeCode : string
}.

Record EntryPremise := {
  ptypes : gset string;
  ptype : string;
  provider : option DNSProvider;
  fallback : option DNSProvider;
  zoneid : string;
  zonedomain : string
}.

(** ** The store, the indexes and the trace *)

(** Addresses of [Entry] values. *)
Definition ptr : Type := positive.

(** What leaves the process. *)
Inductive Event :=
| EvEnqueueKey (key : ClusterKey)                (* context.EnqueueKey *)
| EvTriggerKey (key : ClusterKey)                (* state.triggerKey *)
| EvEnqueue (name : ObjectName)                  (* context.Enqueue(object) *)
| EvTriggerHostedZone (zone : string)
| EvSetFinalizer (name : ObjectName)
| EvRemoveFinalizer (name : ObjectName)
| EvUpdateStatus (name : ObjectName) (s : StateValue) (msg : Message)
| EvModifyLockStatus (name : ObjectName) (new : Object)
| EvCreateOrUpdateRecordSet (zone : option Zone_) (rs : direct.RecordSet)
| EvDeleteRecordSet (zone : option Zone_) (rs : direct.RecordSet)
| EvTriggerStatistic
| EvNotifyHolder (key : ClusterKey).

Record state := {
  blockingEntries : gmap ObjectName Go.Time;
  entries : gmap ObjectName ptr;
  dnsnames : gmap string ptr;
  zones : gmap string Zone_;
  outdated : gmap ObjectName ptr;
  ownerids : gset string;          (* the owner filter set *)
  typeCodes : gset string;         (* GetHandlerFactory().TypeCodes() *)
  startupTime : Go.Time;
  mem : gmap ptr Entry;
  events : list Event
}.

Definition with_blockingEntries (b : gmap ObjectName Go.Time) (s : state) :=
  {| blockingEntries := b; entries := entries s; dnsnames := dnsnames s;
     zones := zones s; outdated := outdated s; ownerids := ownerids s;
     typeCodes := typeCodes s; startupTime := startupTime s; mem := mem s;
     events := events s |}.
Definition with_entries (m : gmap ObjectName ptr) (s : state) :=
  {| blockingEntries := blockingEntries s; entries := m;
     dnsnames := dnsnames s; zones := zones s; outdated := outdated s;
     ownerids := ownerids s; typeCodes := typeCodes s;
     startupTime := startupTime s; mem := mem s; events := events s |}.
Definition with_dnsnames (m : gmap string ptr) (s : state) :=
  {| blockingEntries := blockingEntries s; entries := entries s;
     dnsnames := m; zones := zones s; outdated := outdated s;
     ownerids := ownerids s; typeCodes := typeCodes s;
     startupTime := startupTime s; mem := mem s; events := events s |}.
Definition with_outdated (m : gmap ObjectName ptr) (s : state) :=
  {| blockingEntries := blockingEntries s; entries := entries s;
     dnsnames := dnsnames s; zones := zones s; outdated := m;
     ownerids := ownerids s; typeCodes := typeCodes s;
     startupTime := startupTime s; mem := mem s; events := events s |}.
Definition with_mem (m : gmap ptr Entry) (s : state) :=
  {| blockingEntries := blockingEntries s; entries := entries s;
     dnsnames := dnsnames s; zones := zones s; outdated := outdated s;
     ownerids := ownerids s; typeCodes := typeCodes s;
     startupTime := startupTime s; mem := m; events := events s |}.
Definition emit (ev : Event) (s : state) :=
  {| blockingEntries := blockingEntries s; entries := entries s;
     dnsnames := dnsnames s; zones := zones s; outdated := outdated s;
     ownerids := ownerids s; typeCodes := typeCodes s;
     startupTime := startupTime s; mem := mem s;
     events := events s ++ [ev] |}.

(** [*p], and an assignment through [p]. *)
Definition deref (s : state) (p : ptr) : Entry := mem s !!! p.
Definition store (p : ptr) (e : Entry) (s : state) : state :=
  with_mem (<[p := e]> (mem s)) s.

(** ** The environment *)

(** Results of the calls that leave the process, the order in which Go
    ranges over the entries map, and the parts of this repository that are
    not under src/ and that the spec does not describe. *)
Record World := {
  intSize : Z;
  ATTR_LOCKID : string;
  ATTR_TIMESTAMP : string;
  (* cluster API *)
  SetFinalizer_err : Object -> option Err;
  RemoveFinalizer_err : Object -> option Err;
  UpdateStatus_err : ObjectName -> StateValue -> Message -> option Err;
  ModifyStatus_err : ObjectName -> option Err;
  (* DNS provider, through the direct handler *)
  GetRecordSet_res :
    DNSProvider -> option Zone_ -> string -> Err + option direct.RecordSet;
  CreateOrUpdateRecordSet_err :
    DNSProvider -> option Zone_ -> direct.RecordSet -> option Err;
  DeleteRecordSet_err :
    DNSProvider -> option Zone_ -> direct.RecordSet -> option Err;
  (* resolver and clock *)
  LookupTXT_res : string -> Err + list string;
  Now : ObjectName -> Go.Time;
  (* iteration order of [range this.entries] *)
  range_entries : gmap ObjectName ptr -> list (ObjectName * ptr);
  (* not under src/ *)
  NewText_value : string -> Z -> string;       (* NewText(s, ttl).AsRecord().Value *)
  NewEntry_modified : EntryVersion -> bool;
  NewEntry_activezone : EntryVersion -> string;
  NewEntry_updateRequired : EntryVersion -> bool;
  Update_modified : Entry -> EntryVersion -> bool;
  Update_activezone : Entry -> EntryVersion -> string;
  Update_updateRequired : Entry -> EntryVersion -> bool;
  NewEntryVersion : Object -> option Entry -> EntryVersion;
  Setup : EntryVersion -> EntryPremise -> string -> option Err -> option Entry
          -> EntryVersion * Status
}.

(** The order of a [range] over a map is some enumeration of its
    bindings. *)
Definition range_ok (w : World) : Prop :=
  forall m : gmap ObjectName ptr, range_entries w m ≡ₚ map_to_list m.

(* =================================================================== *)
(** ** State handling for entries                                       *)
(* =================================================================== *)

Section entries.

Context (w : World).

(** [this.IsManaging(v)]. *)
Definition IsManaging (st : state) (v : EntryVersion) : bool :=
  match ProviderType (status v) with
  | None => false
  | Some t => bool_decide (t ∈ typeCodes st)
  end.

(** Modelled from the spec: IsActive is not under src/.  Section 3: "The
    union of active ids forms the owner filter set; entries whose
    owner-id is outside this set are observed but not managed." *)
Definition IsActive (st : state) (e : Entry) : bool :=
  bool_decide (OwnerId e ∈ ownerids st).

(** Finalizers: the test reads the snapshot, setting and removing are
    calls to the cluster. *)
Definition HasFinalizer (o : Object) : bool := oFinalizer o.

Definition SetFinalizer (o : Object) (st : state) : option Err * state :=
  (SetFinalizer_err w o, emit (EvSetFinalizer (oName o)) st).

Definition RemoveFinalizer (o : Object) (st : state) : option Err * state :=
  (RemoveFinalizer_err w o, emit (EvRemoveFinalizer (oName o)) st).

(** [v.UpdateStatus(logger, state, msg)] and
    [resources.UpdateStandardObjectStatus(logger, obj, state, msg)]. *)
Definition UpdateStatus (name : ObjectName) (s : StateValue) (msg : Message)
    (st : state) : option Err * state :=
  (UpdateStatus_err w name s msg, emit (EvUpdateStatus name s msg) st).

(** [this.TriggerEntry(logger, e)]. *)
Definition TriggerEntry (e : Entry) (st : state) : state :=
  emit (EvEnqueueKey (ClusterKey_ e)) st.

(** Modelled from the spec: Entry.Trigger is not under src/; section 4.2,
    Cleanup: "promote the earliest ... to active, triggering it".  It
    triggers the entry through [TriggerEntry]. *)
Definition Trigger (e : Entry) (st : state) : state := TriggerEntry e st.

Definition triggerKey (key : ClusterKey) (st : state) : state :=
  emit (EvTriggerKey key) st.

Definition triggerHostedZone (zone : string) (st : state) : state :=
  emit (EvTriggerHostedZone zone) st.

(** Modelled from the spec: NewEntry and Entry.Update are not under src/.
    Section 3: an entry is "created on first observation; updated in
    place per observed generation (old and new share object identity
    through the index)"; the caller tells the case in which the result is
    another entry: "DNS name changed -> clean up old dns name".  The
    entry carries the version it was built from; the other fields are
    left to the environment. *)
Definition NewEntry (v : EntryVersion) : Entry :=
  {| version := v;
     modified := NewEntry_modified w v;
     activezone := NewEntry_activezone w v;
     updateRequired := NewEntry_updateRequired w v |}.

Definition alloc (e : Entry) (st : state) : ptr * state :=
  let p := fresh (dom (mem st)) in (p, store p e st).

Definition Update (old : ptr) (v : EntryVersion) (st : state) : ptr * state :=
  let eo := deref st old in
  if String.eqb (DNSName eo) (vDNSName v)
  then (old, store old {| version := v;
                          modified := Update_modified w eo v;
                          activezone := Update_activezone w eo v;
                          updateRequired := Update_updateRequired w eo v |} st)
  else alloc (NewEntry v) st.

(** The entry for the new version (lines 282 to 288 of
    [AddEntryVersion]): built anew, or the old one updated. *)
Definition install (st : state) (v : EntryVersion) : ptr * state :=
  match entries st !! vObjectName v with
  | None => alloc (NewEntry v) st
  | Some o => Update o v st
  end.

(** Modelled from the spec: Entries.Delete is not under src/; section
    4.2, Cleanup: "Removes the entry from the index": the binding of the
    entry's object name goes when it holds this very entry. *)
Definition Entries_Delete (es : gmap ObjectName ptr) (e : ptr) (name : ObjectName)
  : gmap ObjectName ptr :=
  if decide (es !! name = Some e) then delete name es else es.

(** Modelled from the spec: Entries.AddEntry is not under src/; section
    2: the index is "keyed by object name".  The entry is bound under
    its object name. *)
Definition Entries_AddEntry (es : gmap ObjectName ptr) (e : ptr) (name : ObjectName)
  : gmap ObjectName ptr :=
  <[name := e]> es.

(** The body of the loop of [cleanupEntry] (lines 515 to 524). *)
Definition scan_step (st : state) (dnsName : string) (found : option ptr) (a : ptr)
  : option ptr :=
  let ea := deref st a in
  if duplicate (version ea) && String.eqb (DNSName ea) dnsName then
    match found with
    | None => Some a
    | Some f => if Before ea (deref st f) then Some a else Some f
    end
  else found.

Definition scan (st : state) (dnsName : string) (order : list ptr) : option ptr :=
  fold_left (scan_step st dnsName) order None.

(** [this.cleanupEntry(logger, e)]. *)
Definition cleanupEntry (st : state) (e : ptr) : state :=
  let ee := deref st e in
  let st := with_entries (Entries_Delete (entries st) e (ObjectName_ ee)) st in
  if decide (dnsnames st !! DNSName ee = Some e) then
    let found := scan st (DNSName ee) (range_entries w (entries st)).*2 in
    let st := match found with
              | None => st
              | Some f => Trigger (deref st f) st
              end in
    with_dnsnames (delete (DNSName ee) (dnsnames st)) st
  else st.

(** The end of the deleting branch of [AddEntryVersion] (lines 322 to
    325). *)
Definition deleting_return (v : EntryVersion) (new : ptr) (err : option Err)
    (st : state) : option ptr * Status * state :=
  let st := match err with
            | Some _ => with_entries (<[vObjectName v := new]> (entries st)) st
            | None => st
            end in
  (Some new, DelayOnError err, st).

(** The end of the arbitration block of [AddEntryVersion] (lines 379 to
    391). *)
Definition activate (v : EntryVersion) (new : ptr) (status_ : Status)
    (st : state) : option ptr * Status * state :=
  let en := deref st new in
  let st :=
    if valid (version en)
       && bool_decide (State (status (version en)) <> STATE_READY)
       && bool_decide (State (status (version en)) <> STATE_PENDING)
    then snd (UpdateStatus (ObjectName_ en) STATE_PENDING
                (MsgText ("activating for " +:+ DNSName en)) st)
    else st in
  let st := with_dnsnames (<[vDNSName v := new]> (dnsnames st)) st in
  (Some new, status_, st).

(** The arbitration block of [AddEntryVersion] (lines 353 to 391). *)
Definition arbitrate (v : EntryVersion) (new : ptr) (status_ : Status)
    (st : state) : option ptr * Status * state :=
  let dnsname_ := vDNSName v in
  let cur := dnsnames st !! dnsname_ in
  if negb (String.eqb dnsname_ "") then
    match cur with
    | Some c =>
        if negb (String.eqb (ObjectName_ (deref st c))
                            (ObjectName_ (deref st new))) then
          if Before (deref st c) (deref st new) then
            let st := store new (set_duplicate true false (deref st new)) st in
            let err := MsgAlreadyBusyForEntry dnsname_
                         (ObjectName_ (deref st c)) in
            if IsSucceeded status_ then
              let '(uerr, st) := UpdateStatus (vObjectName v) STATE_ERROR err st in
              match uerr with
              | Some _ => (Some new, DelayOnError uerr, st)
              | None => (Some new, status_, st)
              end
            else (Some new, status_, st)
          else
            let st := store c (set_duplicate true false (deref st c)) st in
            let st := triggerKey (ClusterKey_ (deref st c)) st in
            activate v new status_ st
        else activate v new status_ st
    | None => activate v new status_ st
    end
  else (Some new, status_, st).

(** [this.AddEntryVersion(logger, v, status)]; the first component of the
    result is the returned [*Entry], [None] for nil. *)
Definition AddEntryVersion (st : state) (v : EntryVersion) (status_ : Status)
  : option ptr * Status * state :=
  let st := with_blockingEntries (delete (vObjectName v) (blockingEntries st)) st in
  let old := entries st !! vObjectName v in
  let '(new, st) := install st v in
  if vIsDeleting v then
    let st := match old with
              | Some o => if decide (Kind_ (deref st o) <> DNSLockKind)
                          then cleanupEntry st o else st
              | None => st
              end in
    let en := deref st new in
    if valid (version en) then
      if decide (is_Some (zones st !! activezone en)) then
        if HasFinalizer (Object_ en) then
          (Some new, Succeeded,
           with_outdated (Entries_AddEntry (outdated st) new (ObjectName_ en)) st)
        else deleting_return v new None st
      else
        if negb (IsActive st en) || bool_decide (Zone (oStatus (object v)) = None)
        then let '(err, st) := RemoveFinalizer (object v) st in
             deleting_return v new err st
        else deleting_return v new None st
    else
      if negb (IsActive st en)
         || bool_decide (State (oStatus (object v)) <> STATE_STALE)
      then let '(err, st) := RemoveFinalizer (object v) st in
           deleting_return v new err st
      else deleting_return v new None st
  else
    let en := deref st new in
    let '(err, st) := if valid (version en) && IsManaging st v
                      then SetFinalizer (Object_ en) st else (None, st) in
    match err with
    | Some _ => (Some new, DelayOnError err, st)
    | None =>
        let st := with_entries (<[vObjectName v := new]> (entries st)) st in
        let st :=
          match old with
          | Some o =>
              if decide (o <> new) then
                let st := cleanupEntry st o in
                let eo := deref st o in
                if negb (String.eqb (activezone eo) "")
                   && negb (String.eqb (activezone eo) (ZoneId (deref st new)))
                   && bool_decide (is_Some (zones st !! activezone eo))
                then triggerHostedZone (activezone eo) st
                else st
              else st
          | None => st
          end in
        if negb (IsManaging st v) then (None, status_, st)
        else arbitrate v new status_ st
    end.

End entries.

(* =================================================================== *)
(** ** DNS locks                                                        *)
(* =================================================================== *)

(** The result of a call that may panic. *)
Inductive Outcome (A : Type) :=
| Ret (a : A) (st : state)
| Panic (st : state).
Arguments Ret {A} a st.
Arguments Panic {A} st.

Definition outcome_state {A} (o : Outcome A) : state :=
  match o with Ret _ st => st | Panic st => st end.

Section locks.

Context (w : World).

(** [utils.StringValue]. *)
Definition StringValue (s : option string) : string := default "" s.

(** [obj.ModifyStatus(f)] (controller-manager-library) for a modifier
    that cannot fail: nothing is sent when the modifier reports no
    change; otherwise the status is written and, on success, the object
    takes the written data.  The write is one call to the cluster; how
    often the library retries it is not part of the model. *)
Definition ModifyStatus (p : ptr) (f : Object -> Object * bool) (st : state)
  : option Err * state :=
  let e := deref st p in
  let o := Object_ e in
  let '(o', mod_) := f o in
  if mod_ then
    let st := emit (EvModifyLockStatus (oName o) o') st in
    match ModifyStatus_err w (oName o) with
    | Some err => (Some err, st)
    | None =>
        let v := version e in
        (None,
         store p {| version := {| object := o'; dnsname := dnsname v;
                                  status := status v; ttl := ttl v;
                                  interval := interval v; valid := valid v;
                                  duplicate := duplicate v;
                                  obsolete := obsolete v |};
                    modified := modified e; activezone := activezone e;
                    updateRequired := updateRequired e |} st)
    end
  else (None, st).

Definition with_status (o : Object) (s : BaseStatus) (ts ff : option Go.Time)
    (attrs : gmap string string) : Object :=
  {| oName := oName o; oKind := oKind o;
     oCreationTimestamp := oCreationTimestamp o; oDeleting := oDeleting o;
     oFinalizer := oFinalizer o; oOwnerId := oOwnerId o;
     oDNSName := oDNSName o; oStatus := s;
     oText := oText o; oTTL := oTTL o; oLockId := oLockId o;
     oTimestamp := oTimestamp o; oStatusTimestamp := ts;
     oFirstFailedDNSLookup := ff; oAttributes := attrs |}.

(** The modifier of [checkAndUpdateLock] (lines 612 to 625). *)
Definition clear_failed_lookup (premise : EntryPremise) (prov : DNSProvider)
    (o : Object) : Object * bool :=
  let s := oStatus o in
  let s' := {| State := State s; Message_ := Message_ s;
               Zone := Some (zoneid premise);
               ProviderType := Some (ptype premise);
               Provider_ := Some (pObjectName prov) |} in
  (with_status o s' (oStatusTimestamp o) None (oAttributes o),
   bool_decide (oFirstFailedDNSLookup o <> None)
   || bool_decide (Zone s <> Some (zoneid premise))
   || bool_decide (Provider_ s <> Some (pObjectName prov))
   || bool_decide (ProviderType s <> Some (ptype premise))).

(** The comparison of the desired with the observed record set (lines
    588 to 602); [rs] is not empty. *)
Definition lock_changed (newRS rs : direct.RecordSet) : bool :=
  let oldTTL := match rs with r0 :: _ => direct.GetTTL r0 | [] => 0 end in
  let oldRecords : gset string := list_to_set (map direct.GetValue rs) in
  if Z.of_nat (length newRS) =? Z.of_nat (size oldRecords) then
    existsb (fun r => negb (bool_decide (direct.GetValue r ∈ oldRecords))
                      || negb (oldTTL =? direct.GetTTL r)) newRS
  else true.

(** The end of [checkAndUpdateLock] (lines 604 to 630). *)
Definition write_lock (entry : ptr) (premise : EntryPremise) (prov : DNSProvider)
    (zone : option Zone_) (newRS : direct.RecordSet) (changed : bool)
    (st : state) : Outcome Status :=
  let '(err, st) :=
    if changed
    then (CreateOrUpdateRecordSet_err w prov zone newRS,
          emit (EvCreateOrUpdateRecordSet zone newRS) st)
    else (None, st) in
  match err with
  | Some _ => Ret (Delay err) st
  | None =>
      let st := store entry (set_updateRequired false (deref st entry)) st in
      if decide (Kind_ (deref st entry) = DNSLockKind) then
        let '(merr, st) :=
          ModifyStatus entry (clear_failed_lookup premise prov) st in
        match merr with
        | Some _ => Ret (Delay merr) st
        | None => Ret Succeeded st
        end
      else Panic st
  end.

(** [this.checkAndUpdateLock(logger, entry, premise)]. *)
Definition checkAndUpdateLock (st : state) (entry : ptr) (premise : EntryPremise)
  : Outcome Status :=
  let e := deref st entry in
  if negb (updateRequired e) then Ret Succeeded st
  else
    match provider premise with
    | None => Panic st
    | Some prov =>
        let zone := zones st !! ZoneId e in
        let newTTL := TTL e in
        let records :=
          fold_left
            (fun records s =>
               records ++ [ {| dns.Value := NewText_value w s newTTL |} ])
            (oText (Object_ e)) [] in
        let newRS :=
          direct.FromPlainRecordSet (intSize w) (DNSName e)
            (dns.NewRecordSet dns.RS_TXT newTTL records) in
        match GetRecordSet_res w prov zone (DNSName e) with
        | inl err => Ret (Delay (Some err)) st
        | inr ors =>
            let rs := default [] ors in
            if negb (Z.of_nat (length rs) =? 0) then
              match direct.GetAttr rs (ATTR_LOCKID w) with
              | None => Panic st
              | Some lckDNS =>
                  if decide (Kind_ e = DNSLockKind) then
                    let lckOwn := StringValue (oLockId (Object_ e)) in
                    if negb (String.eqb lckOwn lckDNS) then
                      let '(err, st) :=
                        UpdateStatus w (ObjectName_ e) STATE_STALE
                          (MsgText ("mismatching lock ids " +:+ lckOwn
                                    +:+ " != " +:+ lckDNS)) st in
                      match err with
                      | Some _ => Ret (Delay err) st
                      | None => Ret Succeeded st
                      end
                    else
                      match direct.GetAttr rs (ATTR_TIMESTAMP w) with
                      | None => Panic st
                      | Some value =>
                          match Go.ParseInt value with
                          | (_, Some _) =>
                              let '(err, st) :=
                                UpdateStatus w (ObjectName_ e) STATE_STALE
                                  (MsgText ("invalid timestamp in DNS record: "
                                            +:+ value)) st in
                              match err with
                              | Some _ => Ret (Delay err) st
                              | None => Ret Succeeded st
                              end
                          | (i, None) =>
                              let tsDNS := Go.Unix i in
                              let tsOwn := oTimestamp (Object_ e) in
                              if Go.Before tsOwn tsDNS then Ret Succeeded st
                              else write_lock entry premise prov zone newRS
                                     (lock_changed newRS rs) st
                          end
                      end
                  else Panic st
              end
            else write_lock entry premise prov zone newRS true st
        end
    end.

(** [this.checkAndDeleteLock(logger, entry, premise)]. *)
Definition checkAndDeleteLock (st : state) (entry : ptr) (premise : EntryPremise)
  : Outcome Status :=
  let e := deref st entry in
  match provider premise with
  | None => Panic st
  | Some prov =>
      let zone := zones st !! ZoneId e in
      match GetRecordSet_res w prov zone (DNSName e) with
      | inl err => Ret (Delay (Some err)) st
      | inr None =>
          let '(ferr, st) := RemoveFinalizer w (Object_ e) st in
          Ret (DelayOnError ferr) st
      | inr (Some rs) =>
          match direct.GetAttr rs (ATTR_LOCKID w) with
          | None => Panic st
          | Some lckDNS =>
              if decide (Kind_ e = DNSLockKind) then
                let lckOwn := StringValue (oLockId (Object_ e)) in
                match direct.GetAttr rs (ATTR_TIMESTAMP w) with
                | None => Panic st
                | Some value =>
                    let i := fst (Go.ParseInt value) in
                    let tsDNS := Go.Unix i in
                    let tsOwn := oTimestamp (Object_ e) in
                    let '(derr, st) :=
                      if String.eqb lckOwn lckDNS && negb (Go.After tsDNS tsOwn)
                      then (DeleteRecordSet_err w prov zone rs,
                            emit (EvDeleteRecordSet zone rs) st)
                      else (None, st) in
                    match derr with
                    | Some _ => Ret (Delay derr) st
                    | None =>
                        let '(ferr, st) := RemoveFinalizer w (Object_ e) st in
                        Ret (DelayOnError ferr) st
                    end
                end
              else Panic st
          end
      end
  end.

End locks.

(* =================================================================== *)
(** ** The periodic refresh of the lock states                          *)
(* =================================================================== *)

(** The variables [ts], [attrs] and [unnamed] of [UpdateLockStates]. *)
Record Parsed := {
  p_ts : Go.Time;
  p_attrs : gmap string string;
  p_unnamed : Z
}.

Definition parse_start : Parsed :=
  {| p_ts := Go.zeroTime; p_attrs := ∅; p_unnamed := 0 |}.

Section refresh.

Context (w : World).

(** The fields of one TXT string (lines 678 to 683): key, value and the
    counter of unnamed strings after it. *)
Definition record_fields (unnamed : Z) (r : string) : string * string * Z :=
  let r := Go.Trim r Go.dquote in
  match Go.Split r "="%char with
  | [k; v] => (k, v, unnamed)
  | _ => ("_" +:+ Go.itoa unnamed, r, Go.int (intSize w) (unnamed + 1))
  end.

(** One round of the loop over the records (lines 677 to 693). *)
Definition parse_record (acc : Parsed) (r : string) : Parsed :=
  let '(key, val, unnamed) := record_fields (p_unnamed acc) r in
  if String.eqb key (ATTR_TIMESTAMP w) then
    match Go.ParseInt val with
    | (_, Some _) =>
        {| p_ts := p_ts acc; p_attrs := p_attrs acc; p_unnamed := unnamed |}
    | (i, None) =>
        {| p_ts := Go.Unix i; p_attrs := p_attrs acc; p_unnamed := unnamed |}
    end
  else
    {| p_ts := p_ts acc; p_attrs := <[key := val]> (p_attrs acc);
       p_unnamed := unnamed |}.

Definition parse_records (records : list string) : Parsed :=
  fold_left parse_record records parse_start.

(** The failed lookup (lines 695 to 711): [firstfailed] and
    [updateRequired]. *)
Definition lookup_failed (st : state) (o : Object) (now : Go.Time)
  : Go.Time * bool :=
  let ttl := Go.mul64 (oTTL o) Go.Second in
  let first := (now, bool_decide (State (oStatus o) <> STATE_READY)) in
  match oFirstFailedDNSLookup o with
  | Some ff =>
      if Go.After ff (startupTime st)
      then (ff, Go.mul64 ttl 2 <? Go.Sub now ff)
      else first
  | None => first
  end.

(** [AssureTimestamp(&target, ts)]: the new target and the result. *)
Definition AssureTimestamp (target : option Go.Time) (ts : Go.Time)
  : option Go.Time * bool :=
  if Go.IsZero ts then (None, bool_decide (target <> None))
  else (Some ts,
        match target with
        | None => true
        | Some t => negb (Go.Equal t ts)
        end).

(** [EqualAttrs(a, b)]. *)
Definition EqualAttrs (a b : gmap string string) : bool :=
  if negb (Z.of_nat (size a) =? Z.of_nat (size b)) then false
  else bool_decide (map_Forall (fun k v => b !! k = Some v) a).

(** The modifier of [UpdateLockStates] (lines 715 to 732). *)
Definition observed_status (ts firstfailed : Go.Time) (attrs : gmap string string)
    (o : Object) : Object * bool :=
  let s := oStatus o in
  let '(ts', m1) := AssureTimestamp (oStatusTimestamp o) ts in
  let '(state_, msg) :=
    if negb (Go.IsZero firstfailed)
    then (STATE_STALE, MsgText "DNS record cannot be looked up")
    else (STATE_READY, MsgText "DNS record is set.") in
  let m2 := bool_decide (State s <> state_) in
  let m3 := bool_decide (Message_ s <> Some msg) in
  let '(ff', m4) := AssureTimestamp (oFirstFailedDNSLookup o) firstfailed in
  let m5 := negb (EqualAttrs attrs (oAttributes o)) in
  (with_status o {| State := state_; Message_ := Some msg; Zone := Zone s;
                    ProviderType := ProviderType s; Provider_ := Provider_ s |}
               ts' ff' attrs,
   m1 || m2 || m3 || m4 || m5).

(** What the lookup yields (lines 669 to 712): [updateRequired],
    [firstfailed], [ts] and [attrs]. *)
Definition lookup (st : state) (e : Entry) : bool * Go.Time * Parsed :=
  match LookupTXT_res w (DNSName e) with
  | inr records => (false, Go.zeroTime, parse_records records)
  | inl _ =>
      let '(firstfailed, updateRequired_) :=
        lookup_failed st (Object_ e) (Now w (ObjectName_ e)) in
      (updateRequired_, firstfailed, parse_start)
  end.

(** The body of the loop over the lock entries (lines 669 to 741). *)
Definition updateLockState (st : state) (p : ptr) : state :=
  let e := deref st p in
  let '(updateRequired_, firstfailed, parsed) := lookup st e in
  let st := snd (ModifyStatus w p
                   (observed_status (p_ts parsed) firstfailed (p_attrs parsed))
                   st) in
  if updateRequired_ then
    let st := store p (set_updateRequired true (deref st p)) st in
    emit (EvEnqueue (ObjectName_ (deref st p))) st
  else st.

(** The lock entries, collected under the read lock (lines 660 to
    665). *)
Definition lock_entries (st : state) : gmap ObjectName ptr :=
  fold_left
    (fun (acc : gmap ObjectName ptr) (np : ObjectName * ptr) =>
       if decide (Kind_ (deref st np.2) = DNSLockKind)
       then Entries_AddEntry acc np.2 (ObjectName_ (deref st np.2))
       else acc)
    (range_entries w (entries st)) ∅.

(** [this.UpdateLockStates(log)]. *)
Definition UpdateLockStates (st : state) : state :=
  fold_left (fun st np => updateLockState st np.2)
            (range_entries w (lock_entries st)) st.

End refresh.

(* =================================================================== *)
(** ** The reconcile handler                                            *)
(* =================================================================== *)

(** What [EntryPremise] reads under the read lock: the providers and their
    zones.  [lookupProvider] and [getProviderZoneForName] are not under
    src/. *)
Record Registry := {
  Enabled : gset string;
  lookupProvider : Object -> option DNSProvider * option DNSProvider * option Err;
  getProviderZoneForName : string -> option DNSProvider -> option Zone_
}.

(** The run of [HandleUpdateEntry]: the premise computed at entry, the
    premise [check] computed after [AddEntryVersion] when the run gets to
    line 473, and the result. *)
Record Handled := {
  h_premise : EntryPremise;
  h_check : option EntryPremise;
  h_result : Outcome Status
}.

Section handler.

Context (w : World).

(** [this.EntryPremise(e)]. *)
Definition EntryPremise_ (reg : Registry) (e : Object) : EntryPremise * option Err :=
  let '(provider_, fallback_, err) := lookupProvider reg e in
  let p ptype_ zoneid_ zonedomain_ :=
    {| ptypes := Enabled reg; ptype := ptype_; provider := provider_;
       fallback := fallback_; zoneid := zoneid_; zonedomain := zonedomain_ |} in
  let via_fallback :=
    match fallback_ with
    | Some fb =>
        match getProviderZoneForName reg (oDNSName e) (Some fb) with
        | Some zone => p (zProviderType zone) (zId zone) (zDomain zone)
        | None => p "" "" ""
        end
    | None => p "" "" ""
    end in
  match getProviderZoneForName reg (oDNSName e) provider_ with
  | Some zone => (p (zProviderType zone) (zId zone) (zDomain zone), err)
  | None =>
      match provider_, Zone (oStatus e) with
      | Some pr, Some z =>
          if negb (pIsValid pr) then (p (pTypeCode pr) z "", err)
          else (via_fallback, err)
      | _, _ => (via_fallback, err)
      end
  end.

(** Modelled from the spec: EntryPremise.Match is not under src/.
    Section 3: "Two premises match iff their (ptype, zoneid,
    providerObjectName, fallback-present) tuples are equal". *)
Definition Match (a b : EntryPremise) : bool :=
  String.eqb (ptype a) (ptype b)
  && String.eqb (zoneid a) (zoneid b)
  && bool_decide (pObjectName <$> provider a = pObjectName <$> provider b)
  && Bool.eqb (bool_decide (fallback a <> None)) (bool_decide (fallback b <> None)).

(** The deferred calls (lines 438 and 439), last deferred first. *)
Definition deferred (key : ClusterKey) (o : Outcome Status) : Outcome Status :=
  match o with
  | Ret s st => Ret s (emit EvTriggerStatistic (emit (EvNotifyHolder key) st))
  | Panic st => Panic (emit EvTriggerStatistic (emit (EvNotifyHolder key) st))
  end.

(** [this.HandleUpdateEntry(logger, op, object)].  The providers are read
    under the read lock at entry ([reg]) and again after
    [AddEntryVersion] ([reg']); other workers may change them in
    between. *)
Definition HandleUpdateEntry (reg reg' : Registry) (st : state) (op : string)
    (obj : Object) : Handled :=
  let key : ClusterKey := (oKind obj, oName obj) in
  let old := entries st !! oName obj in
  let oldE := deref st <$> old in
  let '(p, err) := EntryPremise_ reg obj in
  let err :=
    match provider p, err with
    | None, None =>
        if negb (String.eqb (zoneid p) "")
        then Some ("no matching provider for zone '" +:+ zoneid p +:+ "' found")
        else err
    | _, _ => err
    end in
  let v := NewEntryVersion w obj oldE in
  let v := match fallback p with
           | Some _ => {| object := object v; dnsname := dnsname v;
                          status := status v; ttl := ttl v;
                          interval := interval v; valid := valid v;
                          duplicate := duplicate v; obsolete := true |}
           | None => v
           end in
  let '(v, status_) := Setup w v p op err oldE in
  let '(new, status_, st) := AddEntryVersion w st v status_ in
  let premise_check (status_ : Status) (st : state) : Handled :=
    if negb (oDeleting obj) then
      let check := fst (EntryPremise_ reg' obj) in
      {| h_premise := p; h_check := Some check;
         h_result := deferred key
                       (Ret (if negb (Match check p) then Repeat else status_) st) |}
    else {| h_premise := p; h_check := None;
            h_result := deferred key (Ret status_ st) |} in
  match new with
  | Some n =>
      let en := deref st n in
      if decide (Kind_ en = DNSLockKind) then
        {| h_premise := p; h_check := None;
           h_result := deferred key
                         (if oDeleting obj then checkAndDeleteLock w st n p
                          else checkAndUpdateLock w st n p) |}
      else
        let status_ :=
          if IsSucceeded status_ && IsValid en && (0 <? Interval en)
          then RescheduleAfter status_ (Go.mul64 (Interval en) Go.Second)
          else status_ in
        let st :=
          if IsModified en && negb (String.eqb (ZoneId en) "")
          then triggerHostedZone (ZoneId en) st
          else st in
        premise_check status_ st
  | None => premise_check status_ st
  end.

(** What comes back from [AddEntryVersion] in a run of [HandleUpdateEntry]
    (lines 425 to 447): the entry, the status and the state. *)
Definition added_entry (reg : Registry) (st : state) (op : string) (obj : Object)
  : option ptr * Status * state :=
  let old := entries st !! oName obj in
  let oldE := deref st <$> old in
  let '(p, err) := EntryPremise_ reg obj in
  let err :=
    match provider p, err with
    | None, None =>
        if negb (String.eqb (zoneid p) "")
        then Some ("no matching provider for zone '" +:+ zoneid p +:+ "' found")
        else err
    | _, _ => err
    end in
  let v := NewEntryVersion w obj oldE in
  let v := match fallback p with
           | Some _ => {| object := object v; dnsname := dnsname v;
                          status := status v; ttl := ttl v;
                          interval := interval v; valid := valid v;
                          duplicate := duplicate v; obsolete := true |}
           | None => v
           end in
  let '(v, status_) := Setup w v p op err oldE in
  AddEntryVersion w st v status_.

(** The test of lines 449 and 450: [AddEntryVersion] returned an entry, and
    it is a lock, so that the run is handed to the lock protocol. *)
Definition lock_run (reg : Registry) (st : state) (op : string) (obj : Object)
  : bool :=
  match added_entry reg st op obj with
  | (Some n, _, st') => bool_decide (Kind_ (deref st' n) = DNSLockKind)
  | (None, _, _) => false
  end.

End handler.

(* =================================================================== *)
(** ** Triggers, owners, blocking entries and deleted objects           *)
(* =================================================================== *)

Section index.

Context (w : World).

(** [this.GetEntry(name)]; [None] is nil. *)
Definition GetEntry (st : state) (name : ObjectName) : option ptr :=
  entries st !! name.

(** [this.TriggerEntries(logger, entries)]. *)
Definition TriggerEntries (es : gmap ObjectName ptr) (st : state) : state :=
  fold_left (fun st np => TriggerEntry (deref st np.2) st) (range_entries w es) st.

(** [this.GetEntriesByOwner(owners)]; [None] is the nil map. *)
Definition GetEntriesByOwner (st : state) (owners : gset string)
  : option (gmap ObjectName ptr) :=
  if Z.of_nat (size owners) =? 0 then None
  else Some (fold_left
               (fun (acc : gmap ObjectName ptr) (np : ObjectName * ptr) =>
                  if bool_decide (OwnerId (deref st np.2) ∈ owners)
                  then <[ObjectName_ (deref st np.2) := np.2]> acc
                  else acc)
               (range_entries w (entries st)) ∅).

(** [this.TriggerEntriesByOwner(logger, owners)]; a range over the nil map
    does nothing. *)
Definition TriggerEntriesByOwner (owners : gset string) (st : state) : state :=
  match GetEntriesByOwner st owners with
  | None => st
  | Some es => TriggerEntries es st
  end.

(** [this.addBlockingEntries(logger, entries)]; [now] is the reading of
    [time.Now()]. *)
Definition addBlockingEntries (now : Go.Time) (es : gmap ObjectName ptr) (st : state)
  : state :=
  if Z.of_nat (size es) =? 0 then st
  else fold_left
         (fun st np =>
            let name := ObjectName_ (deref st np.2) in
            match blockingEntries st !! name with
            | Some _ => st
            | None => with_blockingEntries (<[name := now]> (blockingEntries st)) st
            end)
         (range_entries w es) st.

(** [this.UpdateEntry(logger, object)] and [this.DeleteEntry(logger,
    object)]. *)
Definition UpdateEntry (reg reg' : Registry) (st : state) (obj : Object) : Handled :=
  HandleUpdateEntry w reg reg' st "reconcile" obj.

Definition DeleteEntry (reg reg' : Registry) (st : state) (obj : Object) : Handled :=
  HandleUpdateEntry w reg reg' st "delete" obj.

(** [this.EntryDeleted(logger, key)].  Of the deferred calls,
    [references.DelRef(key)] is returned as the list of dropped references
    and [references.NotifyHolder] goes to the trace. *)
Definition EntryDeleted (reg : Registry) (st : state) (key : ClusterKey)
  : Status * state * list ClusterKey :=
  let st := with_blockingEntries (delete key.2 (blockingEntries st)) st in
  let st :=
    match entries st !! key.2 with
    | Some old =>
        let '(provider_, _, _) := lookupProvider reg (Object_ (deref st old)) in
        let st :=
          match getProviderZoneForName reg (DNSName (deref st old)) provider_ with
          | Some zone => triggerHostedZone (zId zone) st
          | None => st
          end in
        cleanupEntry w st old
    | None => st
    end in
  (Succeeded, emit (EvNotifyHolder key) st, [key]).

End index.

End provider.

(* ===================================================================== *)
(** * pkg/controller/source/service: the targets of a service              *)
(* ===================================================================== *)

Module service.

(** [api.LoadBalancerIngress] and the fields of [api.Service] that are
    read. *)
Record LoadBalancerIngress := { Hostname : string; IP : string }.

Record Service := {
  Type_ : string;                         (* Spec.Type *)
  Ingress : list LoadBalancerIngress      (* Status.LoadBalancer.Ingress *)
}.

Definition ServiceTypeLoadBalancer : string := "LoadBalancer".

(** [set.Add(s)] on a [utils.StringSet]. *)
Definition Add (set : gset string) (s : string) : gset string := {[ s ]} ∪ set.

(** The body of the loop over the ingresses. *)
Definition add_ingress (set : gset string) (i : LoadBalancerIngress) : gset string :=
  if negb (String.eqb (Hostname i) "") && String.eqb (IP i) ""
  then Add set (Hostname i)
  else if negb (String.eqb (IP i) "") then Add set (IP i) else set.

(** [GetTargets(logger, obj, names)] for an object that is a service; of
    [names] only the length is read.  [None] is nil. *)
Definition GetTargets (svc : Service) (names : gset string)
  : option (gset string) * option (gset string) * option string :=
  if negb (String.eqb (Type_ svc) ServiceTypeLoadBalancer) then
    if Z.of_nat (size names) =? 0 then (None, None, None)
    else (None, None, Some "service is not of type LoadBalancer")
  else (Some (fold_left add_ingress (Ingress svc) ∅), None, None).

End service.

(* ===================================================================== *)
(** * resources: the modification of an object with retries                *)
(* ===================================================================== *)

Module resources.

(** The classes of errors that [I_modify] tells apart
    ([errors.IsNotFound], [IsAlreadyExists], [IsConflict]). *)
Inductive ErrKind := NotFound | AlreadyExists | Conflict | OtherError.

Record Error := { kind : ErrKind; message : string }.

#[global] Instance ErrKind_eq_dec : EqDecision ErrKind.
Proof. solve_decision. Defined.

#[global] Instance Error_eq_dec : EqDecision Error.
Proof. solve_decision. Defined.

Definition IsNotFound (e : Error) : bool := bool_decide (kind e = NotFound).
Definition IsAlreadyExists (e : Error) : bool := bool_decide (kind e = AlreadyExists).
Definition IsConflict (e : Error) : bool := bool_decide (kind e = Conflict).

Section i_object.

(** The object data and the state of the cluster behind the resource. *)
Context {D S : Type}.

(** [this.resource]: the four calls.  [I_get] fills the data it is given;
    the others return the object as the cluster holds it afterwards. *)
Record Internal := {
  I_get : D -> S -> option Error * D * S;
  I_create : D -> S -> D * option Error * S;
  I_update : D -> S -> D * option Error * S;
  I_updateStatus : D -> S -> D * option Error * S
}.

(** A modifier changes the data in place and reports whether it did. *)
Definition Modifier : Type := D -> bool * option Error * D.

Inductive Call :=
| CallGet
| CallCreate (data : D)
| CallUpdate (data : D)
| CallUpdateStatus (data : D).

(** The object ([this.ObjectData]), the cluster and the calls made. *)
Record Run := { ObjectData : D; cluster : S; calls : list Call }.

Definition called (c : Call) (s : S) (r : Run) : Run :=
  {| ObjectData := ObjectData r; cluster := s; calls := calls r ++ [c] |}.

Definition assigned (d : D) (r : Run) : Run :=
  {| ObjectData := d; cluster := cluster r; calls := calls r |}.

Context (resource : Internal).

(** The loop of [I_modify] (lines 839 to 865), [cnt] rounds left. *)
Fixpoint modify_loop (cnt : nat) (status_only : bool) (modifier : Modifier)
    (data : D) (lasterr : option Error) (r : Run) : bool * option Error * Run :=
  match cnt with
  | O => (true, lasterr, r)
  | Datatypes.S cnt' =>
      let '(mod_, err, data) := modifier data in
      if negb mod_ then (mod_, err, r)
      else
        match err with
        | Some _ => (mod_, err, r)
        | None =>
            let '(modified, lasterr, s) :=
              if status_only then I_updateStatus resource data (cluster r)
              else I_update resource data (cluster r) in
            let r := called (if status_only then CallUpdateStatus data
                             else CallUpdate data) s r in
            match lasterr with
            | None => (mod_, None, assigned modified r)
            | Some e =>
                if negb (IsConflict e) then (mod_, lasterr, r)
                else
                  let '(err, data, s) := I_get resource data (cluster r) in
                  let r := called CallGet s r in
                  match err with
                  | Some _ => (mod_, err, r)
                  | None => modify_loop cnt' status_only modifier data lasterr r
                  end
            end
        end
  end.

(** [this.I_modify(status_only, create, modifier)] on the object of [r];
    the data worked on is a deep copy of the object's. *)
Definition I_modify (status_only create : bool) (modifier : Modifier) (r : Run)
  : bool * option Error * Run :=
  let data := ObjectData r in
  let cnt := 10%nat in
  if create then
    let '(err, data, s) := I_get resource data (cluster r) in
    let r := called CallGet s r in
    match err with
    | Some e =>
        if negb (IsNotFound e) then (false, err, r)
        else
          let '(_, merr, data) := modifier data in
          match merr with
          | Some _ => (false, merr, r)
          | None =>
              let '(created, cerr, s) := I_create resource data (cluster r) in
              let r := called (CallCreate data) s r in
              match cerr with
              | None => (true, None, assigned created r)
              | Some ce =>
                  if negb (IsAlreadyExists ce) then (false, cerr, r)
                  else
                    let '(gerr, data, s) := I_get resource data (cluster r) in
                    let r := called CallGet s r in
                    match gerr with
                    | Some _ => (false, gerr, r)
                    | None => modify_loop cnt status_only modifier data None r
                    end
              end
          end
    | None => modify_loop cnt status_only modifier data None r
    end
  else modify_loop cnt status_only modifier data None r.

End i_object.

End resources.

(* ===================================================================== *)
(** * Concrete environments for the examples                               *)
(* ===================================================================== *)

Module examples.
Import provider.

(** An environment in which every call succeeds, the resolver answers
    [txt], the provider holds [held] and the status writes fail with
    [status_err]. *)
Definition world (txt : Err + list string) (held : Err + option direct.RecordSet)
    (status_err : option Err) (now : Go.Time) : World :=
  {| intSize := 64;
     ATTR_LOCKID := "lockid";
     ATTR_TIMESTAMP := "ts";
     SetFinalizer_err := fun _ => None;
     RemoveFinalizer_err := fun _ => None;
     UpdateStatus_err := fun _ _ _ => status_err;
     ModifyStatus_err := fun _ => None;
     GetRecordSet_res := fun _ _ _ => held;
     CreateOrUpdateRecordSet_err := fun _ _ _ => None;
     DeleteRecordSet_err := fun _ _ _ => None;
     LookupTXT_res := fun _ => txt;
     Now := fun _ => now;
     range_entries := map_to_list;
     NewText_value := fun s _ => String Go.dquote (s +:+ String Go.dquote "");
     NewEntry_modified := fun _ => true;
     NewEntry_activezone := fun v => default "" (Zone (status v));
     NewEntry_updateRequired := fun _ => true;
     Update_modified := fun e _ => modified e;
     Update_activezone := fun e _ => activezone e;
     Update_updateRequired := fun e _ => updateRequired e;
     NewEntryVersion := fun o _ =>
       {| object := o; dnsname := oDNSName o; status := oStatus o;
          ttl := oTTL o; interval := 0; valid := true; duplicate := false;
          obsolete := false |};
     Setup := fun v _ _ _ _ => (v, Succeeded) |}.

Definition quiet : World := world (inr []) (inr None) None 0.

Definition sample_rs : dns.RecordSet :=
  dns.NewRecordSet "A" 300 [ {| dns.Value := "1.2.3.4" |};
                             {| dns.Value := "5.6.7.8" |} ].

Definition zone1 : Zone_ :=
  {| zId := "zone-1"; zDomain := "example.com"; zProviderType := "mock" |}.

Definition mock : DNSProvider :=
  {| pObjectName := "default/mock"; pIsValid := true; pTypeCode := "mock" |}.

Definition bound_status (s : StateValue) : BaseStatus :=
  {| State := s; Message_ := None; Zone := Some "zone-1";
     ProviderType := Some "mock"; Provider_ := Some "default/mock" |}.

(** A DNSLock object with lock id [lockid], timestamp [ts] (seconds), status
    state [s] and recorded first failed lookup [ff]. *)
Definition lock_object (name : ObjectName) (lockid : string) (ts : Z)
    (s : StateValue) (ff : option Go.Time) (deleting : bool) : Object :=
  {| oName := name; oKind := DNSLockKind; oCreationTimestamp := 0;
     oDeleting := deleting; oFinalizer := true; oOwnerId := "";
     oDNSName := "lock.example.com"; oStatus := bound_status s;
     oText := [ "lockid=" +:+ lockid ]; oTTL := 60; oLockId := Some lockid;
     oTimestamp := ts * Go.Second; oStatusTimestamp := None;
     oFirstFailedDNSLookup := ff; oAttributes := ∅ |}.

(** A DNSEntry object created at [created] (seconds). *)
Definition entry_object (name : ObjectName) (dnsName : string) (created : Z)
    (s : BaseStatus) (deleting : bool) : Object :=
  {| oName := name; oKind := DNSEntryKind;
     oCreationTimestamp := created * Go.Second;
     oDeleting := deleting; oFinalizer := true; oOwnerId := "";
     oDNSName := dnsName; oStatus := s;
     oText := []; oTTL := 300; oLockId := None;
     oTimestamp := 0; oStatusTimestamp := None;
     oFirstFailedDNSLookup := None; oAttributes := ∅ |}.

Definition version_of (o : Object) (dup : bool) : EntryVersion :=
  {| object := o; dnsname := oDNSName o; status := oStatus o; ttl := oTTL o;
     interval := 0; valid := true; duplicate := dup; obsolete := false |}.

Definition entry_of (o : Object) (dup upd : bool) : Entry :=
  {| version := version_of o dup; modified := negb dup;
     activezone := "zone-1"; updateRequired := upd |}.

(** A state over the given store, index and name claims, with the zone
    [zone-1] when [with_zone]. *)
Definition state_of (store_ : list (ptr * Entry)) (index : list (ObjectName * ptr))
    (claims : list (string * ptr)) (with_zone : bool) (startup : Go.Time) : state :=
  {| blockingEntries := ∅;
     entries := list_to_map index;
     dnsnames := list_to_map claims;
     zones := if with_zone then {[ "zone-1" := zone1 ]} else ∅;
     outdated := ∅;
     ownerids := {[ "" ]};
     typeCodes := {[ "mock" ]};
     startupTime := startup;
     mem := list_to_map store_;
     events := [] |}.

(** One lock entry at address 1. *)
Definition lock_state (o : Object) (upd : bool) (startup : Go.Time) : state :=
  state_of [ (1%positive, entry_of o false upd) ] [ (oName o, 1%positive) ] []
           true startup.

(** A TXT value as the provider holds it: the text between double
    quotes. *)
Definition quoted (text : string) : string :=
  String Go.dquote (text +:+ String Go.dquote "").

Definition txt (text : string) : direct.plainRecord :=
  {| direct.DNSName := "lock.example.com"; direct.Type_ := "TXT";
     direct.TTL := 60; direct.Value := quoted text |}.

(** The lock record of writer [lockid] at [ts]. *)
Definition held_lock (lockid ts : string) : Err + option direct.RecordSet :=
  inr (Some [ txt ("lockid=" +:+ lockid); txt ("ts=" +:+ ts) ]).

(** Three entries for [www.example.com]: [e1], created at 10, holds the
    name; [e2] (created at 30) and [e3] (created at 20) wait as
    duplicates. *)
Definition contested : state :=
  let o1 := entry_object "default/e1" "www.example.com" 10 (bound_status STATE_READY) false in
  let o2 := entry_object "default/e2" "www.example.com" 30 (bound_status STATE_ERROR) false in
  let o3 := entry_object "default/e3" "www.example.com" 20 (bound_status STATE_ERROR) false in
  state_of [ (1%positive, entry_of o1 false false);
             (2%positive, entry_of o2 true false);
             (3%positive, entry_of o3 true false) ]
           [ ("default/e1", 1%positive); ("default/e2", 2%positive);
             ("default/e3", 3%positive) ]
           [ ("www.example.com", 1%positive) ] true 0.

(** The entry [e1] alone, holding [www.example.com]. *)
Definition e1_holds (with_zone : bool) : state :=
  state_of [ (1%positive,
              entry_of (entry_object "default/e1" "www.example.com" 10
                          (bound_status STATE_READY) false) false false) ]
           [ ("default/e1", 1%positive) ]
           [ ("www.example.com", 1%positive) ] with_zone 0.

(** The version of [e1] under deletion. *)
Definition e1_deleting : EntryVersion :=
  version_of (entry_object "default/e1" "www.example.com" 10
                (bound_status STATE_READY) true) false.

(** A later object [e2] asking for the same name. *)
Definition e2_version : EntryVersion :=
  version_of (entry_object "default/e2" "www.example.com" 30
                (bound_status (STATE_other "")) false) false.

Definition zone2 : Zone_ :=
  {| zId := "zone-2"; zDomain := "example.com"; zProviderType := "mock" |}.

(** Providers as read under the read lock: [mock] with the zone [z]. *)
Definition registry (z : Zone_) : Registry :=
  {| Enabled := {[ "mock" ]};
     lookupProvider := fun _ => (Some mock, None, None);
     getProviderZoneForName := fun _ p =>
       match p with Some _ => Some z | None => None end |}.

Definition mock_premise : EntryPremise :=
  {| ptypes := {[ "mock" ]}; ptype := "mock"; provider := Some mock;
     fallback := None; zoneid := "zone-1"; zonedomain := "example.com" |}.

End examples.

(* ===================================================================== *)
(** * Vocabulary of the statements                                         *)
(* ===================================================================== *)

Definition eq_sign : ascii := "="%char.

(** The strings with exactly one equals sign, after trimming the quotes. *)
Definition is_pair (r : string) : bool :=
  Nat.eqb (Go.count (Go.Trim r Go.dquote) eq_sign) 1.

(** The strings without any equals sign. *)
Definition no_equals (r : string) : bool :=
  Nat.eqb (Go.count (Go.Trim r Go.dquote) eq_sign) 0.

(** The last byte of a string. *)
Fixpoint last_byte (s : string) : option ascii :=
  match s with
  | EmptyString => None
  | String a EmptyString => Some a
  | String _ r => last_byte r
  end.

(** A TXT value in the provider's form ends with a double quote. *)
Definition quoted_value (r : direct.plainRecord) : Prop :=
  last_byte (direct.GetValue r) = Some Go.dquote.

(** The message of the stale status on a lock id mismatch. *)
Definition mismatch_message (lckOwn lckDNS : string) : provider.Message :=
  provider.MsgText ("mismatching lock ids " +:+ lckOwn +:+ " != " +:+ lckDNS).

(** The index binds object names to allocated entries of that name. *)
Definition index_wf (st : provider.state) : Prop :=
  forall (n : provider.ObjectName) (p : provider.ptr),
    provider.entries st !! n = Some p ->
    is_Some (provider.mem st !! p)
    /\ provider.ObjectName_ (provider.deref st p) = n.

(** The test of the scan of [cleanupEntry]: marked duplicate, with the DNS
    name [d]. *)
Definition candidate (st : provider.state) (d : string) (a : provider.ptr) : bool :=
  provider.duplicate (provider.version (provider.deref st a))
  && String.eqb (provider.DNSName (provider.deref st a)) d.

(** An entry of the index [es] that is marked duplicate and claims the DNS
    name [dnsName]. *)
Definition claimant (st : provider.state) (es : gmap provider.ObjectName provider.ptr)
    (dnsName : string) (a : provider.ptr) : Prop :=
  (exists n, es !! n = Some a)
  /\ provider.duplicate (provider.version (provider.deref st a)) = true
  /\ provider.DNSName (provider.deref st a) = dnsName.

(** The calls of [I_modify] that write an existing object. *)
Definition is_update {D : Type} (c : @resources.Call D) : bool :=
  match c with
  | resources.CallUpdate _ | resources.CallUpdateStatus _ => true
  | _ => false
  end.

(** The calls that write to the cluster. *)
Definition is_write {D : Type} (c : @resources.Call D) : bool :=
  match c with resources.CallGet => false | _ => true end.

(** The calls that a run of [I_modify] with the given flags may make. *)
Definition allowed_call {D : Type} (status_only create : bool)
    (c : @resources.Call D) : bool :=
  match c with
  | resources.CallGet => true
  | resources.CallCreate _ => create
  | resources.CallUpdate _ => negb status_only
  | resources.CallUpdateStatus _ => status_only
  end.

(** The endpoint that [status_only] selects. *)
Definition endpoint {D S : Type} (resource : @resources.Internal D S)
    (status_only : bool) : D -> S -> D * option resources.Error * S :=
  if status_only then resources.I_updateStatus resource
  else resources.I_update resource.

(** A resource over version numbers on which every update conflicts. *)
Definition contended : @resources.Internal Z Z :=
  {| resources.I_get := fun _ s => (None, s, s);
     resources.I_create := fun d s =>
       (d, Some {| resources.kind := resources.AlreadyExists;
                   resources.message := "exists" |}, s);
     resources.I_update := fun d s =>
       (d, Some {| resources.kind := resources.Conflict;
                   resources.message := "conflict" |}, s + 1);
     resources.I_updateStatus := fun d s =>
       (d, Some {| resources.kind := resources.Conflict;
                   resources.message := "conflict" |}, s + 1) |}.

(** An ingress adds [x] to the targets. *)
Definition targets (i : service.LoadBalancerIngress) (x : string) : Prop :=
  x <> "" /\ (service.IP i = x \/ (service.IP i = "" /\ service.Hostname i = x)).

(** A record value that does not carry the attribute [name]. *)
Definition other_attr (name : string) (r : direct.plainRecord) : Prop :=
  Go.HasPrefix (direct.GetValue r) (direct.newAttrKeyPrefix name) = false.

(** A holder of a DNS name in the dnsnames index is an allocated entry with
    that DNS name. *)
Definition claims_wf (st : provider.state) : Prop :=
  forall (d : string) (c : provider.ptr),
    provider.dnsnames st !! d = Some c ->
    is_Some (provider.mem st !! c)
    /\ provider.DNSName (provider.deref st c) = d.

(** Both indexes are well formed. *)
Definition state_wf (st : provider.state) : Prop := index_wf st /\ claims_wf st.

(** The allocated entries stay allocated and keep their object name and
    their DNS name. *)
Definition names_kept (st st' : provider.state) : Prop :=
  forall q : provider.ptr,
    is_Some (provider.mem st !! q) ->
    is_Some (provider.mem st' !! q)
    /\ provider.ObjectName_ (provider.deref st' q)
       = provider.ObjectName_ (provider.deref st q)
    /\ provider.DNSName (provider.deref st' q)
       = provider.DNSName (provider.deref st q).

(** The indexes of [st'] bind nothing that those of [st] do not bind. *)
Definition indexes_shrink (st st' : provider.state) : Prop :=
  (forall n p, provider.entries st' !! n = Some p ->
               provider.entries st !! n = Some p)
  /\ (forall d c, provider.dnsnames st' !! d = Some c ->
                  provider.dnsnames st !! d = Some c).

(** The calls of [I_modify] that create the object. *)
Definition is_create {D : Type} (c : @resources.Call D) : bool :=
  match c with resources.CallCreate _ => true | _ => false end.

(* ===================================================================== *)
(** * Facts about the primitives                                           *)
(* ===================================================================== *)

Section go_facts.

Lemma wrap_id (bits z : Z) :
  0 < bits -> - 2 ^ (bits - 1) <= z < 2 ^ (bits - 1) -> Go.wrap bits z = z.
Proof.
  intros Hb Hz. unfold Go.wrap.
  assert (E : 2 ^ bits = 2 * 2 ^ (bits - 1)).
  { replace bits with (Z.succ (bits - 1)) at 1 by lia.
    rewrite Z.pow_succ_r; lia. }
  rewrite Z.mod_small; lia.
Qed.

Lemma pow2_mono (a b : Z) : 0 <= a <= b -> 2 ^ a <= 2 ^ b.
Proof. intros H. apply Z.pow_le_mono_r; lia. Qed.

Lemma split_length (s : string) (sep : ascii) :
  length (Go.Split s sep) = S (Go.count s sep).
Proof.
  induction s as [|a r IH]; simpl; [reflexivity|].
  destruct (Ascii.eqb a sep); simpl; [by rewrite IH|].
  destruct (Go.Split r sep) as [|h t] eqn:E; simpl in *; lia.
Qed.

End go_facts.

(* ===================================================================== *)
(** * The primitives and the attribute lookup on small inputs              *)
(* ===================================================================== *)

Example ParseInt_decimal : Go.ParseInt "1700000000" = (1700000000, None).
Proof. reflexivity. Qed.

Example ParseInt_signed : Go.ParseInt "-5" = (-5, None) /\ Go.ParseInt "+7" = (7, None).
Proof. split; reflexivity. Qed.

Example ParseInt_syntax :
  Go.ParseInt "" = (0, Some Go.ErrSyntax)
  /\ Go.ParseInt "12a" = (0, Some Go.ErrSyntax)
  /\ Go.ParseInt "-" = (0, Some Go.ErrSyntax)
  /\ Go.ParseInt "1_000" = (0, Some Go.ErrSyntax).
Proof. repeat split; reflexivity. Qed.

Example ParseInt_range :
  Go.ParseInt "9223372036854775808" = (Go.MaxInt64, Some Go.ErrRange)
  /\ Go.ParseInt "-9223372036854775808" = (Go.MinInt64, None)
  /\ Go.ParseInt "-9223372036854775809" = (Go.MinInt64, Some Go.ErrRange).
Proof. repeat split; reflexivity. Qed.

Example Split_pieces :
  Go.Split "a=b=c" eq_sign = [ "a"; "b"; "c" ]
  /\ Go.Split "key=" eq_sign = [ "key"; "" ]
  /\ Go.Split "plain" eq_sign = [ "plain" ]
  /\ Go.Split "" eq_sign = [ "" ].
Proof. repeat split; reflexivity. Qed.

Example Trim_quotes :
  Go.Trim (examples.quoted "owner=x") Go.dquote = "owner=x"
  /\ Go.Trim (examples.quoted (examples.quoted "")) Go.dquote = "".
Proof. split; reflexivity. Qed.

Example itoa_decimal : Go.itoa 0 = "0" /\ Go.itoa 12 = "12" /\ Go.itoa (-3) = "-3".
Proof. repeat split; vm_compute; reflexivity. Qed.

Example wrap_int32 : Go.int 32 (2 ^ 31) = - 2 ^ 31 /\ Go.int 32 300 = 300.
Proof. split; reflexivity. Qed.

Example Unix_epoch : Go.Unix 0 = 0 /\ Go.Unix 100 = 100 * Go.Second.
Proof. split; reflexivity. Qed.

Example GetAttr_held :
  let rs := [ examples.txt "lockid=A"; examples.txt "ts=100" ] in
  direct.GetAttr rs "lockid" = Some "A"
  /\ direct.GetAttr rs "ts" = Some "100"
  /\ direct.GetAttr rs "owner" = Some "".
Proof. repeat split; reflexivity. Qed.

(** A lock without a record at the provider writes its record set. *)
Example lock_first_write :
  let w := examples.world (inr []) (inr None) None 0 in
  let o := examples.lock_object "default/lock" "A" 100 provider.STATE_READY None false in
  let r := provider.checkAndUpdateLock w (examples.lock_state o true 0) 1%positive
             examples.mock_premise in
  exists st', r = provider.Ret provider.Succeeded st'
    /\ provider.updateRequired (provider.deref st' 1%positive) = false
    /\ provider.events st'
       = [ provider.EvCreateOrUpdateRecordSet (Some examples.zone1)
             [ examples.txt "lockid=A" ] ].
Proof. eexists. split; [reflexivity|]. split; vm_compute; reflexivity. Qed.

(** The later of two entries for one name becomes the duplicate. *)
Example later_entry_is_duplicate :
  let res := provider.AddEntryVersion examples.quiet (examples.e1_holds true)
               examples.e2_version provider.Succeeded in
  res.1.1 = Some 2%positive
  /\ provider.events res.2
     = [ provider.EvSetFinalizer "default/e2";
         provider.EvUpdateStatus "default/e2" provider.STATE_ERROR
           (provider.MsgAlreadyBusyForEntry "www.example.com" "default/e1") ].
Proof. split; vm_compute; reflexivity. Qed.

(* ===================================================================== *)
(** * Round trip of the record-set conversions                             *)
(* ===================================================================== *)

Section roundtrip.

Lemma fold_snoc_map {A B : Type} (f : A -> B) (l : list A) (acc : list B) :
  fold_left (fun acc x => acc ++ [f x]) l acc = acc ++ map f l.
Proof.
  revert acc. induction l as [|x l IH]; intros acc; simpl.
  - by rewrite app_nil_r.
  - rewrite IH. by rewrite <- app_assoc.
Qed.

Lemma FromPlainRecordSet_map intSize d rs :
  direct.FromPlainRecordSet intSize d rs =
  map (fun r => {| direct.DNSName := d;
                   direct.Type_ := dns.Type_ rs;
                   direct.TTL := Go.int intSize (dns.TTL rs);
                   direct.Value := dns.Value r |}) (dns.Records rs).
Proof. unfold direct.FromPlainRecordSet. by rewrite fold_snoc_map. Qed.

Lemma rewrap_records (l : list dns.Record) :
  map (fun r => {| dns.Value := dns.Value r |}) l = l.
Proof. induction l as [|[v] l IH]; simpl; [done|]. by rewrite IH. Qed.

(** C10.  For a record set [rs] with at least one record whose TTL fits in
    the platform's [int], converting to the plain form under a name [d] and
    back returns [d] and a record set with the type, the TTL and the record
    values of [rs] (the very record set, in the model); the empty plain
    record set converts to the empty name and nil. *)
Theorem plain_recordset_roundtrip (intSize : Z) (d : string) (rs : dns.RecordSet) :
  (intSize = 32 \/ intSize = 64) ->
  dns.Records rs <> [] ->
  - 2 ^ (intSize - 1) <= dns.TTL rs < 2 ^ (intSize - 1) ->
  let back := direct.ToPlainRecordset (direct.FromPlainRecordSet intSize d rs) in
  back = (d, Some rs)
  /\ (forall rs', back.2 = Some rs' ->
        dns.Type_ rs' = dns.Type_ rs /\ dns.TTL rs' = dns.TTL rs
        /\ map dns.Value (dns.Records rs') = map dns.Value (dns.Records rs))
  /\ direct.ToPlainRecordset [] = ("", None).
Proof.
  intros Hsize Hne Httl back.
  assert (Hback : back = (d, Some rs)).
  { subst back. rewrite FromPlainRecordSet_map.
    destruct rs as [ty ttl recs]; simpl in *.
    destruct recs as [|r0 recs]; [done|]. simpl.
    unfold direct.ToPlainRecordset, direct.GetDNSName, direct.GetType,
      direct.GetTTL; simpl.
    rewrite (fold_snoc_map (fun r => {| dns.Value := direct.GetValue r |})).
    simpl. unfold direct.GetValue at 1; simpl.
    rewrite map_map; simpl. unfold direct.GetValue; simpl.
    rewrite rewrap_records. destruct r0 as [v0].
    unfold dns.NewRecordSet, Go.int64, Go.int.
    assert (H1 : Go.wrap intSize ttl = ttl) by (apply wrap_id; lia).
    rewrite H1.
    assert (H2 : Go.wrap 64 ttl = ttl).
    { apply wrap_id; [lia|].
      assert (2 ^ (intSize - 1) <= 2 ^ (64 - 1)) by (apply pow2_mono; lia).
      lia. }
    by rewrite H2. }
  split; [done|]. split; [|done].
  intros rs' Hrs'. rewrite Hback in Hrs'. simpl in Hrs'.
  by inversion Hrs'.
Qed.

Lemma plain_recordset_roundtrip_witness :
  direct.ToPlainRecordset
    (direct.FromPlainRecordSet 32 "www.example.com" examples.sample_rs)
  = ("www.example.com", Some examples.sample_rs).
Proof.
  apply (plain_recordset_roundtrip 32 "www.example.com" examples.sample_rs).
  - by left.
  - done.
  - split; [by vm_compute | reflexivity].
Defined.

End roundtrip.

(* ===================================================================== *)
(** * The TXT strings of a lookup                                          *)
(* ===================================================================== *)

Section txt_strings.
Import provider.

Lemma split_pair (s : string) :
  Go.count s eq_sign = 1%nat <-> exists k v, Go.Split s eq_sign = [k; v].
Proof.
  pose proof (split_length s eq_sign) as L. split.
  - intros C. rewrite C in L.
    destruct (Go.Split s eq_sign) as [|k [|v [|? ?]]]; simpl in L; try lia.
    by exists k, v.
  - intros (k & v & E). rewrite E in L. simpl in L. lia.
Qed.

(** Joining the pieces with the separator gives the string back. *)
Lemma split_join (s : string) (sep : ascii) :
  String.concat (String sep "") (Go.Split s sep) = s.
Proof.
  induction s as [|a r IH]; simpl; [reflexivity|].
  destruct (Ascii.eqb_spec a sep) as [->|Hne].
  - simpl. destruct (Go.Split r sep) as [|h t] eqn:E.
    + pose proof (split_length r sep) as L. rewrite E in L. simpl in L. lia.
    + simpl in *. by rewrite IH.
  - destruct (Go.Split r sep) as [|h t] eqn:E.
    + pose proof (split_length r sep) as L. rewrite E in L. simpl in L. lia.
    + simpl in *. destruct t; simpl in *; by rewrite <- IH.
Qed.

Context (w : World).

Lemma parse_records_snoc (pre : list string) (r : string) :
  parse_records w (pre ++ [r]) = parse_record w (parse_records w pre) r.
Proof. unfold parse_records. by rewrite fold_left_app. Qed.

Lemma record_fields_pair (n : Z) (r : string) :
  is_pair r = true ->
  exists k v, Go.Trim r Go.dquote = k +:+ "=" +:+ v
              /\ Go.Split (Go.Trim r Go.dquote) eq_sign = [k; v]
              /\ record_fields w n r = (k, v, n).
Proof.
  unfold is_pair. intros H. apply Nat.eqb_eq in H.
  apply split_pair in H as (k & v & E). exists k, v. split; [|split; [done|]].
  - pose proof (split_join (Go.Trim r Go.dquote) eq_sign) as J.
    rewrite E in J. simpl in J. by rewrite <- J.
  - unfold record_fields. fold eq_sign. by rewrite E.
Qed.

Lemma record_fields_unnamed (n : Z) (r : string) :
  is_pair r = false ->
  record_fields w n r
  = ("_" +:+ Go.itoa n, Go.Trim r Go.dquote, Go.int (intSize w) (n + 1)).
Proof.
  unfold is_pair. intros H. apply Nat.eqb_neq in H.
  unfold record_fields. fold eq_sign.
  destruct (Go.Split (Go.Trim r Go.dquote) eq_sign) as [|k [|v [|? ?]]] eqn:E;
    try reflexivity.
  exfalso. apply H. apply split_pair. eauto.
Qed.

(** The counter counts the strings that are not pairs. *)
Lemma unnamed_counter (pre : list string) :
  0 < intSize w ->
  Z.of_nat (length pre) < 2 ^ (intSize w - 1) ->
  p_unnamed (parse_records w pre)
  = Z.of_nat (length (List.filter (fun r => negb (is_pair r)) pre)).
Proof.
  intros Hs. induction pre as [|r pre IH] using rev_ind; intros Hlen.
  - reflexivity.
  - rewrite length_app in Hlen. simpl in Hlen.
    rewrite parse_records_snoc, List.filter_app, length_app, Nat2Z.inj_add.
    rewrite <- IH by lia.
    pose proof (List.filter_length_le (fun r => negb (is_pair r)) pre) as Hf.
    assert (Hb : 0 <= p_unnamed (parse_records w pre) <= Z.of_nat (length pre)).
    { rewrite IH by lia. lia. }
    assert (0 < 2 ^ (intSize w - 1)) by (apply Z.pow_pos_nonneg; lia).
    unfold parse_record. simpl.
    destruct (is_pair r) eqn:P; simpl.
    + destruct (record_fields_pair (p_unnamed (parse_records w pre)) r P)
        as (k & v & _ & _ & ->).
      destruct (String.eqb k (ATTR_TIMESTAMP w));
        [destruct (Go.ParseInt v) as [i [e|]]|]; simpl; lia.
    + rewrite (record_fields_unnamed _ r P).
      assert (W : Go.int (intSize w) (p_unnamed (parse_records w pre) + 1)
                  = p_unnamed (parse_records w pre) + 1)
        by (apply wrap_id; [done|lia]).
      destruct (String.eqb _ (ATTR_TIMESTAMP w));
        [destruct (Go.ParseInt _) as [i [e|]]|]; simpl; lia.
Qed.

(** C9, as the code has it.  Take the TXT strings up to and including [r],
    no more than the platform's int counts, and let [n] be the number of
    strings before [r] that do not contain exactly one equals sign (none or
    several).  If [r], the quotes trimmed, is [k=v] with a single equals
    sign, then [k] and [v] are its fields and the counter stays [n];
    otherwise its fields are the key [_n] and the whole trimmed string, and
    the counter becomes [n+1].  A field pair whose key is not the timestamp
    key is stored in the attributes; under the timestamp key a value that
    parses is taken as unix seconds into the timestamp and one that does
    not is skipped, the attributes unchanged. *)
Theorem txt_strings_parsed (pre : list string) (r : string) :
  0 < intSize w ->
  Z.of_nat (length (pre ++ [r])) < 2 ^ (intSize w - 1) ->
  let n := Z.of_nat (length (List.filter (fun r => negb (is_pair r)) pre)) in
  let before := parse_records w pre in
  let after := parse_records w (pre ++ [r]) in
  let '(key, val, unnamed) := record_fields w (p_unnamed before) r in
  (if is_pair r
   then Go.Trim r Go.dquote = key +:+ "=" +:+ val /\ unnamed = n
   else key = "_" +:+ Go.itoa n /\ val = Go.Trim r Go.dquote /\ unnamed = n + 1)
  /\ p_unnamed after = unnamed
  /\ (key <> ATTR_TIMESTAMP w ->
        p_attrs after = <[key := val]> (p_attrs before)
        /\ p_attrs after !! key = Some val
        /\ p_ts after = p_ts before)
  /\ (key = ATTR_TIMESTAMP w ->
        p_attrs after = p_attrs before
        /\ (forall i, Go.ParseInt val = (i, None) -> p_ts after = Go.Unix i)
        /\ (forall i e, Go.ParseInt val = (i, Some e) -> p_ts after = p_ts before)).
Proof.
  intros Hs Hlen n before after.
  rewrite length_app in Hlen. simpl in Hlen.
  assert (Hn : p_unnamed before = n) by (apply unnamed_counter; [done|lia]).
  assert (Hf : p_unnamed before <= Z.of_nat (length pre)).
  { rewrite Hn. subst n.
    pose proof (List.filter_length_le (fun r => negb (is_pair r)) pre). lia. }
  subst after. rewrite parse_records_snoc. fold before.
  unfold parse_record.
  destruct (record_fields w (p_unnamed before) r) as [[key val] unnamed] eqn:F.
  assert (Hfields :
    if is_pair r
    then Go.Trim r Go.dquote = key +:+ "=" +:+ val /\ unnamed = n
    else key = "_" +:+ Go.itoa n /\ val = Go.Trim r Go.dquote /\ unnamed = n + 1).
  { destruct (is_pair r) eqn:P.
    - destruct (record_fields_pair (p_unnamed before) r P) as (k & v & T & _ & F').
      rewrite F in F'. inversion F'; subst. by rewrite <- Hn.
    - rewrite (record_fields_unnamed _ r P) in F. inversion F; subst.
      rewrite Hn. repeat split; try done.
      apply wrap_id; [done|].
      assert (0 < 2 ^ (intSize w - 1)) by (apply Z.pow_pos_nonneg; lia).
      lia. }
  split; [exact Hfields|].
  destruct (String.eqb_spec key (ATTR_TIMESTAMP w)) as [Ek|Nk].
  - destruct (Go.ParseInt val) as [i [e|]] eqn:PI; simpl.
    + split; [done|]. split; [done|]. intros _.
      split; [done|]. split; intros; [discriminate|done].
    + split; [done|]. split; [done|]. intros _.
      split; [done|]. split; [intros i' Hi; by inversion Hi|intros; discriminate].
  - simpl. split; [done|]. split; [|done]. intros _.
    split; [done|]. split; [by rewrite lookup_insert_eq|done].
Qed.

End txt_strings.

Lemma txt_strings_parsed_witness :
  let w := examples.quiet in
  let after := provider.parse_records w [ "a=b=c"; "owner=x"; "foo" ] in
  provider.p_attrs after !! "_1" = Some "foo" /\ provider.p_unnamed after = 2.
Proof.
  intros w after.
  assert (H1 : 0 < provider.intSize w) by reflexivity.
  assert (H2 : Z.of_nat (length ([ "a=b=c"; "owner=x" ] ++ [ "foo" ]))
               < 2 ^ (provider.intSize w - 1)) by reflexivity.
  pose proof (txt_strings_parsed w [ "a=b=c"; "owner=x" ] "foo" H1 H2) as H.
  change (provider.record_fields w
            (provider.p_unnamed (provider.parse_records w [ "a=b=c"; "owner=x" ]))
            "foo")
    with ("_1", "foo", 2) in H.
  cbv iota beta in H.
  destruct H as (_ & Hc & Ha & _).
  split; [|exact Hc].
  apply Ha. discriminate.
Defined.

(** C9, as stated, fails: a string with two equals signs takes the key [_0],
    so that the first string without any equals sign gets [_1], not [_0]. *)
Lemma unnamed_key_counterexample :
  ~ (forall (w : provider.World) (pre : list string) (r : string),
       no_equals r = true ->
       (provider.record_fields w
          (provider.p_unnamed (provider.parse_records w pre)) r).1.1
       = "_" +:+ Go.itoa (Z.of_nat (length (List.filter no_equals pre)))).
Proof.
  intros H.
  specialize (H examples.quiet [ "a=b=c" ] "foo" eq_refl).
  vm_compute in H. discriminate.
Qed.

(* ===================================================================== *)
(** * The failed lookup of a lock                                          *)
(* ===================================================================== *)

Section lock_refresh.
Import provider.
Context (w : World).

Lemma ModifyStatus_spec (p : ptr) (f : Object -> Object * bool) (st : state) :
  (forall o, oName (f o).1 = oName o) ->
  let st' := (ModifyStatus w p f st).2 in
  updateRequired (deref st' p) = updateRequired (deref st p)
  /\ ObjectName_ (deref st' p) = ObjectName_ (deref st p)
  /\ (forall q, q <> p -> deref st' q = deref st q)
  /\ startupTime st' = startupTime st
  /\ exists evs, events st' = events st ++ evs
                 /\ forall n, ~ In (EvEnqueue n) evs.
Proof.
  intros Hname. unfold ModifyStatus.
  specialize (Hname (Object_ (deref st p))).
  destruct (f (Object_ (deref st p))) as [o' m] eqn:F. simpl in Hname.
  destruct m.
  - destruct (ModifyStatus_err w _) as [e|]; simpl.
    + do 4 (split; [done|]).
      exists [EvModifyLockStatus (oName (Object_ (deref st p))) o'].
      split; [done|]. intros n [H|[]]. discriminate.
    + unfold deref, store. simpl. rewrite lookup_total_insert_eq. simpl.
      split; [done|]. split; [done|].
      split; [intros q Hq; by rewrite lookup_total_insert_ne|]. split; [done|].
      exists [EvModifyLockStatus (oName (Object_ (mem st !!! p))) o'].
      split; [done|]. intros n [H|[]]. discriminate.
  - simpl. do 4 (split; [done|]). exists []. split; [by rewrite app_nil_r|].
    intros n [].
Qed.

Lemma observed_status_name ts ff attrs o :
  oName (observed_status ts ff attrs o).1 = oName o.
Proof.
  unfold observed_status.
  destruct (AssureTimestamp (oStatusTimestamp o) ts).
  destruct (negb (Go.IsZero ff));
    destruct (AssureTimestamp (oFirstFailedDNSLookup o) ff); reflexivity.
Qed.

(** One round of the loop of [UpdateLockStates]: the flag and the queue
    follow what the lookup reported, and nothing else about the entries
    changes but the status of the object at hand. *)
Lemma updateLockState_round (st : state) (p : ptr) :
  let e := deref st p in
  let st' := updateLockState w st p in
  (forall q, q <> p -> deref st' q = deref st q)
  /\ ObjectName_ (deref st' p) = ObjectName_ e
  /\ startupTime st' = startupTime st
  /\ exists evs, events st' = events st ++ evs
       /\ (forall m, In (EvEnqueue m) evs -> m = ObjectName_ e)
       /\ if (lookup w st e).1.1
          then updateRequired (deref st' p) = true
               /\ In (EvEnqueue (ObjectName_ e)) evs
          else updateRequired (deref st' p) = updateRequired e
               /\ forall n, ~ In (EvEnqueue n) evs.
Proof.
  intros e st'. subst st'. unfold updateLockState. fold e.
  destruct (lookup w st e) as [[upd ff] parsed]. simpl.
  pose proof (ModifyStatus_spec p
                (observed_status (p_ts parsed) ff (p_attrs parsed)) st
                (observed_status_name _ _ _)) as (Hu & Hn & Ho & Hs & evs & Hev & Hno).
  fold e in Hu, Hn.
  set (st1 := (ModifyStatus w p (observed_status (p_ts parsed) ff (p_attrs parsed)) st).2)
    in *.
  destruct upd.
  - assert (Hp : deref (store p (set_updateRequired true (deref st1 p)) st1) p
                 = set_updateRequired true (deref st1 p)).
    { unfold deref, store. simpl. by rewrite lookup_total_insert_eq. }
    change (deref (emit ?ev ?s) ?q) with (deref s q). rewrite Hp.
    change (ObjectName_ (set_updateRequired true (deref st1 p)))
      with (ObjectName_ (deref st1 p)).
    rewrite Hn.
    split.
    { intros q Hq. unfold deref, store. simpl.
      rewrite lookup_total_insert_ne by done. by apply Ho. }
    split; [done|]. split; [done|].
    exists (evs ++ [EvEnqueue (ObjectName_ e)]). simpl.
    rewrite Hev, <- app_assoc. split; [done|]. split.
    + intros m Hin. apply in_app_or in Hin as [Hin|[Hin|[]]].
      * by destruct (Hno m).
      * congruence.
    + split; [done|]. apply in_or_app. right. by left.
  - split; [exact Ho|]. split; [exact Hn|]. split; [exact Hs|].
    exists evs. split; [exact Hev|]. split.
    + intros m Hin. by destruct (Hno m).
    + by rewrite Hu.
Qed.

(** What the failed lookup decides. *)
Lemma failed_lookup_decision (st : state) (e : Entry) (err : Err) :
  let o := Object_ e in
  let now := Now w (ObjectName_ e) in
  LookupTXT_res w (DNSName e) = inl err ->
  0 <= oTTL o ->
  2 * (oTTL o * Go.Second) <= Go.MaxInt64 ->
  (forall ff, oFirstFailedDNSLookup o = Some ff ->
     startupTime st < ff ->
     2 * (oTTL o * Go.Second) < now - ff ->
     (lookup w st e).1.1 = true)
  /\ ((oFirstFailedDNSLookup o = None
       \/ exists ff, oFirstFailedDNSLookup o = Some ff /\ ff <= startupTime st) ->
      (lookup w st e).1.1 = bool_decide (State (oStatus o) <> STATE_READY)).
Proof.
  intros o now Hfail Httl0 Httl.
  unfold lookup. rewrite Hfail. fold o now. unfold lookup_failed.
  assert (M1 : Go.mul64 (oTTL o) Go.Second = oTTL o * Go.Second).
  { unfold Go.mul64, Go.int64. apply wrap_id; [lia|].
    unfold Go.MaxInt64, Go.Second in *. lia. }
  assert (M2 : Go.mul64 (oTTL o * Go.Second) 2 = 2 * (oTTL o * Go.Second)).
  { unfold Go.mul64, Go.int64. rewrite wrap_id; [lia|lia|].
    unfold Go.MaxInt64, Go.Second in *. lia. }
  rewrite M1, M2. split.
  - intros ff Hff Hstart Hlong. rewrite Hff. unfold Go.After.
    assert (A : (startupTime st <? ff) = true) by (apply Z.ltb_lt; lia).
    rewrite A. simpl.
    apply Z.ltb_lt. unfold Go.Sub.
    destruct (Go.MaxInt64 <? now - ff) eqn:E1.
    + unfold Go.MaxInt64, Go.Second in *. lia.
    + destruct (now - ff <? Go.MinInt64) eqn:E2; [|lia].
      apply Z.ltb_lt in E2. unfold Go.MinInt64, Go.Second in *. lia.
  - intros [->|(ff & -> & Hle)]; [done|].
    unfold Go.After.
    assert (A : (startupTime st <? ff) = false) by (apply Z.ltb_ge; lia).
    by rewrite A.
Qed.

Lemma lookup_startupTime (st st1 : state) (e : Entry) :
  startupTime st1 = startupTime st -> lookup w st1 e = lookup w st e.
Proof. intros H. unfold lookup, lookup_failed. by rewrite H. Qed.

(** Rounds for other entries leave an entry alone and enqueue only their
    own objects. *)
Lemma rounds_frame (l : list (ObjectName * ptr)) (st : state) :
  let st' := fold_left (fun st np => updateLockState w st np.2) l st in
  startupTime st' = startupTime st
  /\ (forall q, ObjectName_ (deref st' q) = ObjectName_ (deref st q))
  /\ (forall q, ~ In q l.*2 -> deref st' q = deref st q)
  /\ exists evs, events st' = events st ++ evs
       /\ forall m, In (EvEnqueue m) evs ->
            exists q, In q l.*2 /\ m = ObjectName_ (deref st q).
Proof.
  revert st. induction l as [|[n q0] l IH]; intros st; simpl.
  - do 3 (split; [done|]). exists []. split; [by rewrite app_nil_r|].
    intros m [].
  - destruct (updateLockState_round st q0) as (Ro & Rn & Rs & evs1 & Re & Rq & _).
    destruct (IH (updateLockState w st q0)) as (Is & In_ & Io & evs2 & Ie & Iq).
    split; [by rewrite Is|]. split.
    { intros q. rewrite In_. destruct (decide (q = q0)) as [->|Hq]; [done|].
      by rewrite Ro. }
    split.
    { intros q Hq. rewrite Io by tauto. apply Ro. intros ->. tauto. }
    exists (evs1 ++ evs2). split; [by rewrite Ie, Re, app_assoc|].
    intros m Hin. apply in_app_or in Hin as [Hin|Hin].
    + exists q0. split; [by left|]. by apply Rq.
    + destruct (Iq m Hin) as (q & Hq & ->). exists q. split; [by right|].
      destruct (decide (q = q0)) as [->|Hne]; [done|]. by rewrite Ro.
Qed.

(** The entries collected for the refresh are lock entries, bound under
    their object names. *)
Lemma lock_entries_spec (st : state) (n : ObjectName) (p : ptr) :
  lock_entries w st !! n = Some p ->
  ObjectName_ (deref st p) = n /\ Kind_ (deref st p) = DNSLockKind.
Proof.
  unfold lock_entries.
  assert (G : forall (l : list (ObjectName * ptr)) (acc : gmap ObjectName ptr),
    (forall n p, acc !! n = Some p ->
       ObjectName_ (deref st p) = n /\ Kind_ (deref st p) = DNSLockKind) ->
    forall n p,
      fold_left
        (fun (acc : gmap ObjectName ptr) (np : ObjectName * ptr) =>
           if decide (Kind_ (deref st np.2) = DNSLockKind)
           then Entries_AddEntry acc np.2 (ObjectName_ (deref st np.2))
           else acc) l acc !! n = Some p ->
      ObjectName_ (deref st p) = n /\ Kind_ (deref st p) = DNSLockKind).
  { induction l as [|[n0 q] l IH]; intros acc Hacc n1 p1; simpl; [apply Hacc|].
    apply IH. destruct (decide _) as [Hk|]; [|done].
    intros n2 p2. unfold Entries_AddEntry. rewrite lookup_insert.
    destruct (decide _) as [<-|]; [|apply Hacc].
    intros H. inversion H; subst. done. }
  apply G. intros n1 p1 H. by rewrite lookup_empty in H.
Qed.

(** C8, as the code has it.  Let [p] be one of the lock entries that
    [UpdateLockStates] collects, let its TXT lookup fail, and let its TTL be
    one whose doubled duration fits in an int64 of nanoseconds.  If a
    FirstFailedDNSLookup is recorded after the start of the process and
    lies more than twice the TTL before now, the entry's updateRequired
    flag is set and the object is enqueued.  If none is recorded, or the
    recorded one is not after the start of the process, the failure counts
    as a first one: the flag is set and the object enqueued exactly when
    the status state is not ready (otherwise the flag is left as it was
    and the object is not enqueued). *)
Theorem lock_lookup_failure (st : state) (n : ObjectName) (p : ptr) (err : Err) :
  let e := deref st p in
  let o := Object_ e in
  let now := Now w (ObjectName_ e) in
  let st' := UpdateLockStates w st in
  range_ok w ->
  lock_entries w st !! n = Some p ->
  LookupTXT_res w (DNSName e) = inl err ->
  0 <= oTTL o ->
  2 * (oTTL o * Go.Second) <= Go.MaxInt64 ->
  exists evs, events st' = events st ++ evs
    /\ (forall ff, oFirstFailedDNSLookup o = Some ff ->
          startupTime st < ff ->
          2 * (oTTL o * Go.Second) < now - ff ->
          updateRequired (deref st' p) = true
          /\ In (EvEnqueue (ObjectName_ e)) evs)
    /\ ((oFirstFailedDNSLookup o = None
         \/ exists ff, oFirstFailedDNSLookup o = Some ff /\ ff <= startupTime st) ->
        (State (oStatus o) <> STATE_READY ->
           updateRequired (deref st' p) = true
           /\ In (EvEnqueue (ObjectName_ e)) evs)
        /\ (State (oStatus o) = STATE_READY ->
              updateRequired (deref st' p) = updateRequired e
              /\ ~ In (EvEnqueue (ObjectName_ e)) evs)).
Proof.
  intros e o now st' Hrange Hp Hfail Httl0 Httl.
  set (m := lock_entries w st) in *.
  set (l := range_entries w m).
  assert (Hperm : l ≡ₚ map_to_list m) by apply Hrange.
  assert (Hin : (n, p) ∈ l) by (rewrite Hperm; by apply elem_of_map_to_list).
  assert (Hkeys : forall n' q, (n', q) ∈ l -> ObjectName_ (deref st q) = n').
  { intros n' q H. rewrite Hperm in H. apply elem_of_map_to_list in H.
    by apply lock_entries_spec in H as [? _]. }
  assert (Hnodup : NoDup l.*2).
  { apply NoDup_fmap_2_strong.
    - intros [n1 q1] [n2 q2] H1 H2 Heq. simpl in Heq. subst q2.
      by rewrite <- (Hkeys _ _ H1), <- (Hkeys _ _ H2).
    - rewrite Hperm. apply NoDup_map_to_list. }
  apply list_elem_of_split in Hin as (l1 & l2 & Hl).
  rewrite Hl, fmap_app, fmap_cons in Hnodup. simpl in Hnodup.
  apply NoDup_app in Hnodup as (_ & Hdisj & Hnd2).
  apply NoDup_cons in Hnd2 as [Hnot2 _].
  assert (Hnot1 : ~ In p l1.*2).
  { intros H. apply list_elem_of_In in H. apply (Hdisj p H). by left. }
  assert (Hnot2' : ~ In p l2.*2) by (by rewrite <- list_elem_of_In).
  (* names of the other entries *)
  assert (Hnames : forall q, In q (l1.*2 ++ l2.*2) ->
                     ObjectName_ (deref st q) <> ObjectName_ e).
  { intros q Hq Heq.
    assert (Hqp : q <> p).
    { intros ->. apply in_app_or in Hq as [?|?]; tauto. }
    assert (exists n', (n', q) ∈ l) as [n' Hn'].
    { rewrite Hl. apply in_app_or in Hq as [Hq|Hq];
        apply list_elem_of_In, list_elem_of_fmap in Hq as ([n' q'] & -> & Hq);
        exists n'; set_solver. }
    assert (Hnp : (n, p) ∈ l) by (rewrite Hl; set_solver).
    pose proof (Hkeys _ _ Hn') as K1. pose proof (Hkeys _ _ Hnp) as K2.
    fold e in K2. rewrite Heq, K2 in K1. subst n'.
    rewrite Hperm in Hn', Hnp. apply elem_of_map_to_list in Hn', Hnp.
    congruence. }
  (* the three parts of the run *)
  subst st'. unfold UpdateLockStates. fold m. fold l. rewrite Hl.
  rewrite fold_left_app. simpl.
  set (st1 := fold_left (fun st np => updateLockState w st np.2) l1 st).
  destruct (rounds_frame l1 st) as (S1 & N1 & O1 & evs1 & E1 & Q1).
  fold st1 in S1, N1, O1, E1.
  destruct (updateLockState_round st1 p) as (_ & Rn & Rs & evsp & Ep & Qp & Rflag).
  set (st2 := updateLockState w st1 p) in *.
  destruct (rounds_frame l2 st2) as (S2 & N2 & O2 & evs2 & E2 & Q2).
  set (st3 := fold_left (fun st np => updateLockState w st np.2) l2 st2) in *.
  assert (He1 : deref st1 p = e) by (by apply O1).
  rewrite He1 in Rn, Rflag, Qp.
  rewrite (lookup_startupTime st st1 e S1) in Rflag.
  assert (Hp3 : deref st3 p = deref st2 p) by (by apply O2).
  rewrite Hp3.
  assert (Hno1 : ~ In (EvEnqueue (ObjectName_ e)) evs1).
  { intros H. destruct (Q1 _ H) as (q & Hq & Hn).
    apply (Hnames q); [apply in_or_app; by left|done]. }
  assert (Hno2 : ~ In (EvEnqueue (ObjectName_ e)) evs2).
  { intros H. destruct (Q2 _ H) as (q & Hq & Hn).
    apply (Hnames q); [apply in_or_app; by right|].
    rewrite Hn. destruct (decide (q = p)) as [->|Hqp]; [tauto|].
    change (deref st2 q) with (deref (updateLockState w st1 p) q).
    destruct (updateLockState_round st1 p) as (Ro & _).
    rewrite (Ro q Hqp). by rewrite N1. }
  destruct (failed_lookup_decision st e err Hfail Httl0 Httl) as [Dlate Dfirst].
  fold o now in Dlate, Dfirst.
  exists (evs1 ++ evsp ++ evs2).
  split; [by rewrite E2, Ep, E1, <- !app_assoc|].
  split.
  - intros ff Hff Hstart Hlong. rewrite (Dlate ff Hff Hstart Hlong) in Rflag.
    destruct Rflag as [Hu Hq]. split; [exact Hu|].
    apply in_or_app. right. apply in_or_app. by left.
  - intros Hfirst. rewrite (Dfirst Hfirst) in Rflag. split.
    + intros Hs. rewrite bool_decide_eq_true_2 in Rflag by done.
      destruct Rflag as [Hu Hq]. split; [exact Hu|].
      apply in_or_app. right. apply in_or_app. by left.
    + intros Hs. rewrite bool_decide_eq_false_2 in Rflag by (by intros ?).
      destruct Rflag as [Hu Hq]. split; [exact Hu|].
      intros H. apply in_app_or in H as [H|H]; [tauto|].
      apply in_app_or in H as [H|H]; [by apply (Hq _ H)|tauto].
Qed.

End lock_refresh.

Lemma lock_lookup_failure_witness :
  let w := examples.world (inl "no such host") (inr None) None (1000 * Go.Second) in
  let o := examples.lock_object "default/lock" "A" 100 provider.STATE_STALE
             (Some (10 * Go.Second)) false in
  let st := examples.lock_state o false 0 in
  let st' := provider.UpdateLockStates w st in
  provider.updateRequired (provider.deref st' 1%positive) = true
  /\ In (provider.EvEnqueue "default/lock") (provider.events st').
Proof.
  intros w o st st'.
  assert (H0 : provider.range_ok w) by (intros m; reflexivity).
  assert (Hp : provider.lock_entries w st !! "default/lock" = Some 1%positive)
    by (vm_compute; reflexivity).
  assert (H1 : provider.LookupTXT_res w (provider.DNSName (provider.deref st 1%positive))
               = inl "no such host") by reflexivity.
  assert (H2 : 0 <= provider.oTTL (provider.Object_ (provider.deref st 1%positive)))
    by (vm_compute; discriminate).
  assert (H3 : 2 * (provider.oTTL (provider.Object_ (provider.deref st 1%positive))
                    * Go.Second) <= Go.MaxInt64)
    by (vm_compute; discriminate).
  destruct (lock_lookup_failure w st "default/lock" 1%positive "no such host"
              H0 Hp H1 H2 H3)
    as (evs & Hev & Hlate & _).
  destruct (Hlate (10 * Go.Second)) as [Hu Hin]; [reflexivity..|].
  split; [exact Hu|].
  fold st' in Hev. rewrite Hev. apply in_or_app. by right.
Defined.

(** C8, as stated, fails: a FirstFailedDNSLookup recorded before the start of
    the process is not used, however old, and with the state ready the flag
    stays unset. *)
Lemma stale_first_failure_counterexample :
  ~ (forall (w : provider.World) (st : provider.state) (n : provider.ObjectName)
            (p : provider.ptr) (err : provider.Err) (ff : Go.Time),
       let o := provider.Object_ (provider.deref st p) in
       provider.range_ok w ->
       provider.lock_entries w st !! n = Some p ->
       provider.LookupTXT_res w (provider.DNSName (provider.deref st p)) = inl err ->
       provider.oFirstFailedDNSLookup o = Some ff ->
       2 * (provider.oTTL o * Go.Second)
         < provider.Now w (provider.ObjectName_ (provider.deref st p)) - ff ->
       provider.updateRequired (provider.deref (provider.UpdateLockStates w st) p)
       = true).
Proof.
  intros H.
  specialize (H (examples.world (inl "no such host") (inr None) None (1000 * Go.Second))
                (examples.lock_state
                   (examples.lock_object "default/lock" "A" 100 provider.STATE_READY
                      (Some (10 * Go.Second)) false)
                   false (100 * Go.Second))
                "default/lock" 1%positive "no such host" (10 * Go.Second)
                ltac:(intros m; reflexivity) ltac:(vm_compute; reflexivity)
                eq_refl eq_refl eq_refl).
  vm_compute in H. discriminate.
Qed.

(* ===================================================================== *)
(** * The lock protocol                                                    *)
(* ===================================================================== *)

Section lock_protocol.
Import provider.
Context (w : World).

Lemma length_zero_nil {A} (l : list A) :
  (Z.of_nat (length l) =? 0) = true -> l = [].
Proof. destruct l; [done|]. simpl. discriminate. Qed.

Lemma length_nonzero {A} (l : list A) :
  l <> [] -> negb (Z.of_nat (length l) =? 0) = true.
Proof.
  destruct l; [done|]. intros _. reflexivity.
Qed.

(** C7, as the code has it.  When the observed TXT record set is not empty
    and its lock id attribute differs from the lock's own id, the only
    thing [checkAndUpdateLock] sends is the status update to stale with the
    mismatch message, so no record set is written; it returns success when
    that update succeeds and a delay with its error otherwise. *)
Theorem lock_id_mismatch (st : state) (entry : ptr) (premise : EntryPremise)
    (prov : DNSProvider) (rs : direct.RecordSet) (lckDNS : string) :
  let e := deref st entry in
  let lckOwn := StringValue (oLockId (Object_ e)) in
  let msg := mismatch_message lckOwn lckDNS in
  let st' := emit (EvUpdateStatus (ObjectName_ e) STATE_STALE msg) st in
  updateRequired e = true ->
  Kind_ e = DNSLockKind ->
  provider premise = Some prov ->
  GetRecordSet_res w prov (zones st !! ZoneId e) (DNSName e) = inr (Some rs) ->
  rs <> [] ->
  direct.GetAttr rs (ATTR_LOCKID w) = Some lckDNS ->
  lckDNS <> lckOwn ->
  checkAndUpdateLock w st entry premise
  = match UpdateStatus_err w (ObjectName_ e) STATE_STALE msg with
    | None => Ret Succeeded st'
    | Some err => Ret (Delay (Some err)) st'
    end.
Proof.
  intros e lckOwn msg st' Hupd Hkind Hprov Hget Hne Hlck Hdiff.
  unfold checkAndUpdateLock. fold e. rewrite Hupd, Hprov. simpl.
  rewrite Hget. simpl. rewrite (length_nonzero rs Hne), Hlck.
  destruct (decide (Kind_ e = DNSLockKind)) as [_|]; [|done].
  fold lckOwn.
  destruct (String.eqb_spec lckOwn lckDNS) as [E|_]; [by subst|]. simpl.
  unfold UpdateStatus. fold msg. fold (mismatch_message lckOwn lckDNS). fold msg.
  by destruct (UpdateStatus_err w (ObjectName_ e) STATE_STALE msg).
Qed.

(** C3, as the code has it.  When the timestamp attribute of the observed
    record set parses to a time later than the lock's own timestamp,
    [checkAndUpdateLock] does not call CreateOrUpdateRecordSet, whatever
    else happens.  With the lock id attribute read as [lckDNS], it returns
    success, except when [lckDNS] differs from the lock's own id and the
    write of the stale status fails: then it returns a delay with that
    error. *)
Theorem newer_lock_not_overwritten (st : state) (entry : ptr)
    (premise : EntryPremise) (prov : DNSProvider)
    (ors : option direct.RecordSet) (value : string) (i : Z) :
  let e := deref st entry in
  let lckOwn := StringValue (oLockId (Object_ e)) in
  let rs := default [] ors in
  let r := checkAndUpdateLock w st entry premise in
  provider premise = Some prov ->
  GetRecordSet_res w prov (zones st !! ZoneId e) (DNSName e) = inr ors ->
  direct.GetAttr rs (ATTR_TIMESTAMP w) = Some value ->
  Go.ParseInt value = (i, None) ->
  Go.Before (oTimestamp (Object_ e)) (Go.Unix i) = true ->
  (exists evs, events (outcome_state r) = events st ++ evs
               /\ forall z x, ~ In (EvCreateOrUpdateRecordSet z x) evs)
  /\ (forall lckDNS,
        Kind_ e = DNSLockKind ->
        direct.GetAttr rs (ATTR_LOCKID w) = Some lckDNS ->
        match UpdateStatus_err w (ObjectName_ e) STATE_STALE
                (mismatch_message lckOwn lckDNS) with
        | Some err =>
            if updateRequired e && negb (String.eqb lckOwn lckDNS)
            then r = Ret (Delay (Some err)) (outcome_state r)
            else r = Ret Succeeded (outcome_state r)
        | None => r = Ret Succeeded (outcome_state r)
        end).
Proof.
  intros e lckOwn rs r Hprov Hget Hts Hparse Hbefore.
  assert (Hrs : negb (Z.of_nat (length rs) =? 0) = true).
  { destruct (Z.of_nat (length rs) =? 0) eqn:E; [|done].
    apply length_zero_nil in E. rewrite E in Hts. simpl in Hts.
    inversion Hts; subst. vm_compute in Hparse. discriminate. }
  subst r. unfold checkAndUpdateLock. fold e.
  destruct (updateRequired e); simpl.
  2:{ split.
      - exists []. split; [by rewrite app_nil_r|]. by intros z x [].
      - intros lckDNS _ _. by destruct (UpdateStatus_err _ _ _ _). }
  rewrite Hprov, Hget. fold rs. rewrite Hrs.
  destruct (direct.GetAttr rs (ATTR_LOCKID w)) as [lckDNS|] eqn:Hlck; simpl.
  2:{ split; [|intros; discriminate].
      exists []. split; [by rewrite app_nil_r|]. by intros z x []. }
  destruct (decide (Kind_ e = DNSLockKind)) as [Hkind|Hkind]; simpl.
  2:{ split; [|intros; contradiction].
      exists []. split; [by rewrite app_nil_r|]. by intros z x []. }
  fold lckOwn.
  destruct (String.eqb lckOwn lckDNS) eqn:Heq; simpl.
  - rewrite Hts, Hparse, Hbefore. simpl. split.
    + exists []. split; [by rewrite app_nil_r|]. by intros z x [].
    + intros l _ Hl. inversion Hl; subst l. rewrite Heq.
      by destruct (UpdateStatus_err _ _ _ _).
  - unfold UpdateStatus. fold (mismatch_message lckOwn lckDNS).
    destruct (UpdateStatus_err w (ObjectName_ e) STATE_STALE
                (mismatch_message lckOwn lckDNS)) as [err|] eqn:Herr; simpl.
    + split.
      * eexists [_]. split; [reflexivity|]. intros z x [H|[]]. discriminate.
      * intros l _ Hl. inversion Hl; subst l. by rewrite Herr, Heq.
    + split.
      * eexists [_]. split; [reflexivity|]. intros z x [H|[]]. discriminate.
      * intros l _ Hl. inversion Hl; subst l. by rewrite Herr.
Qed.


Lemma prefix_length (p v : string) :
  String.prefix p v = true ->
  (String.length p <= String.length v)%nat
  /\ (String.length p = String.length v -> v = p).
Proof.
  revert v. induction p as [|a p IH]; intros v H.
  - split; [simpl; lia|]. destruct v; [done|]. simpl. lia.
  - destruct v as [|b v]; [done|]. simpl in H.
    destruct (ascii_dec a b) as [->|]; [|done].
    destruct (IH v H) as [Hle Heq]. split; [simpl; lia|].
    simpl. intros E. f_equal. apply Heq. lia.
Qed.

Lemma last_byte_prefix (name : string) :
  last_byte (direct.newAttrKeyPrefix name) = Some "="%char.
Proof.
  unfold direct.newAttrKeyPrefix.
  assert (H : forall s a, last_byte (String a (s +:+ "=")) = Some "="%char).
  { induction s as [|b s IH]; intros a; [reflexivity|].
    change (last_byte (String a (String b s +:+ "=")))
      with (last_byte (String b (s +:+ "="))).
    apply (IH b). }
  apply H.
Qed.

(** On record values in the provider's form the attribute lookup
    returns. *)
Lemma GetAttr_quoted (rs : direct.RecordSet) (name : string) :
  (forall r, In r rs -> quoted_value r) ->
  is_Some (direct.GetAttr rs name).
Proof.
  induction rs as [|r rs IH]; intros Hq; simpl; [by eexists|].
  destruct (Go.HasPrefix (direct.GetValue r) (direct.newAttrKeyPrefix name)) eqn:P.
  - unfold Go.HasPrefix in P. apply prefix_length in P as [Hle Heq].
    assert (Hlt : (String.length (direct.newAttrKeyPrefix name)
                   < String.length (direct.GetValue r))%nat).
    { destruct (decide (String.length (direct.newAttrKeyPrefix name)
                        = String.length (direct.GetValue r))) as [E|]; [|lia].
      pose proof (Hq r (or_introl eq_refl)) as Q. unfold quoted_value in Q.
      rewrite (Heq E), last_byte_prefix in Q. discriminate. }
    unfold Go.slice, Go.len.
    assert (C : (0 <=? Z.of_nat (String.length (direct.newAttrKeyPrefix name)))
                && (Z.of_nat (String.length (direct.newAttrKeyPrefix name))
                    <=? Z.of_nat (String.length (direct.GetValue r)) - 1)
                && (Z.of_nat (String.length (direct.GetValue r)) - 1
                    <=? Z.of_nat (String.length (direct.GetValue r))) = true).
    { rewrite !andb_true_iff, !Z.leb_le. lia. }
    rewrite C. by eexists.
  - apply IH. intros r' Hr'. apply Hq. by right.
Qed.

(** The attribute lookup does not return on a value that is the bare
    prefix: the slice bounds are out of range. *)
Lemma GetAttr_bare_prefix (name : string) (r : direct.plainRecord)
    (rest : direct.RecordSet) :
  direct.GetValue r = direct.newAttrKeyPrefix name ->
  direct.GetAttr (r :: rest) name = None.
Proof.
  intros Hv. simpl. rewrite Hv. unfold Go.HasPrefix.
  assert (P : forall s, String.prefix s s = true).
  { induction s as [|a s IH]; simpl; [done|].
    destruct (ascii_dec a a); [done|congruence]. }
  rewrite P. unfold Go.slice.
  assert (L : (Go.len (direct.newAttrKeyPrefix name)
               <=? Go.len (direct.newAttrKeyPrefix name) - 1) = false)
    by (apply Z.leb_gt; lia).
  rewrite L. by rewrite andb_false_r.
Qed.

End lock_protocol.

Lemma lock_id_mismatch_witness :
  let w := examples.world (inr []) (examples.held_lock "B" "50") None 0 in
  let o := examples.lock_object "default/lock" "A" 100 provider.STATE_READY None false in
  let st := examples.lock_state o true 0 in
  provider.checkAndUpdateLock w st 1%positive examples.mock_premise
  = provider.Ret provider.Succeeded
      (provider.emit (provider.EvUpdateStatus "default/lock" provider.STATE_STALE
                        (mismatch_message "A" "B")) st).
Proof.
  intros w o st.
  apply (lock_id_mismatch w st 1%positive examples.mock_premise examples.mock
           [ examples.txt "lockid=B"; examples.txt "ts=50" ] "B");
    try reflexivity; discriminate.
Defined.

(** C7, as stated, fails: when the write of the stale status fails, the
    function returns a delay, not success. *)
Lemma lock_id_mismatch_counterexample :
  ~ (forall (w : provider.World) (st : provider.state) (entry : provider.ptr)
            (premise : provider.EntryPremise) (prov : provider.DNSProvider)
            (rs : direct.RecordSet) (lckDNS : string),
       let e := provider.deref st entry in
       provider.updateRequired e = true ->
       provider.Kind_ e = provider.DNSLockKind ->
       provider.provider premise = Some prov ->
       provider.GetRecordSet_res w prov (provider.zones st !! provider.ZoneId e)
         (provider.DNSName e) = inr (Some rs) ->
       rs <> [] ->
       direct.GetAttr rs (provider.ATTR_LOCKID w) = Some lckDNS ->
       lckDNS <> "" ->
       lckDNS <> provider.StringValue (provider.oLockId (provider.Object_ e)) ->
       exists st', provider.checkAndUpdateLock w st entry premise
                   = provider.Ret provider.Succeeded st').
Proof.
  intros H.
  specialize (H (examples.world (inr []) (examples.held_lock "B" "50") (Some "conflict") 0)
                (examples.lock_state
                   (examples.lock_object "default/lock" "A" 100 provider.STATE_READY
                      None false) true 0)
                1%positive examples.mock_premise examples.mock
                [ examples.txt "lockid=B"; examples.txt "ts=50" ] "B"
                eq_refl eq_refl eq_refl eq_refl
                ltac:(discriminate) eq_refl ltac:(discriminate) ltac:(discriminate)).
  destruct H as [st' Hst']. vm_compute in Hst'. discriminate.
Qed.

Lemma newer_lock_not_overwritten_witness :
  let w := examples.world (inr []) (examples.held_lock "A" "200") None 0 in
  let o := examples.lock_object "default/lock" "A" 100 provider.STATE_READY None false in
  let st := examples.lock_state o true 0 in
  let r := provider.checkAndUpdateLock w st 1%positive examples.mock_premise in
  r = provider.Ret provider.Succeeded (provider.outcome_state r).
Proof.
  intros w o st r.
  assert (H1 : provider.provider examples.mock_premise = Some examples.mock)
    by reflexivity.
  assert (H2 : provider.GetRecordSet_res w examples.mock
                 (provider.zones st !! provider.ZoneId (provider.deref st 1%positive))
                 (provider.DNSName (provider.deref st 1%positive))
               = examples.held_lock "A" "200") by reflexivity.
  assert (H3 : direct.GetAttr
                 (default [] (Some [ examples.txt "lockid=A"; examples.txt "ts=200" ]))
                 (provider.ATTR_TIMESTAMP w) = Some "200") by reflexivity.
  assert (H4 : Go.ParseInt "200" = (200, None)) by reflexivity.
  assert (H5 : Go.Before
                 (provider.oTimestamp (provider.Object_ (provider.deref st 1%positive)))
                 (Go.Unix 200) = true) by reflexivity.
  destruct (newer_lock_not_overwritten w st 1%positive examples.mock_premise
              examples.mock _ "200" 200 H1 H2 H3 H4 H5) as [_ Hret].
  exact (Hret "A" eq_refl eq_refl).
Defined.

(** C3, as stated, fails: a record set with a later timestamp and another
    lock id makes the function write the stale status first, and when that
    write fails it returns a delay (still without writing a record set). *)
Lemma newer_lock_counterexample :
  ~ (forall (w : provider.World) (st : provider.state) (entry : provider.ptr)
            (premise : provider.EntryPremise) (prov : provider.DNSProvider)
            (rs : direct.RecordSet) (lckDNS value : string) (i : Z),
       let e := provider.deref st entry in
       provider.updateRequired e = true ->
       provider.Kind_ e = provider.DNSLockKind ->
       provider.provider premise = Some prov ->
       provider.GetRecordSet_res w prov (provider.zones st !! provider.ZoneId e)
         (provider.DNSName e) = inr (Some rs) ->
       direct.GetAttr rs (provider.ATTR_LOCKID w) = Some lckDNS ->
       direct.GetAttr rs (provider.ATTR_TIMESTAMP w) = Some value ->
       Go.ParseInt value = (i, None) ->
       Go.Before (provider.oTimestamp (provider.Object_ e)) (Go.Unix i) = true ->
       exists st', provider.checkAndUpdateLock w st entry premise
                   = provider.Ret provider.Succeeded st').
Proof.
  intros H.
  specialize (H (examples.world (inr []) (examples.held_lock "B" "200") (Some "conflict") 0)
                (examples.lock_state
                   (examples.lock_object "default/lock" "A" 100 provider.STATE_READY
                      None false) true 0)
                1%positive examples.mock_premise examples.mock
                [ examples.txt "lockid=B"; examples.txt "ts=200" ] "B" "200" 200
                eq_refl eq_refl eq_refl eq_refl eq_refl eq_refl eq_refl eq_refl).
  destruct H as [st' Hst']. vm_compute in Hst'. discriminate.
Qed.


(* ===================================================================== *)
(** * The premise check of the reconcile handler                           *)
(* ===================================================================== *)

Section premise_check.
Import provider.
Context (w : World).

Lemma Match_refl (p : EntryPremise) : Match p p = true.
Proof.
  unfold Match. rewrite !String.eqb_refl, bool_decide_eq_true_2 by done.
  by destruct (bool_decide (fallback p <> None)).
Qed.

(** C5.  In a run of [HandleUpdateEntry] for an object that is not being
    deleted and for which [AddEntryVersion] returns nil or an entry that is
    not a lock, the premise is computed again after [AddEntryVersion], from
    the providers as read at that point; if it does not match the premise
    computed at entry, the handler returns the Repeat status, in the state
    that a run without a change of the providers reaches; if it matches,
    the result is the one of such a run.  Two
    premises match when their ptype, zoneid, provider object name and
    presence of a fallback agree. *)
Theorem premise_mismatch_repeats (reg reg' : Registry) (st : state) (op : string)
    (obj : Object) :
  let h := HandleUpdateEntry w reg reg' st op obj in
  let unchanged := HandleUpdateEntry w reg reg st op obj in
  let p := (EntryPremise_ reg obj).1 in
  let check := (EntryPremise_ reg' obj).1 in
  oDeleting obj = false ->
  lock_run w reg st op obj = false ->
  h_premise h = p
  /\ h_check h = Some check
  /\ (Match check p = false ->
      h_result h = Ret Repeat (outcome_state (h_result unchanged)))
  /\ (Match check p = true -> h_result h = h_result unchanged).
Proof.
  intros h unchanged p check Hdel Hlock.
  subst h unchanged p check. revert Hlock.
  unfold lock_run, added_entry, HandleUpdateEntry.
  destruct (EntryPremise_ reg obj) as [p err]; cbn [fst snd].
  destruct (Setup w _ p op _ _) as [v status_].
  destruct (AddEntryVersion w st v status_) as [[new status1] st1].
  rewrite Hdel. cbn [negb].
  pose proof (Match_refl p) as Hpp.
  assert (Hcheck : forall s1 s2,
    (Match (EntryPremise_ reg' obj).1 p = false ->
     deferred (oKind obj, oName obj)
       (Ret (if negb (Match (EntryPremise_ reg' obj).1 p) then Repeat else s1) s2)
     = Ret Repeat
         (outcome_state
            (deferred (oKind obj, oName obj)
               (Ret (if negb (Match p p) then Repeat else s1) s2))))
    /\ (Match (EntryPremise_ reg' obj).1 p = true ->
        deferred (oKind obj, oName obj)
          (Ret (if negb (Match (EntryPremise_ reg' obj).1 p) then Repeat else s1) s2)
        = deferred (oKind obj, oName obj)
            (Ret (if negb (Match p p) then Repeat else s1) s2))).
  { intros s1 s2. rewrite Hpp. split; intros ->; reflexivity. }
  destruct new as [n|].
  - destruct (decide (Kind_ (deref st1 n) = DNSLockKind)) as [Hk|Hk].
    + intros Hl. by rewrite bool_decide_eq_true_2 in Hl.
    + intros _. cbn [h_premise h_check h_result].
      split; [done|]. split; [done|]. apply Hcheck.
  - intros _. cbn [h_premise h_check h_result].
    split; [done|]. split; [done|]. apply Hcheck.
Qed.

(** The runs without a second premise: objects being deleted, and lock
    entries, which are handed to the lock protocol. *)
Lemma premise_check_skipped (reg reg' : Registry) (st : state) (op : string)
    (obj : Object) :
  oDeleting obj = true ->
  h_check (HandleUpdateEntry w reg reg' st op obj) = None.
Proof.
  intros Hdel. unfold HandleUpdateEntry.
  destruct (EntryPremise_ reg obj) as [p err]; simpl.
  destruct (Setup w _ p op _ _) as [v status_].
  destruct (AddEntryVersion w st v status_) as [[new status1] st1].
  rewrite Hdel. simpl.
  destruct new as [n|]; [|done].
  by destruct (decide (Kind_ (deref st1 n) = DNSLockKind)).
Qed.

(** Such a run does not read the providers again: its result is the one of
    a run in which they have not changed.  The same holds for a lock run. *)
Lemma premise_check_unread (reg reg' : Registry) (st : state) (op : string)
    (obj : Object) :
  oDeleting obj = true \/ lock_run w reg st op obj = true ->
  h_check (HandleUpdateEntry w reg reg' st op obj) = None
  /\ h_result (HandleUpdateEntry w reg reg' st op obj)
     = h_result (HandleUpdateEntry w reg reg st op obj).
Proof.
  unfold lock_run, added_entry, HandleUpdateEntry.
  destruct (EntryPremise_ reg obj) as [p err]; cbn [fst snd].
  destruct (Setup w _ p op _ _) as [v status_].
  destruct (AddEntryVersion w st v status_) as [[new status1] st1].
  intros [Hdel|Hlock].
  - rewrite Hdel. cbn [negb].
    destruct new as [n|]; [|done].
    by destruct (decide (Kind_ (deref st1 n) = DNSLockKind)).
  - destruct new as [n|]; [|done].
    destruct (decide (Kind_ (deref st1 n) = DNSLockKind)); [done|].
    by rewrite bool_decide_eq_false_2 in Hlock.
Qed.

End premise_check.

(* ===================================================================== *)
(** * The order of the duplicate arbiter                                   *)
(* ===================================================================== *)

Section before_order.
Import provider.

Lemma ltb_lt (a b : string) :
  String.ltb a b = true <-> OrderedTypeEx.String_as_OT.lt a b.
Proof.
  unfold String.ltb. rewrite <- OrderedTypeEx.String_as_OT.cmp_lt.
  unfold OrderedTypeEx.String_as_OT.cmp.
  destruct (String.compare a b); split; congruence.
Qed.

Lemma ltb_trans (a b c : string) :
  String.ltb a b = true -> String.ltb b c = true -> String.ltb a c = true.
Proof.
  rewrite !ltb_lt. apply OrderedTypeEx.String_as_OT.lt_trans.
Qed.

Lemma ltb_irrefl (a : string) : String.ltb a a = false.
Proof.
  destruct (String.ltb a a) eqn:E; [|done].
  apply ltb_lt in E. by apply OrderedTypeEx.String_as_OT.lt_not_eq in E.
Qed.

Lemma ltb_total (a b : string) :
  a <> b -> String.ltb a b = true \/ String.ltb b a = true.
Proof.
  intros Hne. unfold String.ltb.
  rewrite (String.compare_antisym b a).
  destruct (String.compare a b) eqn:C; simpl; auto.
  apply String.compare_eq_iff in C. contradiction.
Qed.

Lemma Before_irrefl (a : Entry) : Before a a = false.
Proof.
  unfold Before, Go.Equal. rewrite Z.eqb_refl. apply ltb_irrefl.
Qed.

Lemma Before_trans (a b c : Entry) :
  Before a b = true -> Before b c = true -> Before a c = true.
Proof.
  unfold Before, Go.Equal, Go.Before.
  destruct (Z.eqb_spec (CreationTimestamp a) (CreationTimestamp b)) as [E1|N1];
    destruct (Z.eqb_spec (CreationTimestamp b) (CreationTimestamp c)) as [E2|N2];
    destruct (Z.eqb_spec (CreationTimestamp a) (CreationTimestamp c)) as [E3|N3];
    rewrite ?Z.ltb_lt; try lia; try congruence.
  apply ltb_trans.
Qed.

Lemma Before_asym (a b : Entry) : Before a b = true -> Before b a = false.
Proof.
  intros H. destruct (Before b a) eqn:E; [|done].
  pose proof (Before_trans a b a H E) as C. by rewrite Before_irrefl in C.
Qed.

(** Entries of different object names are ordered one way or the
    other. *)
Lemma Before_total (a b : Entry) :
  ObjectName_ a <> ObjectName_ b -> Before a b = true \/ Before b a = true.
Proof.
  intros Hne. unfold Before, Go.Equal, Go.Before.
  rewrite (Z.eqb_sym (CreationTimestamp b)).
  destruct (Z.eqb_spec (CreationTimestamp a) (CreationTimestamp b)) as [E|N].
  - by apply ltb_total.
  - rewrite !Z.ltb_lt. lia.
Qed.

End before_order.

(* ===================================================================== *)
(** * Cleanup: the promotion of a waiting duplicate                        *)
(* ===================================================================== *)

Section cleanup.
Import provider.

(** The scan keeps the minimum of the candidates seen so far. *)
Lemma scan_fold (st : state) (d : string) (l : list ptr) (acc : option ptr) :
  (forall a b, (acc = Some a \/ In a l) -> (acc = Some b \/ In b l) -> a <> b ->
     ObjectName_ (deref st a) <> ObjectName_ (deref st b)) ->
  match fold_left (scan_step st d) l acc with
  | None => acc = None /\ forall a, In a l -> candidate st d a = false
  | Some f =>
      (acc = Some f \/ (In f l /\ candidate st d f = true))
      /\ forall a, (acc = Some a \/ (In a l /\ candidate st d a = true)) ->
           a = f \/ Before (deref st f) (deref st a) = true
  end.
Proof.
  revert acc. induction l as [|x l IH]; intros acc Hd; simpl.
  - destruct acc as [f|].
    + split; [by left|]. intros a [H|[[] _]]. left. congruence.
    + split; [done|]. intros a [].
  - assert (Hstep : scan_step st d acc x = acc \/
                    (scan_step st d acc x = Some x /\ candidate st d x = true)).
    { unfold scan_step, candidate. destruct (_ && _); [|by left].
      destruct acc as [g|]; [|by right].
      destruct (Before _ _); [by right|by left]. }
    specialize (IH (scan_step st d acc x)).
    assert (Hd' : forall a b,
               (scan_step st d acc x = Some a \/ In a l) ->
               (scan_step st d acc x = Some b \/ In b l) -> a <> b ->
               ObjectName_ (deref st a) <> ObjectName_ (deref st b)).
    { intros a b Ha Hb. apply Hd.
      - destruct Ha as [Ha|Ha]; [|right; by right].
        destruct Hstep as [E|[E _]]; rewrite E in Ha;
          [by left|right; left; congruence].
      - destruct Hb as [Hb|Hb]; [|right; by right].
        destruct Hstep as [E|[E _]]; rewrite E in Hb;
          [by left|right; left; congruence]. }
    specialize (IH Hd').
    destruct (fold_left (scan_step st d) l (scan_step st d acc x)) as [f|].
    + destruct IH as [Hf Hmin]. split.
      * destruct Hf as [Hf|[Hf Hc]]; [|right; split; [by right|done]].
        destruct Hstep as [E|[E Hc]]; rewrite E in Hf; [by left|].
        inversion Hf; subst f. right. split; [by left|done].
      * intros a Ha.
        unfold scan_step in Hmin. fold (candidate st d x) in Hmin.
        destruct Ha as [Ha|[[Ha|Ha] Hc]].
        -- (* the minimum so far *)
           subst acc. destruct (candidate st d x) eqn:Cx.
           ++ destruct (Before (deref st x) (deref st a)) eqn:Bxa.
              ** destruct (Hmin x (or_introl eq_refl)) as [->|Hfx]; [by right|].
                 right. by apply (Before_trans _ (deref st x)).
              ** apply Hmin. by left.
           ++ apply Hmin. by left.
        -- (* the element at hand *)
           subst a. rewrite Hc in Hmin.
           destruct acc as [g|]; [|apply Hmin; by left].
           destruct (Before (deref st x) (deref st g)) eqn:Bxg;
             [apply Hmin; by left|].
           destruct (decide (x = g)) as [->|Hne]; [apply Hmin; by left|].
           assert (Bgx : Before (deref st g) (deref st x) = true).
           { destruct (Before_total (deref st x) (deref st g)) as [B|B];
               [|congruence|done].
             apply Hd; [right; by left|by left|done]. }
           destruct (Hmin g (or_introl eq_refl)) as [->|Hfg]; [by right|].
           right. by apply (Before_trans _ (deref st g)).
        -- apply Hmin. right. done.
    + destruct IH as [Hnone Hall].
      destruct Hstep as [E|[E _]]; rewrite E in Hnone; [|discriminate].
      split; [done|]. intros a [<-|Ha]; [|by apply Hall].
      unfold scan_step in E. fold (candidate st d x) in E.
      destruct (candidate st d x); [|done].
      subst acc. discriminate.
Qed.

Lemma candidate_claimant (st : state) (es : gmap ObjectName ptr) (d : string)
    (order : list (ObjectName * ptr)) (a : ptr) :
  order ≡ₚ map_to_list es ->
  (In a order.*2 /\ candidate st d a = true) <-> claimant st es d a.
Proof.
  intros Hperm. unfold claimant, candidate.
  rewrite andb_true_iff, String.eqb_eq.
  assert (M : In a order.*2 <-> exists n, es !! n = Some a).
  { rewrite <- list_elem_of_In, list_elem_of_fmap. split.
    - intros ([n p] & -> & Hin). exists n. rewrite Hperm in Hin.
      by apply elem_of_map_to_list in Hin.
    - intros (n & Hn). exists (n, a). split; [done|]. rewrite Hperm.
      by apply elem_of_map_to_list. }
  rewrite M. tauto.
Qed.

Lemma Entries_Delete_lookup (es : gmap ObjectName ptr) (e : ptr) (name n : ObjectName)
    (p : ptr) :
  Entries_Delete es e name !! n = Some p -> es !! n = Some p.
Proof.
  unfold Entries_Delete. destruct (decide _); [|done].
  intros H. apply lookup_delete_Some in H. tauto.
Qed.

(** What the scan of [cleanupEntry] finds, for any order of the range. *)
Lemma scan_spec (w : World) (st : state) (es : gmap ObjectName ptr) (d : string) :
  range_ok w ->
  (forall n p, es !! n = Some p -> ObjectName_ (deref st p) = n) ->
  match scan st d (range_entries w es).*2 with
  | None => forall a, ~ claimant st es d a
  | Some f => claimant st es d f
              /\ forall a, claimant st es d a -> a <> f ->
                   Before (deref st f) (deref st a) = true
  end.
Proof.
  intros Hrange Hwf. specialize (Hrange es).
  pose proof (scan_fold st d (range_entries w es).*2 None) as H.
  assert (Hd : forall a b,
             (None = Some a \/ In a (range_entries w es).*2) ->
             (None = Some b \/ In b (range_entries w es).*2) -> a <> b ->
             ObjectName_ (deref st a) <> ObjectName_ (deref st b)).
  { intros a b [|Ha] [|Hb] Hne; try discriminate.
    apply list_elem_of_In in Ha. apply list_elem_of_In in Hb.
    apply list_elem_of_fmap in Ha as ([na ?] & -> & Ha).
    apply list_elem_of_fmap in Hb as ([nb ?] & -> & Hb).
    rewrite Hrange in Ha, Hb.
    apply elem_of_map_to_list in Ha, Hb. simpl in *.
    rewrite (Hwf _ _ Ha), (Hwf _ _ Hb). intros ->. congruence. }
  specialize (H Hd). unfold scan.
  destruct (fold_left _ _ None) as [f|].
  - destruct H as [[?|Hf] Hmin]; [discriminate|]. split.
    + by apply (candidate_claimant st es d _ f Hrange).
    + intros a Ha Hne.
      apply (candidate_claimant st es d _ a Hrange) in Ha.
      destruct (Hmin a (or_intror Ha)); [contradiction|done].
  - destruct H as [_ Hall]. intros a Ha.
    apply (candidate_claimant st es d _ a Hrange) in Ha as [Hin Hc].
    rewrite (Hall a Hin) in Hc. discriminate.
Qed.

(** The scan does not depend on the order of the range. *)
Lemma scan_deterministic (w w' : World) (st : state) (es : gmap ObjectName ptr)
    (d : string) :
  range_ok w -> range_ok w' ->
  (forall n p, es !! n = Some p -> ObjectName_ (deref st p) = n) ->
  scan st d (range_entries w es).*2 = scan st d (range_entries w' es).*2.
Proof.
  intros Hw Hw' Hwf.
  pose proof (scan_spec w st es d Hw Hwf) as H1.
  pose proof (scan_spec w' st es d Hw' Hwf) as H2.
  destruct (scan st d (range_entries w es).*2) as [f1|],
           (scan st d (range_entries w' es).*2) as [f2|]; try done.
  - destruct H1 as [C1 M1], H2 as [C2 M2].
    destruct (decide (f1 = f2)) as [->|Hne]; [done|].
    pose proof (M1 f2 C2 (not_eq_sym Hne)) as B1.
    pose proof (M2 f1 C1 Hne) as B2.
    apply Before_asym in B1. congruence.
  - destruct H1 as [C1 _]. by destruct (H2 f1).
  - destruct H2 as [C2 _]. by destruct (H1 f2).
Qed.

Context (w : World).

(** C2.  Let [cleanupEntry] remove an entry [e] that holds the claim on its
    DNS name, in a state whose index binds object names to entries of that
    name.  The entry leaves the index, the DNS name leaves the dnsnames
    map, and among the remaining indexed entries that are marked duplicate
    and have the DNS name of [e] the function triggers exactly one, the one
    that is before every other of them in the Before order (creation
    timestamp, then object name); when there is none, nothing is
    triggered.  The outcome is the same for every order in which the map
    of entries is ranged over. *)
Theorem cleanup_promotes_earliest (st : state) (e : ptr) :
  let ee := deref st e in
  let remaining := Entries_Delete (entries st) e (ObjectName_ ee) in
  let st' := cleanupEntry w st e in
  range_ok w ->
  index_wf st ->
  dnsnames st !! DNSName ee = Some e ->
  entries st' = remaining
  /\ dnsnames st' = delete (DNSName ee) (dnsnames st)
  /\ mem st' = mem st
  /\ (((forall a, ~ claimant st remaining (DNSName ee) a)
       /\ events st' = events st)
      \/ exists f, claimant st remaining (DNSName ee) f
           /\ (forall a, claimant st remaining (DNSName ee) a -> a <> f ->
                 Before (deref st f) (deref st a) = true)
           /\ events st' = events st ++ [EvEnqueueKey (ClusterKey_ (deref st f))])
  /\ (forall w', range_ok w' -> cleanupEntry w' st e = cleanupEntry w st e).
Proof.
  intros ee remaining st' Hrange Hwf Hclaim.
  assert (Hwf' : forall n p, remaining !! n = Some p ->
                             ObjectName_ (deref st p) = n).
  { intros n p H. apply Entries_Delete_lookup in H. by apply Hwf. }
  assert (Hrun : forall w0,
    cleanupEntry w0 st e
    = let st1 := with_entries remaining st in
      with_dnsnames (delete (DNSName ee) (dnsnames st))
        match scan st (DNSName ee) (range_entries w0 remaining).*2 with
        | None => st1
        | Some f => Trigger (deref st f) st1
        end).
  { intros w0. unfold cleanupEntry. fold ee. fold remaining. simpl.
    destruct (decide (dnsnames st !! DNSName ee = Some e)); [|done].
    by destruct (scan _ _ _). }
  subst st'. rewrite Hrun.
  pose proof (scan_spec w st remaining (DNSName ee) Hrange Hwf') as Hscan.
  split; [|split; [|split; [|split]]].
  - by destruct (scan _ _ _).
  - by destruct (scan _ _ _).
  - by destruct (scan _ _ _).
  - destruct (scan st (DNSName ee) (range_entries w remaining).*2) as [f|].
    + right. exists f. destruct Hscan as [Hc Hmin]. done.
    + left. done.
  - intros w' Hrange'. rewrite Hrun.
    by rewrite (scan_deterministic w' w st remaining (DNSName ee) Hrange' Hrange Hwf').
Qed.

End cleanup.

Lemma contested_wf : index_wf examples.contested.
Proof.
  intros n p H. unfold examples.contested, examples.state_of in H. simpl in H.
  repeat (apply lookup_insert_Some in H as [[<- <-]|[_ H]];
          [split; [eexists; reflexivity|reflexivity]|]).
  by rewrite lookup_empty in H.
Qed.

Lemma quiet_range_ok : provider.range_ok examples.quiet.
Proof. intros m. reflexivity. Qed.

Lemma cleanup_promotes_earliest_witness :
  let st := examples.contested in
  let st' := provider.cleanupEntry examples.quiet st 1%positive in
  provider.dnsnames st' = delete "www.example.com" (provider.dnsnames st)
  /\ forall w', provider.range_ok w' ->
       provider.cleanupEntry w' st 1%positive = st'.
Proof.
  intros st st'.
  destruct (cleanup_promotes_earliest examples.quiet st 1%positive
              quiet_range_ok contested_wf eq_refl) as (_ & Hd & _ & _ & Hdet).
  split; [exact Hd|exact Hdet].
Defined.

(** Of the two waiting duplicates, the one created first is triggered. *)
Example cleanup_triggers_e3 :
  provider.events (provider.cleanupEntry examples.quiet examples.contested 1%positive)
  = [ provider.EvEnqueueKey (provider.DNSEntryKind, "default/e3") ].
Proof. vm_compute. reflexivity. Qed.

(* ===================================================================== *)
(** * AddEntryVersion                                                      *)
(* ===================================================================== *)

Section add_entry_version.
Import provider.
Context (w : World).

(** What [cleanupEntry] leaves alone. *)
Lemma cleanupEntry_frame (st : state) (e : ptr) :
  let st' := cleanupEntry w st e in
  mem st' = mem st /\ zones st' = zones st /\ outdated st' = outdated st
  /\ ownerids st' = ownerids st /\ typeCodes st' = typeCodes st
  /\ (exists evs, events st' = events st ++ evs
                  /\ forall ev, In ev evs -> exists k, ev = EvEnqueueKey k)
  /\ (forall d c, dnsnames st !! d = Some c -> c <> e ->
                  dnsnames st' !! d = Some c).
Proof.
  unfold cleanupEntry. simpl.
  destruct (decide (dnsnames st !! DNSName (deref st e) = Some e)) as [Hc|Hc].
  - destruct (scan _ _ _) as [f|]; simpl; repeat split; try done.
    + eexists [_]. split; [reflexivity|]. intros ev [<-|[]]. eauto.
    + intros d c Hd Hne. rewrite lookup_delete_ne; [done|]. congruence.
    + exists []. split; [by rewrite app_nil_r|]. intros ev [].
    + intros d c Hd Hne. rewrite lookup_delete_ne; [done|]. congruence.
  - simpl. repeat split; try done.
    exists []. split; [by rewrite app_nil_r|]. intros ev [].
Qed.

Lemma install_spec (st : state) (v : EntryVersion) :
  let new := (install w st v).1 in
  let st1 := (install w st v).2 in
  version (deref st1 new) = v
  /\ (forall q, q <> new -> deref st1 q = deref st q)
  /\ (entries st !! vObjectName v = Some new \/ mem st !! new = None)
  /\ entries st1 = entries st /\ dnsnames st1 = dnsnames st
  /\ zones st1 = zones st /\ outdated st1 = outdated st
  /\ ownerids st1 = ownerids st /\ typeCodes st1 = typeCodes st
  /\ events st1 = events st.
Proof.
  assert (Hfresh : mem st !! fresh (dom (mem st)) = None).
  { apply not_elem_of_dom. apply is_fresh. }
  unfold install.
  destruct (entries st !! vObjectName v) as [o|] eqn:Ho.
  - unfold Update.
    destruct (String.eqb (DNSName (deref st o)) (vDNSName v)); simpl.
    + unfold deref, store; simpl. rewrite lookup_total_insert_eq.
      repeat split; try done; [|by left].
      intros q Hq. by rewrite lookup_total_insert_ne.
    + unfold deref, store; simpl. rewrite lookup_total_insert_eq.
      repeat split; try done; [|by right].
      intros q Hq. by rewrite lookup_total_insert_ne.
  - unfold alloc, deref, store; simpl. rewrite lookup_total_insert_eq.
    repeat split; try done; [|by right].
    intros q Hq. by rewrite lookup_total_insert_ne.
Qed.

(** The deleting branch, with the entry installed and the old entry
    cleaned up. *)
Lemma deleting_run (st : state) (v : EntryVersion) (status_ : Status) :
  vIsDeleting v = true ->
  let st0 := with_blockingEntries (delete (vObjectName v) (blockingEntries st)) st in
  let new := (install w st0 v).1 in
  let st1 := (install w st0 v).2 in
  let st2 := match entries st0 !! vObjectName v with
             | Some o => if decide (Kind_ (deref st1 o) <> DNSLockKind)
                         then cleanupEntry w st1 o else st1
             | None => st1
             end in
  let en := deref st2 new in
  AddEntryVersion w st v status_
  = if valid (version en) then
      if decide (is_Some (zones st2 !! activezone en)) then
        if HasFinalizer (Object_ en) then
          (Some new, Succeeded,
           with_outdated (Entries_AddEntry (outdated st2) new (ObjectName_ en)) st2)
        else deleting_return v new None st2
      else
        if negb (IsActive st2 en) || bool_decide (Zone (oStatus (object v)) = None)
        then deleting_return v new (RemoveFinalizer_err w (object v))
               (emit (EvRemoveFinalizer (oName (object v))) st2)
        else deleting_return v new None st2
    else
      if negb (IsActive st2 en)
         || bool_decide (State (oStatus (object v)) <> STATE_STALE)
      then deleting_return v new (RemoveFinalizer_err w (object v))
             (emit (EvRemoveFinalizer (oName (object v))) st2)
      else deleting_return v new None st2.
Proof.
  intros Hdel. unfold AddEntryVersion. simpl. rewrite Hdel.
  by destruct (install w _ v) as [new st1].
Qed.

(** C4, as the code has it.  On a deleting input [AddEntryVersion] returns
    the entry that carries the input version.  If it is valid, its active
    zone is in the zones map and the object holds the finalizer, the entry
    is added to the outdated set, the result is success and the finalizer
    is not removed.  If it is valid and its active zone is not in the zones
    map, the finalizer is removed when the entry is not active (its owner
    is outside the owner filter) or the object's status names no zone, and
    is left in place otherwise.  If it is not valid, the finalizer is
    removed when the entry is not active or the object's state is not
    stale, and is left in place otherwise. *)
Theorem deleting_entry_finalizer (st : state) (v : EntryVersion) (status_ : Status) :
  let res := AddEntryVersion w st v status_ in
  let st' := res.2 in
  vIsDeleting v = true ->
  exists new evs,
    res.1.1 = Some new /\ events st' = events st ++ evs
    /\ version (deref st' new) = v
    /\ (valid v = true ->
        is_Some (zones st !! activezone (deref st' new)) ->
        HasFinalizer (object v) = true ->
        outdated st' !! vObjectName v = Some new
        /\ res.1.2 = Succeeded
        /\ forall n, ~ In (EvRemoveFinalizer n) evs)
    /\ (valid v = true ->
        zones st !! activezone (deref st' new) = None ->
        if negb (IsActive st (deref st' new))
           || bool_decide (Zone (oStatus (object v)) = None)
        then In (EvRemoveFinalizer (vObjectName v)) evs
             /\ res.1.2 = DelayOnError (RemoveFinalizer_err w (object v))
        else (forall n, ~ In (EvRemoveFinalizer n) evs) /\ res.1.2 = Succeeded)
    /\ (valid v = false ->
        if negb (IsActive st (deref st' new))
           || bool_decide (State (oStatus (object v)) <> STATE_STALE)
        then In (EvRemoveFinalizer (vObjectName v)) evs
             /\ res.1.2 = DelayOnError (RemoveFinalizer_err w (object v))
        else (forall n, ~ In (EvRemoveFinalizer n) evs) /\ res.1.2 = Succeeded).
Proof.
  intros res st' Hdel. subst st' res. rewrite (deleting_run st v status_ Hdel).
  set (st0 := with_blockingEntries (delete (vObjectName v) (blockingEntries st)) st).
  destruct (install_spec st0 v)
    as (Hver & _ & _ & _ & _ & Hz1 & Ho1 & Hown1 & _ & Hev1).
  set (new := (install w st0 v).1) in *. set (st1 := (install w st0 v).2) in *.
  set (st2 := match entries st0 !! vObjectName v with
              | Some o => if decide (Kind_ (deref st1 o) <> DNSLockKind)
                          then cleanupEntry w st1 o else st1
              | None => st1
              end).
  assert (Hframe : mem st2 = mem st1 /\ zones st2 = zones st /\
                   ownerids st2 = ownerids st /\
                   exists evs, events st2 = events st ++ evs
                     /\ forall ev, In ev evs -> exists k, ev = EvEnqueueKey k).
  { assert (Hid : mem st1 = mem st1 /\ zones st1 = zones st /\
                  ownerids st1 = ownerids st /\
                  exists evs, events st1 = events st ++ evs
                    /\ forall ev, In ev evs -> exists k, ev = EvEnqueueKey k).
    { split; [done|]. split; [by rewrite Hz1|]. split; [by rewrite Hown1|].
      exists []. rewrite app_nil_r. split; [by rewrite Hev1|]. intros ev []. }
    subst st2. destruct (entries st0 !! vObjectName v) as [o|]; [|exact Hid].
    destruct (decide _); [|exact Hid].
    destruct (cleanupEntry_frame st1 o) as (Hm & Hz & _ & Hown & _ & (evs & He & Hk) & _).
    split; [done|]. split; [by rewrite Hz, Hz1|]. split; [by rewrite Hown, Hown1|].
    exists evs. split; [by rewrite He, Hev1|done]. }
  destruct Hframe as (Hm2 & Hz2 & Hown2 & evs2 & Hev2 & Hk2).
  assert (Hen : deref st2 new = deref st1 new) by (unfold deref; by rewrite Hm2).
  assert (Hact : IsActive st2 (deref st2 new) = IsActive st (deref st2 new))
    by (unfold IsActive; by rewrite Hown2).
  assert (Hnofin : forall n, ~ In (EvRemoveFinalizer n) evs2).
  { intros n Hin. destruct (Hk2 _ Hin) as [k Hk]. discriminate. }
  assert (Hobj : Object_ (deref st2 new) = object v)
    by (unfold Object_; by rewrite Hen, Hver).
  assert (Hname : ObjectName_ (deref st2 new) = vObjectName v)
    by (unfold ObjectName_; by rewrite Hen, Hver).
  assert (Hvalid : valid (version (deref st2 new)) = valid v)
    by (by rewrite Hen, Hver).
  assert (Hret : forall err st3,
            mem st3 = mem st2 ->
            let r := deleting_return v new err st3 in
            r.1.1 = Some new /\ r.1.2 = DelayOnError err
            /\ events r.2 = events st3 /\ deref r.2 new = deref st2 new).
  { intros err st3 Hm3. unfold deleting_return, deref.
    destruct err; simpl; by rewrite Hm3. }
  rewrite Hvalid, Hobj, Hname, Hz2, Hact.
  exists new.
  destruct (valid v) eqn:Hv.
  - destruct (decide (is_Some (zones st !! activezone (deref st2 new)))) as [Hz|Hz].
    + destruct (HasFinalizer (object v)) eqn:Hf.
      * exists evs2. simpl.
        change (deref (with_outdated _ st2) new) with (deref st2 new).
        split; [done|]. split; [done|]. split; [by rewrite Hen|].
        split; [intros _ _ _; split;
                [unfold Entries_AddEntry; by rewrite lookup_insert_eq|done]|].
        split; [intros _ Hnone; rewrite Hnone in Hz; by destruct Hz|].
        intros; discriminate.
      * destruct (Hret None st2 eq_refl) as (R1 & R2 & R3 & R4).
        exists evs2. rewrite R1, R2, R3, R4.
        split; [done|]. split; [done|]. split; [by rewrite Hen|].
        split; [intros; discriminate|].
        split; [intros _ Hnone; rewrite Hnone in Hz; by destruct Hz|].
        intros; discriminate.
    + destruct (negb (IsActive st (deref st2 new))
                || bool_decide (Zone (oStatus (object v)) = None)) eqn:Hc.
      * destruct (Hret (RemoveFinalizer_err w (object v))
                    (emit (EvRemoveFinalizer (oName (object v))) st2) eq_refl)
          as (R1 & R2 & R3 & R4).
        exists (evs2 ++ [EvRemoveFinalizer (oName (object v))]).
        rewrite R1, R2, R3, R4. simpl.
        split; [done|]. split; [by rewrite Hev2, <- app_assoc|].
        split; [by rewrite Hen|].
        split; [intros _ Hs; contradiction|].
        split; [|intros; discriminate].
        intros _ _. rewrite Hc. split; [|done]. apply in_or_app. right. by left.
      * destruct (Hret None st2 eq_refl) as (R1 & R2 & R3 & R4).
        exists evs2. rewrite R1, R2, R3, R4.
        split; [done|]. split; [done|]. split; [by rewrite Hen|].
        split; [intros _ Hs; contradiction|].
        split; [|intros; discriminate].
        intros _ _. by rewrite Hc.
  - destruct (negb (IsActive st (deref st2 new))
              || bool_decide (State (oStatus (object v)) <> STATE_STALE)) eqn:Hc.
    + destruct (Hret (RemoveFinalizer_err w (object v))
                  (emit (EvRemoveFinalizer (oName (object v))) st2) eq_refl)
        as (R1 & R2 & R3 & R4).
      exists (evs2 ++ [EvRemoveFinalizer (oName (object v))]).
      rewrite R1, R2, R3, R4. simpl.
      split; [done|]. split; [by rewrite Hev2, <- app_assoc|].
      split; [by rewrite Hen|].
      split; [intros; discriminate|]. split; [intros; discriminate|].
      intros _. rewrite Hc. split; [|done]. apply in_or_app. right. by left.
    + destruct (Hret None st2 eq_refl) as (R1 & R2 & R3 & R4).
      exists evs2. rewrite R1, R2, R3, R4.
      split; [done|]. split; [done|]. split; [by rewrite Hen|].
      split; [intros; discriminate|]. split; [intros; discriminate|].
      intros _. by rewrite Hc.
Qed.

Lemma Before_version (x e1 e2 : Entry) :
  version e1 = version e2 -> Before x e1 = Before x e2.
Proof.
  intros H. unfold Before, CreationTimestamp, ObjectName_. by rewrite H.
Qed.

Lemma IsManaging_typeCodes (a b : state) (v : EntryVersion) :
  typeCodes a = typeCodes b -> IsManaging a v = IsManaging b v.
Proof. intros H. unfold IsManaging. by rewrite H. Qed.

Lemma activate_spec (v : EntryVersion) (new : ptr) (status_ : Status) (st : state) :
  let r := activate w v new status_ st in
  r.1.1 = Some new /\ r.1.2 = status_
  /\ mem r.2 = mem st
  /\ dnsnames r.2 !! vDNSName v = Some new
  /\ exists evs, events r.2 = events st ++ evs.
Proof.
  unfold activate. simpl.
  destruct (_ && _); simpl;
    (split; [done|]; split; [done|]; split; [done|];
     split; [by rewrite lookup_insert_eq|]).
  - eexists [_]. reflexivity.
  - exists []. by rewrite app_nil_r.
Qed.

(** The arbitration block, entered with a holder [c] of another object
    name. *)
Lemma arbitrate_contested (v : EntryVersion) (new c : ptr) (status_ : Status)
    (st : state) :
  let r := arbitrate w v new status_ st in
  let cur := deref st c in
  let busy := MsgAlreadyBusyForEntry (vDNSName v) (ObjectName_ cur) in
  vDNSName v <> "" ->
  dnsnames st !! vDNSName v = Some c ->
  ObjectName_ cur <> ObjectName_ (deref st new) ->
  c <> new ->
  r.1.1 = Some new
  /\ exists evs, events r.2 = events st ++ evs
     /\ version (deref r.2 new)
        = version (if Before cur (deref st new)
                   then set_duplicate true false (deref st new)
                   else deref st new)
     /\ if Before cur (deref st new)
        then duplicate (version (deref r.2 new)) = true
             /\ modified (deref r.2 new) = false
             /\ dnsnames r.2 !! vDNSName v = Some c
             /\ if IsSucceeded status_
                then evs = [EvUpdateStatus (vObjectName v) STATE_ERROR busy]
                     /\ r.1.2 = match UpdateStatus_err w (vObjectName v)
                                        STATE_ERROR busy with
                                | Some err => Delay (Some err)
                                | None => status_
                                end
                else evs = [] /\ r.1.2 = status_
        else duplicate (version (deref r.2 c)) = true
             /\ modified (deref r.2 c) = false
             /\ In (EvTriggerKey (ClusterKey_ cur)) evs
             /\ dnsnames r.2 !! vDNSName v = Some new
             /\ r.1.2 = status_.
Proof.
  intros r cur busy Hname Hcur Hdiff Hne. subst r. unfold arbitrate.
  destruct (String.eqb_spec (vDNSName v) "") as [|_]; [done|]. simpl.
  rewrite Hcur. fold cur.
  destruct (String.eqb_spec (ObjectName_ cur) (ObjectName_ (deref st new)))
    as [|_]; [done|]. simpl.
  destruct (Before cur (deref st new)) eqn:B.
  - assert (Hc : deref (store new (set_duplicate true false (deref st new)) st) c
                 = cur).
    { unfold deref, store. simpl. by rewrite lookup_total_insert_ne. }
    rewrite Hc. fold busy.
    destruct (IsSucceeded status_).
    + unfold UpdateStatus.
      destruct (UpdateStatus_err w (vObjectName v) STATE_ERROR busy) as [err|];
        simpl; (split; [done|]); eexists [_]; (split; [reflexivity|]);
        unfold deref; simpl; rewrite lookup_total_insert_eq; simpl; done.
    + simpl. split; [done|]. exists []. split; [by rewrite app_nil_r|].
      unfold deref; simpl; rewrite lookup_total_insert_eq; simpl; done.
  - set (st1 := store c (set_duplicate true false cur) st).
    assert (Hc1 : deref st1 c = set_duplicate true false cur).
    { unfold deref, st1, store. simpl. by rewrite lookup_total_insert_eq. }
    assert (Hn1 : deref st1 new = deref st new).
    { unfold deref, st1, store. simpl. by rewrite lookup_total_insert_ne. }
    rewrite Hc1.
    change (ClusterKey_ (set_duplicate true false cur)) with (ClusterKey_ cur).
    destruct (activate_spec v new status_ (triggerKey (ClusterKey_ cur) st1))
      as (A1 & A2 & A3 & A4 & evs & A5).
    set (r := activate w v new status_ (triggerKey (ClusterKey_ cur) st1)) in *.
    clearbody r.
    assert (Hrn : deref r.2 new = deref st new)
      by (unfold deref; rewrite A3; exact Hn1).
    assert (Hrc : deref r.2 c = set_duplicate true false cur)
      by (unfold deref; rewrite A3; exact Hc1).
    split; [exact A1|].
    exists (EvTriggerKey (ClusterKey_ cur) :: evs).
    split; [rewrite A5; simpl; by rewrite <- app_assoc|].
    rewrite Hrn, Hrc.
    split; [done|]. split; [done|]. split; [done|]. split; [by left|].
    split; [exact A4|exact A2].
Qed.

(** The other branch, up to the arbitration block. *)
Lemma managed_run (st : state) (v : EntryVersion) (status_ : Status) :
  vIsDeleting v = false ->
  let st0 := with_blockingEntries (delete (vObjectName v) (blockingEntries st)) st in
  let new := (install w st0 v).1 in
  let st1 := (install w st0 v).2 in
  let fin := if valid (version (deref st1 new)) && IsManaging st1 v
             then SetFinalizer w (Object_ (deref st1 new)) st1
             else (None, st1) in
  let st3 := with_entries (<[vObjectName v := new]> (entries fin.2)) fin.2 in
  let st4 := match entries st0 !! vObjectName v with
             | Some o =>
                 if decide (o <> new) then
                   let stc := cleanupEntry w st3 o in
                   if negb (String.eqb (activezone (deref stc o)) "")
                      && negb (String.eqb (activezone (deref stc o))
                                          (ZoneId (deref stc new)))
                      && bool_decide (is_Some (zones stc !! activezone (deref stc o)))
                   then triggerHostedZone (activezone (deref stc o)) stc
                   else stc
                 else st3
             | None => st3
             end in
  AddEntryVersion w st v status_
  = match fin.1 with
    | Some _ => (Some new, DelayOnError fin.1, fin.2)
    | None => if negb (IsManaging st4 v) then (None, status_, st4)
              else arbitrate w v new status_ st4
    end.
Proof.
  intros Hdel. cbv zeta. unfold AddEntryVersion. rewrite Hdel.
  destruct (install w _ v) as [new st1]. cbn [fst snd].
  destruct (if valid (version (deref st1 new)) && IsManaging st1 v
            then SetFinalizer w (Object_ (deref st1 new)) st1
            else (None, st1)) as [[err|] st2]; reflexivity.
Qed.

(** C1, as the code has it.  Take a non-deleting version [v] that the
    controller manages, with a non-empty DNS name held in the dnsnames
    index by an allocated entry [c] of another object name, in a state
    whose index binds object names to entries of that name, and let setting
    the finalizer succeed when [v] is valid.  [AddEntryVersion] returns the
    entry for [v].  If [c] is before it in the Before order, that entry is
    marked duplicate, its modified flag is cleared and [c] keeps the name;
    the status update to error with the AlreadyBusy diagnostic citing the
    object name of [c] is sent only when the incoming reconcile status is
    succeeded (the result is then a delay if that update fails), and
    otherwise no status update is sent and the incoming status is returned.
    If [c] is not before it, [c] is marked duplicate with modified cleared
    and is triggered again, the new entry takes the name in the dnsnames
    index, and the incoming status is returned. *)
Theorem duplicate_arbitration (st : state) (v : EntryVersion) (status_ : Status)
    (c : ptr) :
  let res := AddEntryVersion w st v status_ in
  let st' := res.2 in
  let cur := deref st c in
  let busy := MsgAlreadyBusyForEntry (vDNSName v) (ObjectName_ cur) in
  index_wf st ->
  vIsDeleting v = false ->
  IsManaging st v = true ->
  (valid v = true -> SetFinalizer_err w (object v) = None) ->
  vDNSName v <> "" ->
  dnsnames st !! vDNSName v = Some c ->
  is_Some (mem st !! c) ->
  ObjectName_ cur <> vObjectName v ->
  exists new evs,
    res.1.1 = Some new /\ events st' = events st ++ evs
    /\ object (version (deref st' new)) = object v
    /\ if Before cur (NewEntry w v)
       then duplicate (version (deref st' new)) = true
            /\ modified (deref st' new) = false
            /\ dnsnames st' !! vDNSName v = Some c
            /\ if IsSucceeded status_
               then In (EvUpdateStatus (vObjectName v) STATE_ERROR busy) evs
                    /\ res.1.2 = match UpdateStatus_err w (vObjectName v)
                                         STATE_ERROR busy with
                                 | Some err => Delay (Some err)
                                 | None => status_
                                 end
               else (forall n s m, ~ In (EvUpdateStatus n s m) evs)
                    /\ res.1.2 = status_
       else duplicate (version (deref st' c)) = true
            /\ modified (deref st' c) = false
            /\ In (EvTriggerKey (ClusterKey_ cur)) evs
            /\ dnsnames st' !! vDNSName v = Some new
            /\ res.1.2 = status_.
Proof.
  intros res st' cur busy Hwf Hdel Hman Hfin Hname Hcur Halloc Hdiff.
  subst st' res. rewrite (managed_run st v status_ Hdel).
  set (st0 := with_blockingEntries (delete (vObjectName v) (blockingEntries st)) st).
  destruct (install_spec st0 v)
    as (Hver & Hother & Hnew & He1 & Hd1 & Hz1 & _ & _ & Ht1 & Hev1).
  set (new := (install w st0 v).1) in *. set (st1 := (install w st0 v).2) in *.
  (* the holder is neither the new nor the old entry *)
  assert (Hc_new : c <> new).
  { intros E. destruct Hnew as [Hold|Hfresh].
    - destruct (Hwf _ _ Hold) as [_ Hn]. apply Hdiff. subst cur. by rewrite E.
    - rewrite <- E in Hfresh. change (mem st0) with (mem st) in Hfresh.
      rewrite Hfresh in Halloc. by destruct Halloc. }
  assert (Hc_old : forall o, entries st !! vObjectName v = Some o -> c <> o).
  { intros o Ho E. destruct (Hwf _ _ Ho) as [_ Hn]. apply Hdiff. subst cur.
    by rewrite E. }
  assert (Hcur1 : deref st1 c = cur) by (by rewrite Hother).
  (* the finalizer *)
  assert (Hm1 : IsManaging st1 v = true)
    by (by rewrite (IsManaging_typeCodes st1 st v Ht1)).
  set (fin := if valid (version (deref st1 new)) && IsManaging st1 v
              then SetFinalizer w (Object_ (deref st1 new)) st1
              else (None, st1)).
  assert (F2 : fin.1 = None /\ mem fin.2 = mem st1 /\ dnsnames fin.2 = dnsnames st
               /\ typeCodes fin.2 = typeCodes st
               /\ exists evs, events fin.2 = events st ++ evs
                    /\ forall n s m, ~ In (EvUpdateStatus n s m) evs).
  { subst fin. rewrite Hm1, Hver. unfold Object_. rewrite Hver.
    destruct (valid v) eqn:Hv; simpl.
    - split; [by apply Hfin|]. repeat (split; [done|]).
      eexists [_]. rewrite Hev1. split; [done|].
      intros n s m [H|[]]. discriminate.
    - repeat (split; [done|]). exists []. rewrite Hev1, app_nil_r.
      split; [done|]. intros n s m []. }
  destruct F2 as (Hf2 & Hm2 & Hd2 & Ht2 & evs2 & Hev2 & Hno2).
  set (st3 := with_entries (<[vObjectName v := new]> (entries fin.2)) fin.2).
  set (st4 := match entries st0 !! vObjectName v with
              | Some o =>
                  if decide (o <> new) then
                    let stc := cleanupEntry w st3 o in
                    if negb (String.eqb (activezone (deref stc o)) "")
                       && negb (String.eqb (activezone (deref stc o))
                                           (ZoneId (deref stc new)))
                       && bool_decide (is_Some (zones stc !! activezone (deref stc o)))
                    then triggerHostedZone (activezone (deref stc o)) stc
                    else stc
                  else st3
              | None => st3
              end).
  assert (F4 : mem st4 = mem st1 /\ typeCodes st4 = typeCodes st
               /\ dnsnames st4 !! vDNSName v = Some c
               /\ exists evs, events st4 = events st ++ evs
                    /\ forall n s m, ~ In (EvUpdateStatus n s m) evs).
  { assert (F3 : mem st3 = mem st1 /\ typeCodes st3 = typeCodes st
                 /\ dnsnames st3 !! vDNSName v = Some c
                 /\ exists evs, events st3 = events st ++ evs
                      /\ forall n s m, ~ In (EvUpdateStatus n s m) evs).
    { split; [done|]. split; [done|]. split; [simpl; by rewrite Hd2|].
      exists evs2. done. }
    subst st4. change (entries st0) with (entries st).
    destruct (entries st !! vObjectName v) as [o|] eqn:Ho; [|exact F3].
    destruct (decide (o <> new)) as [Hon|Hon]; [|exact F3].
    destruct (cleanupEntry_frame st3 o)
      as (Cm & Cz & _ & _ & Ct & (evs & Ce & Ck) & Cd).
    destruct F3 as (M3 & T3 & D3 & evs3 & E3 & N3).
    assert (Hno : forall n s m, ~ In (EvUpdateStatus n s m) (evs3 ++ evs)).
    { intros n s m Hin. apply in_app_or in Hin as [Hin|Hin].
      - by apply (N3 n s m).
      - destruct (Ck _ Hin) as [k Hk]. discriminate. }
    cbv zeta.
    destruct (negb _ && negb _ && bool_decide _); simpl.
    - split; [by rewrite Cm|]. split; [by rewrite Ct|].
      split; [apply Cd; [done|by apply Hc_old]|].
      exists ((evs3 ++ evs) ++ [EvTriggerHostedZone
                                  (activezone (deref (cleanupEntry w st3 o) o))]).
      split; [rewrite Ce, E3; by rewrite !app_assoc|].
      intros n s m Hin. apply in_app_or in Hin as [Hin|[Hin|[]]];
        [by apply (Hno n s m)|discriminate].
    - split; [by rewrite Cm|]. split; [by rewrite Ct|].
      split; [apply Cd; [done|by apply Hc_old]|].
      exists (evs3 ++ evs). split; [rewrite Ce, E3; by rewrite app_assoc|done]. }
  destruct F4 as (Hm4 & Ht4 & Hd4 & evs4 & Hev4 & Hno4).
  rewrite Hf2, (IsManaging_typeCodes st4 st v Ht4), Hman. simpl.
  assert (Hcur4 : deref st4 c = cur) by (unfold deref; by rewrite Hm4).
  assert (Hnew4 : deref st4 new = deref st1 new) by (unfold deref; by rewrite Hm4).
  assert (Hname4 : ObjectName_ (deref st4 new) = vObjectName v)
    by (unfold ObjectName_; by rewrite Hnew4, Hver).
  destruct (arbitrate_contested v new c status_ st4 Hname Hd4)
    as (R1 & evs & Rev & Rver & Rarb).
  { by rewrite Hcur4, Hname4. }
  { done. }
  rewrite Hcur4 in Rver, Rarb.
  assert (HB : Before cur (deref st4 new) = Before cur (NewEntry w v)).
  { apply Before_version. by rewrite Hnew4, Hver. }
  rewrite HB in Rver, Rarb.
  set (r := arbitrate w v new status_ st4) in *. clearbody r.
  exists new, (evs4 ++ evs).
  split; [exact R1|]. split; [by rewrite Rev, Hev4, app_assoc|].
  split.
  { rewrite Rver. destruct (Before cur (NewEntry w v)); simpl;
      by rewrite Hnew4, Hver. }
  destruct (Before cur (NewEntry w v)).
  - destruct Rarb as (D1 & D2 & D3 & D4).
    split; [exact D1|]. split; [exact D2|]. split; [exact D3|].
    destruct (IsSucceeded status_).
    + destruct D4 as [-> D5]. split; [|exact D5].
      apply in_or_app. right. by left.
    + destruct D4 as [-> D5]. split; [|exact D5].
      rewrite app_nil_r. exact Hno4.
  - destruct Rarb as (D1 & D2 & D3 & D4 & D5).
    split; [exact D1|]. split; [exact D2|].
    split; [apply in_or_app; by right|]. split; [exact D4|exact D5].
Qed.

End add_entry_version.

Lemma e1_holds_wf (z : bool) : index_wf (examples.e1_holds z).
Proof.
  intros n p H. unfold examples.e1_holds, examples.state_of in H. simpl in H.
  apply lookup_insert_Some in H as [[<- <-]|[_ H]];
    [split; [eexists; reflexivity|reflexivity]|].
  by rewrite lookup_empty in H.
Qed.

Lemma deleting_entry_finalizer_witness :
  let st := examples.e1_holds true in
  let res := provider.AddEntryVersion examples.quiet st examples.e1_deleting
               provider.Succeeded in
  res.1.1 = Some 1%positive
  /\ provider.outdated res.2 !! "default/e1" = Some 1%positive
  /\ res.1.2 = provider.Succeeded.
Proof.
  intros st res.
  destruct (deleting_entry_finalizer examples.quiet st examples.e1_deleting
              provider.Succeeded eq_refl)
    as (new & evs & H1 & _ & _ & Hout & _).
  fold res in H1, Hout.
  assert (Hnew : new = 1%positive).
  { change (res.1.1) with (Some 1%positive) in H1. congruence. }
  subst new.
  destruct Hout as (Ho & Hs & _); [reflexivity| |reflexivity|done].
  eexists. reflexivity.
Defined.

(** C4, as stated, fails in its second part: with the active zone gone, the
    finalizer of a valid entry stays when the entry is active and the
    object's status still names a zone. *)
Lemma zone_gone_counterexample :
  ~ (forall (w : provider.World) (st : provider.state) (v : provider.EntryVersion)
            (status_ : provider.Status) (new : provider.ptr),
       let res := provider.AddEntryVersion w st v status_ in
       provider.vIsDeleting v = true ->
       provider.valid v = true ->
       res.1.1 = Some new ->
       provider.zones st !! provider.activezone (provider.deref res.2 new) = None ->
       In (provider.EvRemoveFinalizer (provider.vObjectName v))
          (provider.events res.2)).
Proof.
  intros H.
  specialize (H examples.quiet (examples.e1_holds false) examples.e1_deleting
                provider.Succeeded 1%positive eq_refl eq_refl eq_refl eq_refl).
  vm_compute in H. exact H.
Qed.

Lemma duplicate_arbitration_witness :
  let st := examples.e1_holds true in
  let res := provider.AddEntryVersion examples.quiet st examples.e2_version
               provider.Succeeded in
  exists new,
    res.1.1 = Some new
    /\ provider.duplicate (provider.version (provider.deref res.2 new)) = true
    /\ provider.modified (provider.deref res.2 new) = false
    /\ provider.dnsnames res.2 !! "www.example.com" = Some 1%positive
    /\ res.1.2 = provider.Succeeded.
Proof.
  intros st res.
  destruct (duplicate_arbitration examples.quiet st examples.e2_version
              provider.Succeeded 1%positive)
    as (new & evs & H1 & _ & _ & Harb).
  - apply e1_holds_wf.
  - reflexivity.
  - reflexivity.
  - reflexivity.
  - discriminate.
  - reflexivity.
  - eexists. reflexivity.
  - discriminate.
  - exists new. fold res in H1, Harb.
    assert (HB : provider.Before (provider.deref st 1%positive)
                   (provider.NewEntry examples.quiet examples.e2_version) = true)
      by reflexivity.
    rewrite HB in Harb.
    destruct Harb as (D1 & D2 & D3 & D4).
    assert (HS : provider.IsSucceeded provider.Succeeded = true) by reflexivity.
    rewrite HS in D4. destruct D4 as [_ D5].
    split; [exact H1|]. split; [exact D1|]. split; [exact D2|].
    split; [exact D3|exact D5].
Defined.

(** C1, as stated, fails: when the incoming reconcile status is not
    succeeded, the later entry is marked duplicate but no status update to
    error is sent. *)
Lemma already_busy_counterexample :
  ~ (forall (w : provider.World) (st : provider.state) (v : provider.EntryVersion)
            (status_ : provider.Status) (c : provider.ptr),
       let res := provider.AddEntryVersion w st v status_ in
       let cur := provider.deref st c in
       index_wf st ->
       provider.vIsDeleting v = false ->
       provider.IsManaging st v = true ->
       provider.vDNSName v <> "" ->
       provider.dnsnames st !! provider.vDNSName v = Some c ->
       is_Some (provider.mem st !! c) ->
       provider.ObjectName_ cur <> provider.vObjectName v ->
       provider.Before cur (provider.NewEntry w v) = true ->
       In (provider.EvUpdateStatus (provider.vObjectName v) provider.STATE_ERROR
             (provider.MsgAlreadyBusyForEntry (provider.vDNSName v)
                (provider.ObjectName_ cur)))
          (provider.events res.2)).
Proof.
  intros H.
  specialize (H examples.quiet (examples.e1_holds true) examples.e2_version
                (provider.Delay (Some "no matching provider")) 1%positive
                (e1_holds_wf true) eq_refl eq_refl
                ltac:(discriminate) eq_refl
                ltac:(eexists; reflexivity) ltac:(discriminate) eq_refl).
  vm_compute in H.
  repeat (destruct H as [H|H]; [discriminate|]). exact H.
Qed.

Lemma premise_mismatch_repeats_witness :
  let obj := examples.entry_object "default/e1" "www.example.com" 10
               (examples.bound_status provider.STATE_READY) false in
  let h := provider.HandleUpdateEntry examples.quiet
             (examples.registry examples.zone1) (examples.registry examples.zone2)
             (examples.e1_holds true) "reconcile" obj in
  provider.h_check h
  = Some (provider.EntryPremise_ (examples.registry examples.zone2) obj).1
  /\ exists st', provider.h_result h = provider.Ret provider.Repeat st'.
Proof.
  intros obj h.
  destruct (premise_mismatch_repeats examples.quiet
              (examples.registry examples.zone1) (examples.registry examples.zone2)
              (examples.e1_holds true) "reconcile" obj)
    as (_ & Hcheck & Hrep & _).
  - reflexivity.
  - vm_compute. reflexivity.
  - split; [exact Hcheck|]. eexists. apply Hrep. reflexivity.
Defined.

(** C5, as stated, fails: a lock is handed to the lock protocol, whose
    result is returned; the zone of the provider changes during the run,
    so that the premises do not match, and the handler returns success. *)
Lemma premise_mismatch_counterexample :
  ~ (forall (w : provider.World) (reg reg' : provider.Registry)
            (st : provider.state) (op : string) (obj : provider.Object),
       provider.Match (provider.EntryPremise_ reg' obj).1
                      (provider.EntryPremise_ reg obj).1 = false ->
       exists st', provider.h_result (provider.HandleUpdateEntry w reg reg' st op obj)
                   = provider.Ret provider.Repeat st').
Proof.
  intros H.
  specialize (H examples.quiet
                (examples.registry examples.zone1) (examples.registry examples.zone2)
                (examples.lock_state
                   (examples.lock_object "default/lock" "A" 100 provider.STATE_READY
                      None false) false 0)
                "reconcile"
                (examples.lock_object "default/lock" "A" 100 provider.STATE_READY
                   None false)
                eq_refl).
  destruct H as [st' Hst']. vm_compute in Hst'. discriminate.
Qed.

(* ===================================================================== *)
(** * The runs that are handed to the lock protocol                        *)
(* ===================================================================== *)

Section lock_runs.
Import provider.
Context (w : World).

(** The arbitration returns the new entry and leaves its kind. *)
Lemma arbitrate_kind (v : EntryVersion) (new : ptr) (status_ : Status) (st : state) :
  let r := arbitrate w v new status_ st in
  r.1.1 = Some new /\ Kind_ (deref r.2 new) = Kind_ (deref st new).
Proof.
  assert (Hact : forall st0,
     (activate w v new status_ st0).1.1 = Some new
     /\ deref (activate w v new status_ st0).2 new = deref st0 new).
  { intros st0. unfold activate. cbv zeta. by destruct (_ && _). }
  unfold arbitrate. cbv zeta.
  destruct (negb (String.eqb (vDNSName v) "")); [|done].
  destruct (dnsnames st !! vDNSName v) as [c|] eqn:Hc.
  2:{ destruct (Hact st) as [A B]. split; [done|]. by rewrite B. }
  destruct (String.eqb_spec (ObjectName_ (deref st c)) (ObjectName_ (deref st new)))
    as [He|He]; cbn [negb].
  { destruct (Hact st) as [A B]. split; [done|]. by rewrite B. }
  destruct (Before (deref st c) (deref st new)).
  - assert (K : Kind_ (deref (store new (set_duplicate true false (deref st new)) st) new)
                = Kind_ (deref st new)).
    { unfold deref, store. simpl. by rewrite lookup_total_insert_eq. }
    destruct (IsSucceeded status_); [|done].
    unfold UpdateStatus. by destruct (UpdateStatus_err w _ _ _).
  - assert (Hne : c <> new) by congruence.
    match goal with |- context [activate w v new status_ ?s] =>
      destruct (Hact s) as [A B]; split; [done|]; rewrite B end.
    unfold triggerKey, deref, store. simpl. by rewrite lookup_total_insert_ne.
Qed.

(** Entries are read from the store only. *)
Lemma deref_mem (st st' : state) (p : ptr) :
  mem st' = mem st -> deref st' p = deref st p.
Proof. unfold deref. by intros ->. Qed.

(** The entry that [AddEntryVersion] returns has the kind of the object of
    the version. *)
Lemma AddEntryVersion_kind (st : state) (v : EntryVersion) (status_ : Status)
    (n : ptr) :
  (AddEntryVersion w st v status_).1.1 = Some n ->
  Kind_ (deref (AddEntryVersion w st v status_).2 n) = oKind (object v).
Proof.
  unfold AddEntryVersion. cbv zeta.
  match goal with |- context [install w ?s v] =>
    pose proof (install_spec w s v) as Hi; destruct (install w s v) as [new st1] end.
  cbn [fst snd] in Hi. destruct Hi as (Hv & _).
  assert (Hk : Kind_ (deref st1 new) = oKind (object v)).
  { unfold Kind_. by rewrite Hv. }
  clear Hv. rewrite <- Hk.
  destruct (vIsDeleting v).
  - match goal with |- context [deref ?s new] =>
      assert (Hm : mem s = mem st1); [|set (st2 := s) in *; clearbody st2] end.
    { destruct (entries _ !! vObjectName v) as [o|]; [|done].
      destruct (decide _); [|done].
      by destruct (cleanupEntry_frame w st1 o) as [Hmem _]. }
    unfold deleting_return, RemoveFinalizer.
    repeat match goal with
           | |- context [if ?b then _ else _] => destruct b
           | |- context [match RemoveFinalizer_err w ?o with _ => _ end] =>
               destruct (RemoveFinalizer_err w o)
           end;
      cbn [fst snd]; intros [= <-]; f_equal; by apply deref_mem.
  - match goal with |- context [(if ?b then SetFinalizer w ?o st1 else _)] =>
      assert (Hm2 : mem (if b then SetFinalizer w o st1 else (None, st1)).2 = mem st1)
        by (by destruct b);
      destruct (if b then SetFinalizer w o st1 else (None, st1)) as [err st2] end.
    cbn [snd] in Hm2.
    destruct err as [e|].
    { cbn [fst snd]. intros [= <-]. f_equal. by apply deref_mem. }
    match goal with |- context [negb (IsManaging ?s v)] =>
      assert (Hm : mem s = mem st1); [|set (st4 := s) in *; clearbody st4] end.
    { destruct (entries _ !! vObjectName v) as [o|]; [|done].
      destruct (decide _); [|done].
      match goal with |- context [cleanupEntry w ?s o] =>
        destruct (cleanupEntry_frame w s o) as [Hmem _] end.
      cbv zeta in Hmem. destruct (_ && _ && _); simpl; by rewrite Hmem. }
    destruct (negb (IsManaging st4 v)); [discriminate|].
    destruct (arbitrate_kind v new status_ st4) as [A B].
    cbv zeta in A, B. rewrite A. intros [= <-]. rewrite B.
    f_equal. by apply deref_mem.
Qed.

(** When the constructors of the version, which are not under src/, keep
    the kind of the object, the run of an object that is not a lock is not
    handed to the lock protocol. *)
Lemma lock_run_kind (reg : Registry) (st : state) (op : string) (obj : Object) :
  (forall o old, oKind (object (NewEntryVersion w o old)) = oKind o) ->
  (forall v p op err old, oKind (object (Setup w v p op err old).1) = oKind (object v)) ->
  oKind obj <> DNSLockKind ->
  lock_run w reg st op obj = false.
Proof.
  intros Hnew Hsetup Hkind. unfold lock_run, added_entry.
  destruct (EntryPremise_ reg obj) as [p err].
  match goal with |- context [Setup w ?v p op ?e ?o] =>
    pose proof (Hsetup v p op e o) as Hs;
    assert (Hv : oKind (object v) = oKind obj) by (destruct (fallback p); apply Hnew);
    destruct (Setup w v p op e o) as [v' status_] end.
  cbn [fst] in Hs. rewrite Hv in Hs.
  pose proof (AddEntryVersion_kind st v' status_) as Hk.
  destruct (AddEntryVersion w st v' status_) as [[[n|] s] st']; [|done].
  cbn [fst snd] in Hk. rewrite bool_decide_eq_false_2; [done|].
  rewrite (Hk n eq_refl). congruence.
Qed.
End lock_runs.

(* ===================================================================== *)
(** * The modification of an object with retries                           *)
(* ===================================================================== *)

Section modify.
Import resources.
Context {D S : Type} (resource : @Internal D S).

Lemma modify_loop_calls (cnt : nat) (status_only : bool) (modifier : Modifier)
    (data : D) (lasterr : option Error) (r : Run) :
  exists new,
    calls (modify_loop resource cnt status_only modifier data lasterr r).2
    = calls r ++ new
    /\ forallb (allowed_call status_only false) new = true
    /\ (length (List.filter is_update new) <= cnt)%nat.
Proof.
  revert data lasterr r. induction cnt as [|cnt IH]; intros data lasterr r.
  - exists []. simpl. rewrite app_nil_r. split; [done|]. split; [done|lia].
  - simpl. destruct (modifier data) as [[mod_ err] data'].
    destruct mod_; simpl.
    2:{ exists []. rewrite app_nil_r. split; [done|]. split; [done|simpl; lia]. }
    destruct err as [err|].
    { exists []. rewrite app_nil_r. split; [done|]. split; [done|simpl; lia]. }
    set (c := if status_only then CallUpdateStatus data' else CallUpdate data').
    assert (Hc : allowed_call status_only false c = true /\ is_update c = true).
    { subst c. by destruct status_only. }
    destruct Hc as [Hc1 Hc2].
    destruct (if status_only then I_updateStatus resource data' (cluster r)
              else I_update resource data' (cluster r)) as [[modified le] s].
    destruct le as [e|].
    2:{ exists [c]. simpl. rewrite Hc1, Hc2. split; [done|]. split; [done|simpl; lia]. }
    destruct (IsConflict e); simpl.
    2:{ exists [c]. simpl. rewrite Hc1, Hc2. split; [done|]. split; [done|simpl; lia]. }
    destruct (I_get resource data' s) as [[gerr data''] s'].
    destruct gerr as [g|].
    { exists [c; CallGet]. simpl. rewrite Hc1, Hc2, <- app_assoc.
      split; [done|]. split; [done|simpl; lia]. }
    destruct (IH data'' (Some e) (called CallGet s' (called c s r)))
      as (new & Hn & Ha & Hl).
    exists (c :: CallGet :: new). rewrite Hn. simpl.
    rewrite Hc1, Hc2, <- !app_assoc. split; [done|]. split; [done|simpl; lia].
Qed.

Lemma allowed_call_create (status_only create : bool) (new : list (@Call D)) :
  forallb (allowed_call status_only false) new = true ->
  forallb (allowed_call status_only create) new = true.
Proof.
  rewrite !forallb_forall. intros H c Hc. specialize (H c Hc).
  destruct c; try done.
Qed.

(** X1.  I_modify makes at most ten update calls, all of them to the
    endpoint that [status_only] selects (update or update of the status,
    never the other one), and creates only when [create] is set. *)
Theorem I_modify_calls (status_only create : bool) (modifier : Modifier)
    (r : Run) :
  exists new,
    calls (I_modify resource status_only create modifier r).2 = calls r ++ new
    /\ forallb (allowed_call status_only create) new = true
    /\ (length (List.filter is_update new) <= 10)%nat.
Proof.
  unfold I_modify. destruct create.
  2:{ apply modify_loop_calls. }
  destruct (I_get resource (ObjectData r) (cluster r)) as [[err data] s].
  destruct err as [e|].
  2:{ destruct (modify_loop_calls 10 status_only modifier data None
                  (called CallGet s r)) as (new & Hn & Ha & Hl).
      exists (CallGet :: new). rewrite Hn. simpl. rewrite <- app_assoc.
      split; [done|]. split; [by apply allowed_call_create|done]. }
  destruct (IsNotFound e); cbn [negb].
  2:{ exists [CallGet]. split; [done|]. split; [done|simpl; lia]. }
  destruct (modifier data) as [[m merr] data'].
  destruct merr as [me|].
  { exists [CallGet]. split; [done|]. split; [done|simpl; lia]. }
  destruct (I_create resource data' _) as [[created cerr] s'].
  destruct cerr as [ce|].
  2:{ exists [CallGet; CallCreate data']. simpl. rewrite <- app_assoc.
      split; [done|]. split; [done|simpl; lia]. }
  destruct (IsAlreadyExists ce); cbn [negb].
  2:{ exists [CallGet; CallCreate data']. simpl. rewrite <- app_assoc.
      split; [done|]. split; [done|simpl; lia]. }
  destruct (I_get resource data' _) as [[gerr data''] s''].
  destruct gerr as [ge|].
  { exists [CallGet; CallCreate data'; CallGet]. simpl. rewrite <- !app_assoc.
    split; [done|]. split; [done|simpl; lia]. }
  match goal with
  | |- context [modify_loop _ ?c ?so ?m ?d ?le ?r0] =>
      destruct (modify_loop_calls c so m d le r0) as (new & Hn & Ha & Hl)
  end.
  exists (CallGet :: CallCreate data' :: CallGet :: new). rewrite Hn. simpl.
  rewrite <- !app_assoc. split; [done|].
  split; [by apply allowed_call_create|done].
Qed.

Lemma modify_loop_object (cnt : nat) (status_only : bool) (modifier : Modifier)
    (data : D) (lasterr : option Error) (r : Run) :
  let res := modify_loop resource cnt status_only modifier data lasterr r in
  (cnt <> 0%nat \/ lasterr <> None) ->
  (res.1.1 = true /\ res.1.2 = None ->
     exists pre c, calls res.2 = calls r ++ pre ++ [c] /\ is_write c = true)
  /\ (res.1.1 = false \/ res.1.2 <> None -> ObjectData res.2 = ObjectData r).
Proof.
  revert data lasterr r. induction cnt as [|cnt IH]; intros data lasterr r; simpl.
  - intros [H|H]; [done|]. split; [intros [_ E]; done|done].
  - intros _. destruct (modifier data) as [[mod_ err] data'].
    destruct mod_; simpl.
    2:{ split; [intros [E _]; done|done]. }
    destruct err as [err|].
    { split; [intros [_ E]; done|done]. }
    set (c := if status_only then CallUpdateStatus data' else CallUpdate data').
    assert (Hc : is_write c = true) by (subst c; by destruct status_only).
    destruct (if status_only then I_updateStatus resource data' (cluster r)
              else I_update resource data' (cluster r)) as [[modified le] s].
    destruct le as [e|].
    2:{ simpl. split.
        - intros _. exists [], c. done.
        - intros [E|E]; done. }
    destruct (IsConflict e); simpl.
    2:{ split; [intros [_ E]; done|done]. }
    destruct (I_get resource data' s) as [[gerr data''] s'].
    destruct gerr as [g|].
    { split; [intros [_ E]; done|done]. }
    destruct (IH data'' (Some e) (called CallGet s' (called c s r)))
      as [I1 I2]; [by right|].
    split.
    + intros E. destruct (I1 E) as (pre & c' & Hcalls & Hw).
      exists (c :: CallGet :: pre), c'. rewrite Hcalls. simpl.
      by rewrite <- !app_assoc.
    + intros E. by rewrite (I2 E).
Qed.

(** X2.  I_modify replaces the object's data only when it reports a
    modification without error, and it reports that only after a write to
    the cluster as its last call. *)
Theorem I_modify_object (status_only create : bool) (modifier : Modifier)
    (r : Run) :
  let res := I_modify resource status_only create modifier r in
  (res.1.1 = true /\ res.1.2 = None ->
     exists pre c, calls res.2 = calls r ++ pre ++ [c] /\ is_write c = true)
  /\ (res.1.1 = false \/ res.1.2 <> None -> ObjectData res.2 = ObjectData r).
Proof.
  unfold I_modify. destruct create.
  2:{ apply modify_loop_object. by left. }
  destruct (I_get resource (ObjectData r) (cluster r)) as [[err data] s].
  destruct err as [e|].
  2:{ destruct (modify_loop_object 10 status_only modifier data None
                  (called CallGet s r)) as [I1 I2]; [by left|].
      split.
      - intros E. destruct (I1 E) as (pre & c & Hc & Hw).
        exists (CallGet :: pre), c. rewrite Hc. simpl. by rewrite <- app_assoc.
      - intros E. by rewrite (I2 E). }
  destruct (IsNotFound e); cbn [negb].
  2:{ split; [intros [E _]; done|done]. }
  destruct (modifier data) as [[m merr] data'].
  destruct merr as [me|].
  { split; [intros [E _]; done|done]. }
  destruct (I_create resource data' _) as [[created cerr] s'].
  destruct cerr as [ce|].
  2:{ simpl. split.
      - intros _. exists [CallGet], (CallCreate data'). simpl.
        by rewrite <- app_assoc.
      - intros [E|E]; done. }
  destruct (IsAlreadyExists ce); cbn [negb].
  2:{ split; [intros [E _]; done|done]. }
  destruct (I_get resource data' _) as [[gerr data''] s''].
  destruct gerr as [ge|].
  { split; [intros [E _]; done|done]. }
  match goal with
  | |- context [modify_loop _ ?c ?so ?m ?d ?le ?r0] =>
      destruct (modify_loop_object c so m d le r0) as [I1 I2]; [by left|]
  end.
  split.
  - intros E. destruct (I1 E) as (pre & c & Hc & Hw).
    exists (CallGet :: CallCreate data' :: CallGet :: pre), c. rewrite Hc. simpl.
    by rewrite <- !app_assoc.
  - intros E. by rewrite (I2 E).
Qed.

Lemma modify_loop_conflicts (cnt : nat) (status_only : bool) (modifier : Modifier)
    (data : D) (lasterr : option Error) (r : Run) :
  (forall d, exists d', modifier d = (true, None, d')) ->
  (forall d s, exists d' e s',
      endpoint resource status_only d s = (d', Some e, s')
      /\ IsConflict e = true) ->
  (forall d s, exists d' s', I_get resource d s = (None, d', s')) ->
  let res := modify_loop resource cnt status_only modifier data lasterr r in
  res.1.1 = true
  /\ (cnt <> 0%nat -> exists e, res.1.2 = Some e /\ IsConflict e = true)
  /\ (cnt = 0%nat -> res.1.2 = lasterr)
  /\ ObjectData res.2 = ObjectData r
  /\ exists new, calls res.2 = calls r ++ new
       /\ length new = (2 * cnt)%nat
       /\ length (List.filter is_update new) = cnt
       /\ forall i c, new !! i = Some c ->
            if Nat.even i then is_update c = true else c = CallGet.
Proof.
  intros Hm Hu Hg. revert data lasterr r.
  induction cnt as [|cnt IH]; intros data lasterr r; simpl.
  - split; [done|]. split; [done|]. split; [done|]. split; [done|].
    exists []. by rewrite app_nil_r.
  - destruct (Hm data) as [data' ->]. simpl.
    set (c := if status_only then CallUpdateStatus data' else CallUpdate data').
    assert (Hc : is_update c = true) by (subst c; by destruct status_only).
    destruct (Hu data' (cluster r)) as (m & e & s & He & Hconf).
    unfold endpoint in He.
    assert (He' : (if status_only then I_updateStatus resource data' (cluster r)
                   else I_update resource data' (cluster r)) = (m, Some e, s)).
    { by destruct status_only. }
    rewrite He'. rewrite Hconf. simpl.
    destruct (Hg data' s) as (data'' & s' & ->).
    destruct (IH data'' (Some e) (called CallGet s' (called c s r)))
      as (I1 & I2 & I3 & I4 & new & I5 & I6 & I7 & I8).
    split; [exact I1|]. split.
    { intros _. destruct cnt as [|cnt'].
      - exists e. split; [by apply I3|done].
      - by apply I2. }
    split; [done|]. split; [by rewrite I4|].
    exists (c :: CallGet :: new). rewrite I5. simpl. rewrite <- !app_assoc.
    split; [done|]. rewrite Hc. simpl. split; [lia|]. split; [lia|].
    intros [|[|i]] c' Hi.
    + injection Hi as <-. exact Hc.
    + by injection Hi as <-.
    + exact (I8 i c' Hi).
Qed.

(** X3.  When the modifier always modifies, every update conflicts and
    every read succeeds, I_modify gives up after ten updates, each followed
    by a read (twenty calls, updates and reads in turn): it reports a modification together with a conflict error and
    leaves the object's data as it was. *)
Theorem I_modify_gives_up (status_only : bool) (modifier : Modifier) (r : Run) :
  (forall d, exists d', modifier d = (true, None, d')) ->
  (forall d s, exists d' e s',
      endpoint resource status_only d s = (d', Some e, s')
      /\ IsConflict e = true) ->
  (forall d s, exists d' s', I_get resource d s = (None, d', s')) ->
  let res := I_modify resource status_only false modifier r in
  res.1.1 = true
  /\ (exists e, res.1.2 = Some e /\ IsConflict e = true)
  /\ ObjectData res.2 = ObjectData r
  /\ exists new, calls res.2 = calls r ++ new
       /\ length new = 20%nat
       /\ length (List.filter is_update new) = 10%nat
       /\ forall i c, new !! i = Some c ->
            if Nat.even i then is_update c = true else c = CallGet.
Proof.
  intros Hm Hu Hg res. subst res. unfold I_modify.
  destruct (modify_loop_conflicts 10 status_only modifier (ObjectData r) None r
              Hm Hu Hg) as (I1 & I2 & _ & I4 & I5).
  split; [exact I1|]. split; [by apply I2|]. split; [exact I4|exact I5].
Qed.

End modify.

Lemma I_modify_gives_up_witness :
  let r := {| resources.ObjectData := 7; resources.cluster := 0;
              resources.calls := [] |} in
  let res := resources.I_modify contended false false
               (fun d => (true, None, d + 1)) r in
  res.1.1 = true
  /\ (exists e, res.1.2 = Some e /\ resources.IsConflict e = true)
  /\ resources.ObjectData res.2 = 7
  /\ exists new, resources.calls res.2 = [] ++ new
       /\ length new = 20%nat
       /\ length (List.filter is_update new) = 10%nat
       /\ forall i c, new !! i = Some c ->
            if Nat.even i then is_update c = true
            else c = resources.CallGet.
Proof.
  intros r res.
  apply (I_modify_gives_up contended false (fun d => (true, None, d + 1)) r).
  - intros d. eexists. reflexivity.
  - intros d s. eexists _, _, _. split; reflexivity.
  - intros d s. eexists _, _. reflexivity.
Defined.

(* ===================================================================== *)
(** * The targets of a service                                             *)
(* ===================================================================== *)

Section service_targets.
Import service.

Lemma add_ingress_spec (set : gset string) (i : LoadBalancerIngress) (x : string) :
  x ∈ add_ingress set i <-> x ∈ set \/ targets i x.
Proof.
  unfold add_ingress, targets, Add.
  destruct (String.eqb_spec (Hostname i) "") as [Hh|Hh];
    destruct (String.eqb_spec (IP i) "") as [Hi|Hi]; simpl.
  - split; [tauto|]. intros [H|[Hx [H|[_ H]]]]; [done|congruence|congruence].
  - rewrite elem_of_union, elem_of_singleton. split.
    + intros [->|H]; [right; split; [done|by left]|by left].
    + intros [H|[Hx [H|[H _]]]]; [by right|by left|congruence].
  - rewrite elem_of_union, elem_of_singleton. split.
    + intros [->|H]; [right; split; [done|by right]|by left].
    + intros [H|[Hx [H|[_ H]]]]; [by right|congruence|by left].
  - rewrite elem_of_union, elem_of_singleton. split.
    + intros [->|H]; [right; split; [done|by left]|by left].
    + intros [H|[Hx [H|[H _]]]]; [by right|by left|congruence].
Qed.

(** X4.  For a service of type LoadBalancer GetTargets returns, without
    error, the set that holds for every ingress its IP when that is not
    empty and otherwise its host name when that is not empty; the empty
    string is never a target. *)
Theorem GetTargets_load_balancer (svc : Service) (names : gset string) :
  Type_ svc = ServiceTypeLoadBalancer ->
  exists set,
    GetTargets svc names = (Some set, None, None)
    /\ forall x, x ∈ set <-> exists i, In i (Ingress svc) /\ targets i x.
Proof.
  intros Ht. unfold GetTargets. rewrite Ht. simpl.
  eexists. split; [reflexivity|].
  assert (G : forall l (acc : gset string) x,
             x ∈ fold_left add_ingress l acc
             <-> x ∈ acc \/ exists i, In i l /\ targets i x).
  { induction l as [|i l IH]; intros acc x; simpl.
    - split; [by left|]. intros [H|(i & [] & _)]. done.
    - rewrite IH, add_ingress_spec. split.
      + intros [[H|H]|(j & Hj & Hx)].
        * by left.
        * right. exists i. split; [by left|done].
        * right. exists j. split; [by right|done].
      + intros [H|(j & [<-|Hj] & Hx)].
        * left. by left.
        * left. by right.
        * right. by exists j. }
  intros x. rewrite G. split; [|by right].
  intros [H|H]; [|done]. by apply not_elem_of_empty in H.
Qed.

End service_targets.

Lemma GetTargets_load_balancer_witness :
  exists set,
    service.GetTargets
      {| service.Type_ := "LoadBalancer";
         service.Ingress := [ {| service.Hostname := "lb.example.com";
                                 service.IP := "" |};
                              {| service.Hostname := "ignored.example.com";
                                 service.IP := "10.0.0.1" |};
                              {| service.Hostname := ""; service.IP := "" |} ] |}
      ∅ = (Some set, None, None)
    /\ forall x, x ∈ set <->
         exists i,
           In i [ {| service.Hostname := "lb.example.com"; service.IP := "" |};
                  {| service.Hostname := "ignored.example.com";
                     service.IP := "10.0.0.1" |};
                  {| service.Hostname := ""; service.IP := "" |} ]
           /\ targets i x.
Proof.
  apply (GetTargets_load_balancer
           {| service.Type_ := "LoadBalancer";
              service.Ingress := [ {| service.Hostname := "lb.example.com";
                                      service.IP := "" |};
                                   {| service.Hostname := "ignored.example.com";
                                      service.IP := "10.0.0.1" |};
                                   {| service.Hostname := ""; service.IP := "" |} ] |}
           ∅).
  reflexivity.
Defined.

(* ===================================================================== *)
(** * The attribute lookup on a plain record set                           *)
(* ===================================================================== *)

Section attributes.

Lemma length_append (a b : string) :
  String.length (a +:+ b) = (String.length a + String.length b)%nat.
Proof. induction a as [|c a IH]; simpl; [done|]. by rewrite IH. Qed.

Lemma prefix_append (p x : string) : String.prefix p (p +:+ x) = true.
Proof.
  induction p as [|a p IH]; simpl; [by destruct x|].
  destruct (ascii_dec a a); [done|congruence].
Qed.

Lemma substring_skip (p s : string) (n : nat) :
  substring (String.length p) n (p +:+ s) = substring 0 n s.
Proof. induction p as [|a p IH]; simpl; [done|]. exact IH. Qed.

Lemma substring_take (v x : string) :
  substring 0 (String.length v) (v +:+ x) = v.
Proof.
  induction v as [|a v IH]; simpl; [by destruct x|]. by rewrite IH.
Qed.

Lemma slice_attr (p v : string) (c : ascii) :
  Go.slice (p +:+ v +:+ String c "") (Go.len p)
           (Go.len (p +:+ v +:+ String c "") - 1) = Some v.
Proof.
  unfold Go.slice, Go.len. rewrite !length_append. simpl String.length.
  assert (C : (0 <=? Z.of_nat (String.length p))
              && (Z.of_nat (String.length p)
                  <=? Z.of_nat (String.length p + (String.length v + 1)) - 1)
              && (Z.of_nat (String.length p + (String.length v + 1)) - 1
                  <=? Z.of_nat (String.length p + (String.length v + 1)))
              = true).
  { rewrite !andb_true_iff, !Z.leb_le. lia. }
  rewrite C. f_equal.
  replace (Z.to_nat (Z.of_nat (String.length p))) with (String.length p) by lia.
  replace (Z.to_nat (Z.of_nat (String.length p + (String.length v + 1)) - 1
                     - Z.of_nat (String.length p)))
    with (String.length v) by lia.
  rewrite substring_skip. apply substring_take.
Qed.

(** X5.  GetAttr is decided by the first record whose value starts with
    the attribute's key prefix: when the records before it do not start
    with the prefix and its value is the prefix, a text and one more byte,
    the text is returned, whatever records follow; when no record starts
    with the prefix the result is the empty string. *)
Theorem GetAttr_first_match (pre : direct.RecordSet) (name : string) :
  Forall (other_attr name) pre ->
  direct.GetAttr pre name = Some ""
  /\ forall (r : direct.plainRecord) (post : direct.RecordSet) (v : string)
            (c : ascii),
       direct.GetValue r = direct.newAttrKeyPrefix name +:+ v +:+ String c "" ->
       direct.GetAttr (pre ++ r :: post) name = Some v.
Proof.
  induction 1 as [|r0 pre H0 Hpre [IH1 IH2]]; simpl.
  - split; [done|]. intros r post v c Hv. rewrite Hv.
    unfold Go.HasPrefix. rewrite prefix_append. apply slice_attr.
  - unfold other_attr in H0. rewrite H0. split; [exact IH1|exact IH2].
Qed.

End attributes.

Lemma GetAttr_first_match_witness :
  direct.GetAttr [ examples.txt "lockid=A" ] "ts" = Some ""
  /\ direct.GetAttr ([ examples.txt "lockid=A" ]
                     ++ examples.txt "ts=100" :: [ examples.txt "ts=200" ]) "ts"
     = Some "100".
Proof.
  destruct (GetAttr_first_match [ examples.txt "lockid=A" ] "ts") as [H1 H2].
  - repeat constructor.
  - split; [exact H1|].
    apply (H2 (examples.txt "ts=100") [ examples.txt "ts=200" ] "100" Go.dquote).
    reflexivity.
Defined.

(* ===================================================================== *)
(** * The record set without records                                       *)
(* ===================================================================== *)

(** X6.  A record set without records does not survive the conversion to
    the plain form and back: the result is the empty name and nil exactly
    when the record set has no records. *)
Theorem empty_recordset_roundtrip (intSize : Z) (d : string) (rs : dns.RecordSet) :
  direct.ToPlainRecordset (direct.FromPlainRecordSet intSize d rs) = ("", None)
  <-> dns.Records rs = [].
Proof.
  rewrite FromPlainRecordSet_map.
  destruct (dns.Records rs) as [|r0 l]; simpl; [done|].
  split; intros H; discriminate.
Qed.

(* ===================================================================== *)
(** * The status written by the refresh of the locks                       *)
(* ===================================================================== *)

Section refresh_status.
Import provider.
Context (w : World).

Lemma EqualAttrs_sound (a b : gmap string string) :
  EqualAttrs a b = true -> a = b.
Proof.
  unfold EqualAttrs.
  destruct (Z.eqb_spec (Z.of_nat (size a)) (Z.of_nat (size b))) as [Hs|Hs];
    simpl; [|done].
  intros H. apply bool_decide_eq_true in H.
  apply map_subseteq_size_eq; [|lia].
  apply map_subseteq_spec. intros k v Hk. by apply (H k v).
Qed.

Lemma EqualAttrs_refl (a : gmap string string) : EqualAttrs a a = true.
Proof.
  unfold EqualAttrs. rewrite Z.eqb_refl. simpl. apply bool_decide_eq_true.
  by intros k v Hk.
Qed.

(** X7.  EqualAttrs holds exactly for equal maps. *)
Theorem EqualAttrs_eq (a b : gmap string string) :
  EqualAttrs a b = true <-> a = b.
Proof.
  split.
  - apply EqualAttrs_sound.
  - intros ->. apply EqualAttrs_refl.
Qed.

Lemma AssureTimestamp_target (target : option Go.Time) (ts : Go.Time) :
  (AssureTimestamp target ts).1 = (if Go.IsZero ts then None else Some ts).
Proof. unfold AssureTimestamp. by destruct (Go.IsZero ts). Qed.

Lemma AssureTimestamp_exact (target : option Go.Time) (ts : Go.Time) :
  (AssureTimestamp target ts).2 = false <-> (AssureTimestamp target ts).1 = target.
Proof.
  unfold AssureTimestamp. destruct (Go.IsZero ts); simpl.
  - rewrite bool_decide_eq_false. split.
    + intros H. apply dec_stable in H. by symmetry.
    + intros <- H. by apply H.
  - destruct target as [t|]; [|done]. unfold Go.Equal.
    destruct (Z.eqb_spec t ts) as [->|Hne]; simpl; [done|].
    split; [done|]. intros E. congruence.
Qed.

Lemma AssureTimestamp_again (target : option Go.Time) (ts : Go.Time) :
  AssureTimestamp (AssureTimestamp target ts).1 ts
  = ((AssureTimestamp target ts).1, false).
Proof.
  unfold AssureTimestamp. destruct (Go.IsZero ts); simpl; [done|].
  unfold Go.Equal. by rewrite Z.eqb_refl.
Qed.

(** X8.  AssureTimestamp reports a modification exactly when the target
    changes; the target becomes nil for the zero time and the given time
    otherwise, so that a second call with the same time reports none. *)
Theorem AssureTimestamp_change (target : option Go.Time) (ts : Go.Time) :
  let r := AssureTimestamp target ts in
  (r.2 = true <-> r.1 <> target)
  /\ r.1 = (if Go.IsZero ts then None else Some ts)
  /\ AssureTimestamp r.1 ts = (r.1, false).
Proof.
  intros r.
  split; [|split; [apply AssureTimestamp_target|apply AssureTimestamp_again]].
  pose proof (AssureTimestamp_exact target ts) as E. fold r in E.
  destruct r as [t' m]. simpl in *. destruct m.
  - split; [|done]. intros _ Heq. apply E in Heq. discriminate.
  - split; [done|]. intros Hne. exfalso. apply Hne. by apply E.
Qed.

Lemma observed_status_exact (ts ff : Go.Time) (attrs : gmap string string)
    (o : Object) :
  (observed_status ts ff attrs o).2 = false <-> (observed_status ts ff attrs o).1 = o.
Proof.
  unfold observed_status.
  pose proof (AssureTimestamp_exact (oStatusTimestamp o) ts) as E1.
  pose proof (AssureTimestamp_exact (oFirstFailedDNSLookup o) ff) as E4.
  assert (E5 : EqualAttrs attrs (oAttributes o) = true <-> attrs = oAttributes o).
  { split; [apply EqualAttrs_sound|intros ->; apply EqualAttrs_refl]. }
  destruct (AssureTimestamp (oStatusTimestamp o) ts) as [ts' m1].
  destruct (AssureTimestamp (oFirstFailedDNSLookup o) ff) as [ff' m4].
  simpl in E1, E4.
  set (sm := if negb (Go.IsZero ff)
             then (STATE_STALE, MsgText "DNS record cannot be looked up")
             else (STATE_READY, MsgText "DNS record is set.")).
  destruct sm as [state_ msg]. simpl.
  rewrite !orb_false_iff, negb_false_iff, E1, E4, E5,
    !bool_decide_eq_false.
  destruct o as [n k c d f own dn [s m z pt pr] tx tt li tm sts ffl at_].
  unfold with_status; simpl. split.
  - intros ((((-> & Hs) & Hm) & ->) & ->).
    apply dec_stable in Hs, Hm. by subst.
  - intros H. inversion H; subst. tauto.
Qed.

Lemma observed_status_idem (ts ff : Go.Time) (attrs : gmap string string)
    (o : Object) :
  (observed_status ts ff attrs (observed_status ts ff attrs o).1).1
  = (observed_status ts ff attrs o).1.
Proof.
  unfold observed_status.
  pose proof (AssureTimestamp_again (oStatusTimestamp o) ts) as A1.
  pose proof (AssureTimestamp_again (oFirstFailedDNSLookup o) ff) as A4.
  destruct (AssureTimestamp (oStatusTimestamp o) ts) as [ts' m1].
  destruct (AssureTimestamp (oFirstFailedDNSLookup o) ff) as [ff' m4].
  simpl in A1, A4.
  destruct (negb (Go.IsZero ff)); simpl; rewrite A1, A4; reflexivity.
Qed.

(** X9.  The status modifier of the refresh reports a modification exactly
    when it changes the object, and a second refresh of a lock entry after
    a successful lookup whose status write succeeded changes nothing and
    sends nothing. *)
Theorem refresh_settles (st : state) (p : ptr) (records : list string) :
  LookupTXT_res w (DNSName (deref st p)) = inr records ->
  ModifyStatus_err w (ObjectName_ (deref st p)) = None ->
  let st1 := updateLockState w st p in
  (forall ts ff attrs o,
     (observed_status ts ff attrs o).2 = false
     <-> (observed_status ts ff attrs o).1 = o)
  /\ updateLockState w st1 p = st1.
Proof.
  intros Hl Hm st1. split; [apply observed_status_exact|].
  set (f := observed_status (p_ts (parse_records w records)) Go.zeroTime
              (p_attrs (parse_records w records))).
  assert (Hround : forall s, DNSName (deref s p) = DNSName (deref st p) ->
            updateLockState w s p = (ModifyStatus w p f s).2).
  { intros s Hd. unfold updateLockState, lookup. rewrite Hd, Hl. done. }
  assert (Hidem : forall o, (f (f o).1).2 = false).
  { intros o. subst f. cbv beta. rewrite observed_status_exact.
    apply observed_status_idem. }
  subst st1. rewrite (Hround st eq_refl).
  remember (ModifyStatus w p f st).2 as s1 eqn:Hs1.
  assert (Hs : DNSName (deref s1 p) = DNSName (deref st p)
               /\ (f (Object_ (deref s1 p))).2 = false).
  { unfold ModifyStatus in Hs1.
    pose proof (Hidem (Object_ (deref st p))) as Hi.
    destruct (f (Object_ (deref st p))) as [o' m] eqn:Ef.
    destruct m.
    - unfold ObjectName_, vObjectName in Hm. unfold Object_ in Hs1.
      rewrite Hm in Hs1. cbn [snd] in Hs1. subst s1.
      unfold deref, store. simpl. rewrite lookup_total_insert_eq.
      split; [done|exact Hi].
    - cbn [snd] in Hs1. subst s1. split; [done|]. by rewrite Ef. }
  destruct Hs as [Hd Hf]. rewrite (Hround s1 Hd). unfold ModifyStatus.
  destruct (f (Object_ (deref s1 p))) as [o'' m']. simpl in Hf. by subst m'.
Qed.

(** X10.  The attributes collected from the TXT strings of a lookup never
    hold the timestamp key: its value goes to the timestamp, or is dropped
    when it is not a number. *)
Theorem timestamp_not_an_attribute (records : list string) :
  p_attrs (parse_records w records) !! ATTR_TIMESTAMP w = None.
Proof.
  unfold parse_records.
  assert (G : forall l acc, p_attrs acc !! ATTR_TIMESTAMP w = None ->
             p_attrs (fold_left (parse_record w) l acc) !! ATTR_TIMESTAMP w = None).
  { induction l as [|r l IH]; intros acc Hacc; simpl; [done|].
    apply IH. unfold parse_record.
    destruct (record_fields w (p_unnamed acc) r) as [[key val] unnamed].
    destruct (String.eqb_spec key (ATTR_TIMESTAMP w)) as [->|Hne].
    - by destruct (Go.ParseInt val) as [i [e|]].
    - simpl. by rewrite lookup_insert_ne. }
  apply G. done.
Qed.

End refresh_status.

Lemma refresh_settles_witness :
  let w := examples.world (inr [ "lockid=A"; "ts=100" ]) (inr None) None 0 in
  let st := examples.lock_state
              (examples.lock_object "default/lock" "A" 100 provider.STATE_STALE
                 None false) false 0 in
  let st1 := provider.updateLockState w st 1%positive in
  provider.updateLockState w st1 1%positive = st1.
Proof.
  intros w st st1.
  apply (refresh_settles w st 1%positive [ "lockid=A"; "ts=100" ]).
  - reflexivity.
  - reflexivity.
Defined.

(* ===================================================================== *)
(** * The comparison of the desired with the observed lock record          *)
(* ===================================================================== *)

Section lock_comparison.
Import provider.

(** X11.  For a desired record set without repeated values and a non-empty
    observed one, the comparison in checkAndUpdateLock finds no change
    exactly when both have the same set of values and every desired record
    has the TTL of the first observed record. *)
Theorem lock_changed_spec (newRS rs : direct.RecordSet) (r0 : direct.plainRecord)
    (rest : direct.RecordSet) :
  rs = r0 :: rest ->
  NoDup (map direct.GetValue newRS) ->
  lock_changed newRS rs = false
  <-> (list_to_set (map direct.GetValue newRS) : gset string)
      = list_to_set (map direct.GetValue rs)
      /\ Forall (fun r => direct.GetTTL r = direct.GetTTL r0) newRS.
Proof.
  intros -> Hnd. unfold lock_changed.
  set (old := list_to_set (map direct.GetValue (r0 :: rest)) : gset string).
  set (new := list_to_set (map direct.GetValue newRS) : gset string).
  assert (Hsz : size new = length newRS).
  { subst new. rewrite size_list_to_set by done. by rewrite length_map. }
  assert (Hex : existsb (fun r => negb (bool_decide (direct.GetValue r ∈ old))
                                  || negb (direct.GetTTL r0 =? direct.GetTTL r))
                        newRS = false
                <-> new ⊆ old
                    /\ Forall (fun r => direct.GetTTL r = direct.GetTTL r0) newRS).
  { subst new. clear Hsz Hnd. induction newRS as [|r l IH]; simpl.
    - split; [intros _; split; [apply empty_subseteq|constructor]|done].
    - rewrite orb_false_iff, IH, orb_false_iff, !negb_false_iff,
        bool_decide_eq_true, Z.eqb_eq, union_subseteq, singleton_subseteq_l,
        Forall_cons.
      split.
      + intros [[Hin Ht] [Hsub Hall]]. by repeat split.
      + intros [[Hin Hsub] [Ht Hall]]. by repeat split. }
  destruct (Z.eqb_spec (Z.of_nat (length newRS)) (Z.of_nat (size old))) as [Hl|Hl].
  - rewrite Hex. split.
    + intros [Hsub Hall]. split; [|exact Hall].
      apply set_subseteq_size_eq; [exact Hsub|lia].
    + intros [Heq Hall]. split; [by rewrite Heq|exact Hall].
  - split; [done|]. intros [Heq _]. rewrite <- Heq in Hl. lia.
Qed.

End lock_comparison.

Lemma lock_changed_spec_witness :
  provider.lock_changed [ examples.txt "lockid=A"; examples.txt "ts=100" ]
                        [ examples.txt "ts=100"; examples.txt "lockid=A" ] = false.
Proof.
  apply (lock_changed_spec [ examples.txt "lockid=A"; examples.txt "ts=100" ]
           [ examples.txt "ts=100"; examples.txt "lockid=A" ]
           (examples.txt "ts=100") [ examples.txt "lockid=A" ]).
  - reflexivity.
  - apply NoDup_cons. split; [|apply NoDup_cons; split; [|apply NoDup_nil_2]].
    + intros H. apply list_elem_of_In in H. simpl in H.
      destruct H as [H|[]]. discriminate.
    + intros H. apply list_elem_of_In in H. destruct H.
  - split.
    + apply set_eq. intros x. rewrite !elem_of_list_to_set. simpl.
      rewrite !elem_of_cons. rewrite elem_of_nil. tauto.
    + repeat constructor.
Defined.

(* ===================================================================== *)
(** * The indexes stay well formed                                         *)
(* ===================================================================== *)

Section invariants.
Import provider.
Context (w : World).

Lemma names_kept_mem (st st' : state) : mem st' = mem st -> names_kept st st'.
Proof. intros H q Hq. unfold deref. rewrite H. done. Qed.

Lemma names_kept_store (st : state) (p : ptr) (e : Entry) :
  (is_Some (mem st !! p) ->
   ObjectName_ e = ObjectName_ (deref st p) /\ DNSName e = DNSName (deref st p)) ->
  names_kept st (store p e st).
Proof.
  intros H q Hq. unfold store, deref. simpl.
  destruct (decide (q = p)) as [->|Hne].
  - rewrite lookup_insert_eq, lookup_total_insert_eq.
    split; [by eexists|]. by apply H.
  - rewrite lookup_insert_ne, lookup_total_insert_ne by done. done.
Qed.

Lemma indexes_shrink_same (st st' : state) :
  entries st' = entries st -> dnsnames st' = dnsnames st -> indexes_shrink st st'.
Proof. intros He Hd. split; intros ? ?; by rewrite ?He, ?Hd. Qed.

Lemma wf_shrink (st st' : state) :
  state_wf st -> names_kept st st' -> indexes_shrink st st' -> state_wf st'.
Proof.
  intros [Hi Hc] Hk [He Hd]. split.
  - intros n p Hn. apply He in Hn. destruct (Hi n p Hn) as [Ha Hname].
    destruct (Hk p Ha) as (A & B & C). split; [done|]. by rewrite B.
  - intros d c Hn. apply Hd in Hn. destruct (Hc d c Hn) as [Ha Hname].
    destruct (Hk c Ha) as (A & B & C). split; [done|]. by rewrite C.
Qed.

Lemma wf_index_insert (st : state) (n : ObjectName) (p : ptr) :
  state_wf st -> is_Some (mem st !! p) -> ObjectName_ (deref st p) = n ->
  state_wf (with_entries (<[n := p]> (entries st)) st).
Proof.
  intros [Hi Hc] Ha Hn. split; [|exact Hc].
  intros n' p' H. simpl in H.
  apply lookup_insert_Some in H as [[<- <-]|[Hne H]]; [by split|].
  by apply Hi.
Qed.

Lemma wf_claim_insert (st : state) (d : string) (p : ptr) :
  state_wf st -> is_Some (mem st !! p) -> DNSName (deref st p) = d ->
  state_wf (with_dnsnames (<[d := p]> (dnsnames st)) st).
Proof.
  intros [Hi Hc] Ha Hn. split; [exact Hi|].
  intros d' p' H. simpl in H.
  apply lookup_insert_Some in H as [[<- <-]|[Hne H]]; [by split|].
  by apply Hc.
Qed.

Lemma cleanupEntry_shrink (st : state) (e : ptr) :
  mem (cleanupEntry w st e) = mem st
  /\ indexes_shrink st (cleanupEntry w st e).
Proof.
  unfold cleanupEntry, indexes_shrink. cbn zeta.
  destruct (decide _) as [Hh|Hh].
  - split; [by destruct (scan _ _ _)|]. split.
    + intros n p H.
      assert (H' : Entries_Delete (entries st) e (ObjectName_ (deref st e)) !! n
                   = Some p) by (by destruct (scan _ _ _)).
      by apply Entries_Delete_lookup in H'.
    + intros d c H.
      assert (H' : delete (DNSName (deref st e)) (dnsnames st) !! d = Some c)
        by (by destruct (scan _ _ _)).
      apply lookup_delete_Some in H'. tauto.
  - split; [done|]. split; [|done].
    intros n p H. by apply Entries_Delete_lookup in H.
Qed.

Lemma cleanupEntry_effect (st : state) (e : ptr) :
  entries (cleanupEntry w st e)
  = Entries_Delete (entries st) e (ObjectName_ (deref st e))
  /\ dnsnames (cleanupEntry w st e)
     = (if decide (dnsnames st !! DNSName (deref st e) = Some e)
        then delete (DNSName (deref st e)) (dnsnames st)
        else dnsnames st)
  /\ blockingEntries (cleanupEntry w st e) = blockingEntries st.
Proof.
  unfold cleanupEntry. cbn zeta.
  change (dnsnames (with_entries ?m ?s)) with (dnsnames s).
  destruct (decide _); [|done]. by destruct (scan _ _ _).
Qed.

Lemma cleanupEntry_wf (st : state) (e : ptr) :
  state_wf st -> state_wf (cleanupEntry w st e).
Proof.
  intros H. destruct (cleanupEntry_shrink st e) as [Hm Hs].
  apply (wf_shrink st); [done|by apply names_kept_mem|done].
Qed.

Lemma install_wf (st : state) (v : EntryVersion) :
  state_wf st ->
  state_wf (install w st v).2
  /\ names_kept st (install w st v).2
  /\ is_Some (mem (install w st v).2 !! (install w st v).1).
Proof.
  intros Hwf.
  assert (Hfresh : mem st !! fresh (dom (mem st)) = None).
  { apply not_elem_of_dom. apply is_fresh. }
  assert (Halloc : forall e,
            state_wf (alloc e st).2 /\ names_kept st (alloc e st).2
            /\ is_Some (mem (alloc e st).2 !! (alloc e st).1)).
  { intros e. unfold alloc. cbn [fst snd].
    assert (K : names_kept st (store (fresh (dom (mem st))) e st)).
    { apply names_kept_store. rewrite Hfresh. intros [? ?]. discriminate. }
    split; [by apply (wf_shrink st)|]. split; [exact K|].
    unfold store. simpl. rewrite lookup_insert_eq. by eexists. }
  unfold install. destruct (entries st !! vObjectName v) as [o|] eqn:Ho.
  - unfold Update.
    destruct (String.eqb_spec (DNSName (deref st o)) (vDNSName v)) as [Hd|Hd].
    + cbn [fst snd].
      set (e := {| version := v; modified := _; activezone := _;
                   updateRequired := _ |}).
      assert (K : names_kept st (store o e st)).
      { apply names_kept_store. intros _. split.
        - destruct Hwf as [Hi _]. destruct (Hi _ _ Ho) as [_ Hn]. by rewrite Hn.
        - by rewrite Hd. }
      split; [by apply (wf_shrink st)|]. split; [exact K|].
      unfold store. simpl. rewrite lookup_insert_eq. by eexists.
    + apply Halloc.
  - apply Halloc.
Qed.

Lemma activate_wf (v : EntryVersion) (new : ptr) (status_ : Status) (st : state) :
  state_wf st -> is_Some (mem st !! new) -> DNSName (deref st new) = vDNSName v ->
  state_wf (activate w v new status_ st).2.
Proof.
  intros Hwf Ha Hd. unfold activate. cbn [snd].
  destruct (_ && _); by apply wf_claim_insert.
Qed.

Lemma arbitrate_wf (v : EntryVersion) (new : ptr) (status_ : Status) (st : state) :
  state_wf st -> is_Some (mem st !! new) -> DNSName (deref st new) = vDNSName v ->
  state_wf (arbitrate w v new status_ st).2.
Proof.
  intros Hwf Ha Hd. unfold arbitrate.
  destruct (negb (String.eqb (vDNSName v) "")); [|exact Hwf].
  destruct (dnsnames st !! vDNSName v) as [c|] eqn:Hc; [|by apply activate_wf].
  destruct (negb (String.eqb (ObjectName_ (deref st c)) (ObjectName_ (deref st new))));
    [|by apply activate_wf].
  destruct (Before (deref st c) (deref st new)).
  - assert (K : state_wf (store new (set_duplicate true false (deref st new)) st)).
    { apply (wf_shrink st); [done| |by apply indexes_shrink_same].
      apply names_kept_store. by intros _. }
    destruct (IsSucceeded status_); [|exact K].
    unfold UpdateStatus. by destruct (UpdateStatus_err w _ _ _).
  - set (st1 := store c (set_duplicate true false (deref st c)) st).
    assert (K : names_kept st st1).
    { apply names_kept_store. by intros _. }
    destruct (K new Ha) as (A1 & _ & A2).
    apply activate_wf.
    + apply (wf_shrink st); [done|exact K|by apply indexes_shrink_same].
    + exact A1.
    + change (deref (triggerKey _ st1) new) with (deref st1 new). by rewrite A2.
Qed.

Lemma deleting_return_wf (v : EntryVersion) (new : ptr) (err : option Err)
    (st : state) :
  state_wf st -> is_Some (mem st !! new) ->
  ObjectName_ (deref st new) = vObjectName v ->
  state_wf (deleting_return v new err st).2.
Proof.
  intros Hwf Ha Hn. unfold deleting_return. cbn [snd].
  destruct err; [by apply wf_index_insert|exact Hwf].
Qed.

(** X12.  AddEntryVersion keeps both indexes well formed: afterwards every
    object name in the entries index is still bound to an allocated entry
    of that name, and every DNS name in the dnsnames index to an allocated
    entry with that DNS name. *)
Theorem AddEntryVersion_wf (st : state) (v : EntryVersion) (status_ : Status) :
  state_wf st -> state_wf (AddEntryVersion w st v status_).2.
Proof.
  intros Hwf.
  set (st0 := with_blockingEntries (delete (vObjectName v) (blockingEntries st)) st).
  assert (Hwf0 : state_wf st0) by exact Hwf.
  destruct (install_wf st0 v Hwf0) as (Hwf1 & _ & Hnew).
  destruct (install_spec w st0 v) as (Hver & _).
  destruct (vIsDeleting v) eqn:Hdel.
  - rewrite (deleting_run w st v status_ Hdel). fold st0.
    set (new := (install w st0 v).1) in *. set (st1 := (install w st0 v).2) in *.
    clearbody new st1.
    set (st2 := match entries st0 !! vObjectName v with
                | Some o => if decide (Kind_ (deref st1 o) <> DNSLockKind)
                            then cleanupEntry w st1 o else st1
                | None => st1
                end).
    assert (H2 : state_wf st2 /\ mem st2 = mem st1).
    { subst st2. destruct (entries st0 !! vObjectName v) as [o|]; [|done].
      destruct (decide _); [|done].
      split; [by apply cleanupEntry_wf|apply cleanupEntry_shrink]. }
    destruct H2 as [Hwf2 Hm2]. clearbody st2.
    assert (Hnew2 : is_Some (mem st2 !! new)) by (by rewrite Hm2).
    assert (Hname : ObjectName_ (deref st2 new) = vObjectName v).
    { unfold deref, ObjectName_. rewrite Hm2.
      change (mem st1 !!! new) with (deref st1 new). by rewrite Hver. }
    assert (Hret1 : forall err, state_wf (deleting_return v new err st2).2).
    { intros err. by apply deleting_return_wf. }
    assert (Hret2 : forall err ev,
              state_wf (deleting_return v new err (emit ev st2)).2).
    { intros err ev. by apply deleting_return_wf. }
    destruct (valid (version (deref st2 new))).
    + destruct (decide _).
      * destruct (HasFinalizer _); [exact Hwf2|apply Hret1].
      * destruct (_ || _); [apply Hret2|apply Hret1].
    + destruct (_ || _); [apply Hret2|apply Hret1].
  - rewrite (managed_run w st v status_ Hdel). fold st0.
    set (new := (install w st0 v).1) in *. set (st1 := (install w st0 v).2) in *.
    clearbody new st1.
    set (fin := if valid (version (deref st1 new)) && IsManaging st1 v
                then SetFinalizer w (Object_ (deref st1 new)) st1
                else (None, st1)).
    assert (Hfin : state_wf fin.2 /\ mem fin.2 = mem st1).
    { subst fin. by destruct (_ && _). }
    destruct Hfin as [Hwff Hmf]. clearbody fin.
    destruct fin.1 as [err|]; [exact Hwff|].
    assert (Hnewf : is_Some (mem fin.2 !! new)) by (by rewrite Hmf).
    assert (Hverf : version (deref fin.2 new) = v).
    { unfold deref. rewrite Hmf. exact Hver. }
    set (st3 := with_entries (<[vObjectName v := new]> (entries fin.2)) fin.2).
    assert (Hwf3 : state_wf st3).
    { apply wf_index_insert; [done|done|].
      unfold ObjectName_. by rewrite Hverf. }
    set (st4 := match entries st0 !! vObjectName v with
                | Some o =>
                    if decide (o <> new) then
                      if negb (String.eqb (activezone (deref (cleanupEntry w st3 o) o)) "")
                         && negb (String.eqb (activezone (deref (cleanupEntry w st3 o) o))
                                             (ZoneId (deref (cleanupEntry w st3 o) new)))
                         && bool_decide
                              (is_Some (zones (cleanupEntry w st3 o)
                                          !! activezone (deref (cleanupEntry w st3 o) o)))
                      then triggerHostedZone
                             (activezone (deref (cleanupEntry w st3 o) o))
                             (cleanupEntry w st3 o)
                      else cleanupEntry w st3 o
                    else st3
                | None => st3
                end).
    assert (H4 : state_wf st4 /\ mem st4 = mem fin.2).
    { subst st4. destruct (entries st0 !! vObjectName v) as [o|]; [|done].
      destruct (decide _); [|done].
      destruct (cleanupEntry_shrink st3 o) as [Hmc _].
      destruct (_ && _ && _);
        (split; [by apply cleanupEntry_wf|exact Hmc]). }
    destruct H4 as [Hwf4 Hm4]. clearbody st4.
    destruct (negb (IsManaging st4 v)); [exact Hwf4|].
    apply arbitrate_wf; [exact Hwf4|by rewrite Hm4|].
    unfold deref, DNSName. rewrite Hm4.
    change (mem fin.2 !!! new) with (deref fin.2 new). by rewrite Hverf.
Qed.

Lemma EntryDeleted_run (reg : Registry) (st : state) (key : ClusterKey) :
  exists st1,
    (EntryDeleted w reg st key).2
    = [key]
    /\ (EntryDeleted w reg st key).1.1 = Succeeded
    /\ (EntryDeleted w reg st key).1.2
       = emit (EvNotifyHolder key)
           (match entries st !! key.2 with
            | Some old => cleanupEntry w st1 old
            | None => st1
            end)
    /\ entries st1 = entries st /\ dnsnames st1 = dnsnames st
    /\ mem st1 = mem st
    /\ blockingEntries st1 = delete key.2 (blockingEntries st).
Proof.
  unfold EntryDeleted. cbn [fst snd].
  destruct (entries st !! key.2) as [old|] eqn:Ho.
  - change (entries (with_blockingEntries _ st) !! key.2) with (entries st !! key.2).
    rewrite Ho.
    destruct (lookupProvider reg _) as [[pr fb] er].
    destruct (getProviderZoneForName reg _ pr) as [z|];
      eexists; (split; [reflexivity|]); (split; [reflexivity|]);
      (split; [reflexivity|]); done.
  - change (entries (with_blockingEntries _ st) !! key.2) with (entries st !! key.2).
    rewrite Ho.
    eexists; (split; [reflexivity|]); (split; [reflexivity|]);
      (split; [reflexivity|]); done.
Qed.

(** X13.  EntryDeleted keeps both indexes well formed, reports success and
    unblocks the object name.  When the object name is bound to an entry,
    the binding is removed, the entry holds no DNS name afterwards, and
    the DNS names held by other entries stay with them. *)
Theorem EntryDeleted_removes (reg : Registry) (st : state) (key : ClusterKey) :
  state_wf st ->
  let res := EntryDeleted w reg st key in
  let st' := res.1.2 in
  state_wf st'
  /\ res.1.1 = Succeeded
  /\ blockingEntries st' !! key.2 = None
  /\ forall old, entries st !! key.2 = Some old ->
       entries st' !! key.2 = None
       /\ (forall d, dnsnames st' !! d <> Some old)
       /\ (forall d c, dnsnames st !! d = Some c -> c <> old ->
                       dnsnames st' !! d = Some c).
Proof.
  intros Hwf res st'. subst st' res.
  destruct (EntryDeleted_run reg st key) as (st1 & _ & Hs & Hst & He & Hd & Hm & Hb).
  rewrite Hs, Hst.
  assert (Hwf1 : state_wf st1).
  { apply (wf_shrink st); [done|by apply names_kept_mem|].
    by apply indexes_shrink_same. }
  split.
  { destruct (entries st !! key.2); [by apply cleanupEntry_wf|exact Hwf1]. }
  split; [done|]. split.
  { destruct (entries st !! key.2) as [old|]; cbn [blockingEntries emit].
    - destruct (cleanupEntry_effect st1 old) as (_ & _ & B).
      rewrite B, Hb. apply lookup_delete_eq.
    - rewrite Hb. apply lookup_delete_eq. }
  intros old Ho. rewrite Ho.
  destruct Hwf as [Hi Hc]. destruct (Hi _ _ Ho) as [Ha Hn].
  assert (Hde : deref st1 old = deref st old) by (unfold deref; by rewrite Hm).
  change (entries (emit ?ev ?s)) with (entries s).
  change (dnsnames (emit ?ev ?s)) with (dnsnames s).
  destruct (cleanupEntry_effect st1 old) as (Ee & Ed & _).
  rewrite Ee, Ed, Hde, He, Hd, Hn.
  split.
  { unfold Entries_Delete. rewrite decide_True by done. apply lookup_delete_eq. }
  destruct (decide (dnsnames st !! DNSName (deref st old) = Some old)) as [Hh|Hh].
  - split.
    + intros d H. apply lookup_delete_Some in H as [Hne H].
      destruct (Hc _ _ H) as [_ Hname]. congruence.
    + intros d c Hdc Hne. rewrite lookup_delete_ne; [done|]. intros <-. congruence.
  - split; [|done].
    intros d H. destruct (Hc _ _ H) as [_ Hname]. congruence.
Qed.

End invariants.

Lemma e1_holds_state_wf (z : bool) : state_wf (examples.e1_holds z).
Proof.
  split; [apply e1_holds_wf|].
  intros d c H. unfold examples.e1_holds, examples.state_of in H. simpl in H.
  apply lookup_insert_Some in H as [[<- <-]|[_ H]];
    [split; [eexists; reflexivity|reflexivity]|].
  by rewrite lookup_empty in H.
Qed.

Lemma AddEntryVersion_wf_witness :
  state_wf (provider.AddEntryVersion examples.quiet (examples.e1_holds true)
              examples.e2_version provider.Succeeded).2.
Proof.
  apply (AddEntryVersion_wf examples.quiet (examples.e1_holds true)
           examples.e2_version provider.Succeeded).
  apply e1_holds_state_wf.
Defined.

Lemma EntryDeleted_removes_witness :
  let res := provider.EntryDeleted examples.quiet (examples.registry examples.zone1)
               (examples.e1_holds true) (provider.DNSEntryKind, "default/e1") in
  provider.entries res.1.2 !! "default/e1" = None
  /\ provider.dnsnames res.1.2 !! "www.example.com" <> Some 1%positive.
Proof.
  intros res.
  destruct (EntryDeleted_removes examples.quiet (examples.registry examples.zone1)
              (examples.e1_holds true) (provider.DNSEntryKind, "default/e1")
              (e1_holds_state_wf true)) as (_ & _ & _ & H).
  destruct (H 1%positive eq_refl) as (H1 & H2 & _).
  split; [exact H1|apply H2].
Defined.

(* ===================================================================== *)
(** * AddEntryVersion on a version that is not under deletion              *)
(* ===================================================================== *)

Section managed_versions.
Import provider.
Context (w : World).

Lemma install_allocated (st : state) (v : EntryVersion) :
  is_Some (mem (install w st v).2 !! (install w st v).1).
Proof.
  unfold install, Update, alloc.
  destruct (entries st !! vObjectName v) as [o|];
    [destruct (String.eqb _ _)|]; cbn [fst snd]; unfold store; simpl;
    rewrite lookup_insert_eq; by eexists.
Qed.

(** The run up to the test for a foreign zone, when setting the finalizer
    does not fail. *)
Lemma managed_stage (st : state) (v : EntryVersion) (status_ : Status) :
  vIsDeleting v = false ->
  (valid v = true -> IsManaging st v = true -> SetFinalizer_err w (object v) = None) ->
  exists new st4 pre,
    AddEntryVersion w st v status_
    = (if negb (IsManaging st v) then (None, status_, st4)
       else arbitrate w v new status_ st4)
    /\ version (deref st4 new) = v
    /\ is_Some (mem st4 !! new)
    /\ entries st4 !! vObjectName v = Some new
    /\ (forall d c, dnsnames st4 !! d = Some c -> dnsnames st !! d = Some c)
    /\ typeCodes st4 = typeCodes st
    /\ blockingEntries st4 = delete (vObjectName v) (blockingEntries st)
    /\ events st4 = events st ++ pre
    /\ (forall ev, In ev pre ->
          ev = EvSetFinalizer (vObjectName v)
          \/ (exists k, ev = EvEnqueueKey k)
          \/ exists z, ev = EvTriggerHostedZone z)
    /\ (In (EvSetFinalizer (vObjectName v)) pre
        <-> valid v = true /\ IsManaging st v = true).
Proof.
  intros Hdel Hfin. rewrite (managed_run w st v status_ Hdel).
  set (st0 := with_blockingEntries (delete (vObjectName v) (blockingEntries st)) st).
  destruct (install_spec w st0 v)
    as (Hver & _ & _ & He1 & Hd1 & _ & _ & _ & Ht1 & Hev1).
  pose proof (install_allocated st0 v) as Hnew.
  assert (Hb1 : blockingEntries (install w st0 v).2 = blockingEntries st0).
  { unfold install, Update, alloc.
    destruct (entries st0 !! vObjectName v) as [o|];
      [destruct (String.eqb _ _)|]; done. }
  set (new := (install w st0 v).1) in *. set (st1 := (install w st0 v).2) in *.
  clearbody new st1.
  rewrite Hver. rewrite (IsManaging_typeCodes st1 st v Ht1).
  set (fin := if valid v && IsManaging st v
              then SetFinalizer w (Object_ (deref st1 new)) st1
              else (None, st1)).
  assert (Hf : fin.1 = None
               /\ mem fin.2 = mem st1 /\ entries fin.2 = entries st1
               /\ dnsnames fin.2 = dnsnames st1 /\ typeCodes fin.2 = typeCodes st1
               /\ blockingEntries fin.2 = blockingEntries st1
               /\ exists pre, events fin.2 = events st ++ pre
                    /\ (forall ev, In ev pre -> ev = EvSetFinalizer (vObjectName v))
                    /\ (In (EvSetFinalizer (vObjectName v)) pre
                        <-> valid v = true /\ IsManaging st v = true)).
  { subst fin. destruct (valid v && IsManaging st v) eqn:Hc.
    - apply andb_true_iff in Hc as [Hv Hm].
      unfold SetFinalizer, Object_. rewrite Hver. cbn [fst snd].
      split; [by apply Hfin|]. do 5 (split; [done|]).
      exists [EvSetFinalizer (vObjectName v)]. simpl. rewrite Hev1.
      split; [done|]. split; [by intros ev [<-|[]]|]. split; [done|by left].
    - cbn [fst snd]. do 6 (split; [done|]). exists []. rewrite app_nil_r.
      split; [done|]. split; [by intros ev []|]. split; [by intros []|].
      intros [Hv Hm]. rewrite Hv, Hm in Hc. discriminate. }
  destruct Hf as (Hf1 & Hmf & Hef & Hdf & Htf & Hbf & pre1 & Hevf & Hpre1 & Hin1).
  clearbody fin. rewrite Hf1.
  set (st3 := with_entries (<[vObjectName v := new]> (entries fin.2)) fin.2).
  match goal with
  | |- context [arbitrate w v new status_ ?s] => set (st4 := s)
  end.
  assert (H4 : mem st4 = mem st1
               /\ entries st4 !! vObjectName v = Some new
               /\ (forall d c, dnsnames st4 !! d = Some c -> dnsnames st !! d = Some c)
               /\ typeCodes st4 = typeCodes st
               /\ blockingEntries st4 = blockingEntries st0
               /\ exists pre2, events st4 = events fin.2 ++ pre2
                    /\ forall ev, In ev pre2 ->
                         (exists k, ev = EvEnqueueKey k)
                         \/ exists z, ev = EvTriggerHostedZone z).
  { assert (H3 : mem st3 = mem st1
                 /\ entries st3 !! vObjectName v = Some new
                 /\ (forall d c, dnsnames st3 !! d = Some c -> dnsnames st !! d = Some c)
                 /\ typeCodes st3 = typeCodes st
                 /\ blockingEntries st3 = blockingEntries st0
                 /\ exists pre2, events st3 = events fin.2 ++ pre2
                      /\ forall ev, In ev pre2 ->
                           (exists k, ev = EvEnqueueKey k)
                           \/ exists z, ev = EvTriggerHostedZone z).
    { split; [exact Hmf|]. split; [apply lookup_insert_eq|].
      split; [intros d c H; simpl in H; by rewrite Hdf, Hd1 in H|].
      split; [simpl; by rewrite Htf, Ht1|]. split; [simpl; by rewrite Hbf, Hb1|].
      exists []. split; [by rewrite app_nil_r|]. by intros ev []. }
    subst st4. cbv zeta. destruct (entries st0 !! vObjectName v) as [o|]; [|exact H3].
    destruct (decide (o <> new)) as [Hne|]; [|exact H3].
    destruct H3 as (M3 & E3 & D3 & T3 & B3 & _).
    destruct (cleanupEntry_frame w st3 o)
      as (Mc & _ & _ & _ & Tc & (evs & Evc & Hk) & _).
    destruct (cleanupEntry_effect w st3 o) as (Ec & _ & Bc).
    destruct (cleanupEntry_shrink w st3 o) as (_ & _ & Dc).
    assert (Hent : entries (cleanupEntry w st3 o) !! vObjectName v = Some new).
    { rewrite Ec. unfold Entries_Delete. destruct (decide _) as [Hd|]; [|exact E3].
      rewrite lookup_delete_ne; [exact E3|]. intros Heq. rewrite Heq in Hd.
      rewrite E3 in Hd. congruence. }
    destruct (_ && _ && _).
    - split; [by rewrite <- M3|]. split; [exact Hent|].
      split; [intros d c H; apply D3; by apply Dc|].
      split; [simpl; by rewrite Tc|]. split; [simpl; by rewrite Bc|].
      eexists (evs ++ [_]). simpl. rewrite Evc, <- app_assoc.
      split; [reflexivity|]. intros ev Hin.
      apply in_app_or in Hin as [Hin|[<-|[]]]; [left; by apply Hk|right; eauto].
    - split; [by rewrite <- M3|]. split; [exact Hent|].
      split; [intros d c H; apply D3; by apply Dc|].
      split; [by rewrite Tc|]. split; [by rewrite Bc|].
      exists evs. split; [exact Evc|]. intros ev Hin. left. by apply Hk. }
  destruct H4 as (M4 & E4 & D4 & T4 & B4 & pre2 & Ev4 & Hpre2).
  clearbody st4.
  rewrite (IsManaging_typeCodes st4 st v T4).
  exists new, st4, (pre1 ++ pre2).
  split; [done|].
  split; [unfold deref; rewrite M4; exact Hver|].
  split; [by rewrite M4|]. split; [exact E4|]. split; [exact D4|].
  split; [exact T4|]. split; [exact B4|].
  split; [by rewrite Ev4, Hevf, <- app_assoc|].
  split.
  - intros ev Hin. apply in_app_or in Hin as [Hin|Hin].
    + left. by apply Hpre1.
    + right. by apply Hpre2.
  - rewrite <- Hin1. split.
    + intros Hin. apply in_app_or in Hin as [Hin|Hin]; [done|].
      destruct (Hpre2 _ Hin) as [[k Hk]|[z Hz]]; discriminate.
    + intros Hin. apply in_or_app. by left.
Qed.

(** An uncontested name: the run ends in the activation of the new
    entry. *)
Lemma uncontested_run (st : state) (v : EntryVersion) (status_ : Status) :
  vIsDeleting v = false ->
  IsManaging st v = true ->
  (valid v = true -> SetFinalizer_err w (object v) = None) ->
  vDNSName v <> "" ->
  dnsnames st !! vDNSName v = None ->
  exists new st4 pre,
    AddEntryVersion w st v status_ = activate w v new status_ st4
    /\ version (deref st4 new) = v
    /\ entries st4 !! vObjectName v = Some new
    /\ events st4 = events st ++ pre
    /\ (forall n s m, ~ In (EvUpdateStatus n s m) pre)
    /\ (In (EvSetFinalizer (vObjectName v)) pre <-> valid v = true).
Proof.
  intros Hdel Hman Hfin Hname Hfree.
  destruct (managed_stage st v status_ Hdel) as
    (new & st4 & pre & Hrun & Hver & Hnew & He4 & Hd4 & _ & _ & Hev & Hpre & Hsf).
  { intros Hv _. by apply Hfin. }
  exists new, st4, pre.
  assert (Hfree4 : dnsnames st4 !! vDNSName v = None).
  { destruct (dnsnames st4 !! vDNSName v) as [c|] eqn:E; [|done].
    apply Hd4 in E. congruence. }
  split.
  { rewrite Hrun, Hman. cbn [negb]. unfold arbitrate. rewrite Hfree4.
    by destruct (String.eqb_spec (vDNSName v) "") as [|_]. }
  split; [exact Hver|]. split; [exact He4|]. split; [exact Hev|].
  split.
  - intros n s m Hin. destruct (Hpre _ Hin) as [H|[[k H]|[z H]]]; discriminate.
  - rewrite Hsf. tauto.
Qed.

(** X14.  A version that is not under deletion, is managed and asks for a
    non-empty DNS name that no entry holds becomes the holder of that name,
    provided that setting the finalizer of a valid version succeeds:
    AddEntryVersion returns its entry with the incoming status, binds the
    object name and the DNS name to it, sets the finalizer exactly when the
    version is valid, and sends the status update "activating for <name>"
    exactly when the version is valid and its state is neither ready nor
    pending. *)
Theorem uncontested_activation (st : state) (v : EntryVersion) (status_ : Status) :
  vIsDeleting v = false ->
  IsManaging st v = true ->
  (valid v = true -> SetFinalizer_err w (object v) = None) ->
  vDNSName v <> "" ->
  dnsnames st !! vDNSName v = None ->
  let res := AddEntryVersion w st v status_ in
  exists new evs,
    res.1.1 = Some new /\ res.1.2 = status_
    /\ version (deref res.2 new) = v
    /\ entries res.2 !! vObjectName v = Some new
    /\ dnsnames res.2 !! vDNSName v = Some new
    /\ events res.2 = events st ++ evs
    /\ (In (EvUpdateStatus (vObjectName v) STATE_PENDING
              (MsgText ("activating for " +:+ vDNSName v))) evs
        <-> valid v = true /\ State (status v) <> STATE_READY
            /\ State (status v) <> STATE_PENDING)
    /\ (In (EvSetFinalizer (vObjectName v)) evs <-> valid v = true).
Proof.
  intros Hdel Hman Hfin Hname Hfree res. subst res.
  destruct (uncontested_run st v status_ Hdel Hman Hfin Hname Hfree)
    as (new & st4 & pre & Hrun & Hver & He4 & Hev & Hno & Hsf).
  rewrite Hrun. unfold activate. rewrite Hver.
  set (act := valid v && bool_decide (State (status v) <> STATE_READY)
              && bool_decide (State (status v) <> STATE_PENDING)).
  assert (Hact : act = true <-> valid v = true /\ State (status v) <> STATE_READY
                                /\ State (status v) <> STATE_PENDING).
  { subst act. rewrite !andb_true_iff, !bool_decide_eq_true. tauto. }
  exists new.
  exists (pre ++ if act
                 then [EvUpdateStatus (vObjectName v) STATE_PENDING
                         (MsgText ("activating for " +:+ vDNSName v))]
                 else []).
  cbn [fst snd].
  split; [done|]. split; [done|].
  split.
  { destruct act; unfold deref; simpl; exact Hver. }
  split.
  { destruct act; simpl; exact He4. }
  split.
  { destruct act; simpl; apply lookup_insert_eq. }
  split.
  { destruct act; simpl.
    - unfold ObjectName_, DNSName. rewrite Hver.
      by rewrite Hev, <- app_assoc.
    - by rewrite app_nil_r. }
  split.
  - rewrite <- Hact. destruct act.
    + split; [done|]. intros _. apply in_or_app. right. by left.
    + split; [|done]. intros Hin. apply in_app_or in Hin as [Hin|[]].
      by apply Hno in Hin.
  - rewrite <- Hsf. split.
    + intros Hin. apply in_app_or in Hin as [Hin|Hin]; [done|].
      destruct act; [destruct Hin as [Hin|[]]; discriminate|destruct Hin].
    + intros Hin. apply in_or_app. by left.
Qed.

(** X15.  A version that is not under deletion and whose provider type is
    not one of the controller's is observed but not reconciled:
    AddEntryVersion returns nil with the incoming status, binds the object
    name to the entry of the version, gives no DNS name to any entry, sets
    no finalizer and sends no status update. *)
Theorem foreign_entry_observed (st : state) (v : EntryVersion) (status_ : Status) :
  vIsDeleting v = false ->
  IsManaging st v = false ->
  let res := AddEntryVersion w st v status_ in
  res.1.1 = None /\ res.1.2 = status_
  /\ (exists new, entries res.2 !! vObjectName v = Some new
                  /\ version (deref res.2 new) = v)
  /\ (forall d c, dnsnames res.2 !! d = Some c -> dnsnames st !! d = Some c)
  /\ exists evs, events res.2 = events st ++ evs
       /\ forall ev, In ev evs ->
            (exists k, ev = EvEnqueueKey k) \/ exists z, ev = EvTriggerHostedZone z.
Proof.
  intros Hdel Hman res. subst res.
  destruct (managed_stage st v status_ Hdel) as
    (new & st4 & pre & Hrun & Hver & Hnew & He4 & Hd4 & _ & _ & Hev & Hpre & Hsf).
  { intros _ H. congruence. }
  rewrite Hrun, Hman. cbn [negb fst snd].
  split; [done|]. split; [done|]. split; [by exists new|]. split; [exact Hd4|].
  exists pre. split; [exact Hev|]. intros ev Hin.
  destruct (Hpre _ Hin) as [->|H]; [|exact H].
  apply Hsf in Hin as [_ Hm]. congruence.
Qed.

(** X16.  When setting the finalizer of a valid, managed version that is
    not under deletion fails, AddEntryVersion returns the entry with a
    delay for that error and leaves both indexes as they were: the only
    call made is the one that failed. *)
Theorem finalizer_failure_delays (st : state) (v : EntryVersion) (status_ : Status)
    (err : Err) :
  vIsDeleting v = false ->
  valid v = true ->
  IsManaging st v = true ->
  SetFinalizer_err w (object v) = Some err ->
  let res := AddEntryVersion w st v status_ in
  (exists new, res.1.1 = Some new) /\ res.1.2 = Delay (Some err)
  /\ entries res.2 = entries st /\ dnsnames res.2 = dnsnames st
  /\ events res.2 = events st ++ [EvSetFinalizer (vObjectName v)].
Proof.
  intros Hdel Hv Hman Herr res. subst res.
  rewrite (managed_run w st v status_ Hdel).
  set (st0 := with_blockingEntries (delete (vObjectName v) (blockingEntries st)) st).
  destruct (install_spec w st0 v)
    as (Hver & _ & _ & He1 & Hd1 & _ & _ & _ & Ht1 & Hev1).
  set (new := (install w st0 v).1) in *. set (st1 := (install w st0 v).2) in *.
  clearbody new st1.
  rewrite Hver, (IsManaging_typeCodes st1 st v Ht1), Hv, Hman.
  unfold SetFinalizer, Object_. rewrite Hver, Herr. cbn.
  split; [by exists new|]. split; [done|]. split; [exact He1|].
  split; [exact Hd1|]. by rewrite Hev1.
Qed.

(** X17.  The name taken by an uncontested activation is given back by the
    deletion of the object: after AddEntryVersion as in X14 and
    EntryDeleted for the same object name, neither the object name nor the
    DNS name is bound. *)
Theorem activation_then_deletion (reg : Registry) (st : state) (v : EntryVersion)
    (status_ : Status) (k : Kind) :
  vIsDeleting v = false ->
  IsManaging st v = true ->
  (valid v = true -> SetFinalizer_err w (object v) = None) ->
  vDNSName v <> "" ->
  dnsnames st !! vDNSName v = None ->
  let st1 := (AddEntryVersion w st v status_).2 in
  let st2 := (EntryDeleted w reg st1 (k, vObjectName v)).1.2 in
  dnsnames st1 !! vDNSName v <> None
  /\ entries st2 !! vObjectName v = None
  /\ dnsnames st2 !! vDNSName v = None.
Proof.
  intros Hdel Hman Hfin Hname Hfree st1 st2.
  destruct (uncontested_run st v status_ Hdel Hman Hfin Hname Hfree)
    as (new & st4 & pre & Hrun & Hver4 & He4 & _).
  assert (H1 : version (deref st1 new) = v
               /\ entries st1 !! vObjectName v = Some new
               /\ dnsnames st1 !! vDNSName v = Some new).
  { subst st1. rewrite Hrun. unfold activate. cbn [snd].
    destruct (_ && _ && _); unfold deref; simpl;
      (split; [exact Hver4|]; split; [exact He4|apply lookup_insert_eq]). }
  destruct H1 as (Hver & He & Hd).
  split; [by rewrite Hd|].
  subst st2.
  destruct (EntryDeleted_run w reg st1 (k, vObjectName v))
    as (s & _ & _ & Hst & Hes & Hds & Hms & _).
  rewrite Hst. cbn [snd] in *. rewrite He.
  change (entries (emit ?ev ?x)) with (entries x).
  change (dnsnames (emit ?ev ?x)) with (dnsnames x).
  destruct (cleanupEntry_effect w s new) as (Ee & Ed & _).
  assert (Hde : deref s new = deref st1 new) by (unfold deref; by rewrite Hms).
  rewrite Ee, Ed, Hde, Hes, Hds.
  unfold ObjectName_, DNSName. rewrite Hver.
  change (vObjectName v) with (oName (object v)) in *.
  unfold Entries_Delete. rewrite decide_True by exact He.
  rewrite decide_True by exact Hd.
  split; apply lookup_delete_eq.
Qed.

End managed_versions.

Lemma uncontested_activation_witness :
  let v := examples.version_of
             (examples.entry_object "default/e2" "api.example.com" 30
                (examples.bound_status provider.STATE_ERROR) false) false in
  let res := provider.AddEntryVersion examples.quiet (examples.e1_holds true) v
               provider.Succeeded in
  exists new evs,
    res.1.1 = Some new /\ res.1.2 = provider.Succeeded
    /\ provider.version (provider.deref res.2 new) = v
    /\ provider.entries res.2 !! "default/e2" = Some new
    /\ provider.dnsnames res.2 !! "api.example.com" = Some new
    /\ provider.events res.2 = [] ++ evs
    /\ (In (provider.EvUpdateStatus "default/e2" provider.STATE_PENDING
              (provider.MsgText "activating for api.example.com")) evs
        <-> provider.valid v = true
            /\ provider.State (provider.status v) <> provider.STATE_READY
            /\ provider.State (provider.status v) <> provider.STATE_PENDING)
    /\ (In (provider.EvSetFinalizer "default/e2") evs <-> provider.valid v = true).
Proof.
  intros v res.
  apply (uncontested_activation examples.quiet (examples.e1_holds true) v
           provider.Succeeded).
  - reflexivity.
  - reflexivity.
  - reflexivity.
  - discriminate.
  - reflexivity.
Defined.

Lemma foreign_entry_observed_witness :
  let v := examples.version_of
             (examples.entry_object "default/e2" "www.example.com" 30
                {| provider.State := provider.STATE_READY;
                   provider.Message_ := None; provider.Zone := Some "zone-9";
                   provider.ProviderType := Some "other";
                   provider.Provider_ := None |} false) false in
  let res := provider.AddEntryVersion examples.quiet (examples.e1_holds true) v
               provider.Succeeded in
  res.1.1 = None /\ res.1.2 = provider.Succeeded.
Proof.
  intros v res.
  destruct (foreign_entry_observed examples.quiet (examples.e1_holds true) v
              provider.Succeeded) as (H1 & H2 & _).
  - reflexivity.
  - reflexivity.
  - split; [exact H1|exact H2].
Defined.

Lemma finalizer_failure_delays_witness :
  let w := {| provider.intSize := 64;
              provider.ATTR_LOCKID := "lockid";
              provider.ATTR_TIMESTAMP := "ts";
              provider.SetFinalizer_err := fun _ => Some "conflict";
              provider.RemoveFinalizer_err := fun _ => None;
              provider.UpdateStatus_err := fun _ _ _ => None;
              provider.ModifyStatus_err := fun _ => None;
              provider.GetRecordSet_res := fun _ _ _ => inr None;
              provider.CreateOrUpdateRecordSet_err := fun _ _ _ => None;
              provider.DeleteRecordSet_err := fun _ _ _ => None;
              provider.LookupTXT_res := fun _ => inr [];
              provider.Now := fun _ => 0;
              provider.range_entries := map_to_list;
              provider.NewText_value := fun s _ => s;
              provider.NewEntry_modified := fun _ => true;
              provider.NewEntry_activezone := fun _ => "";
              provider.NewEntry_updateRequired := fun _ => true;
              provider.Update_modified := fun e _ => provider.modified e;
              provider.Update_activezone := fun e _ => provider.activezone e;
              provider.Update_updateRequired := fun e _ => provider.updateRequired e;
              provider.NewEntryVersion := fun o _ => examples.version_of o false;
              provider.Setup := fun v _ _ _ _ => (v, provider.Succeeded) |} in
  let res := provider.AddEntryVersion w (examples.e1_holds true)
               examples.e2_version provider.Succeeded in
  res.1.2 = provider.Delay (Some "conflict")
  /\ provider.dnsnames res.2 = provider.dnsnames (examples.e1_holds true).
Proof.
  intros w res.
  destruct (finalizer_failure_delays w (examples.e1_holds true)
              examples.e2_version provider.Succeeded "conflict")
    as (_ & H2 & _ & H4 & _).
  - reflexivity.
  - reflexivity.
  - reflexivity.
  - reflexivity.
  - split; [exact H2|exact H4].
Defined.

Lemma activation_then_deletion_witness :
  let v := examples.version_of
             (examples.entry_object "default/e2" "api.example.com" 30
                (examples.bound_status provider.STATE_ERROR) false) false in
  let st1 := (provider.AddEntryVersion examples.quiet (examples.e1_holds true) v
                provider.Succeeded).2 in
  let st2 := (provider.EntryDeleted examples.quiet
                (examples.registry examples.zone1) st1
                (provider.DNSEntryKind, "default/e2")).1.2 in
  provider.dnsnames st1 !! "api.example.com" <> None
  /\ provider.entries st2 !! "default/e2" = None
  /\ provider.dnsnames st2 !! "api.example.com" = None.
Proof.
  intros v st1 st2.
  apply (activation_then_deletion examples.quiet (examples.registry examples.zone1)
           (examples.e1_holds true) v provider.Succeeded provider.DNSEntryKind).
  - reflexivity.
  - reflexivity.
  - reflexivity.
  - discriminate.
  - reflexivity.
Defined.

(* ===================================================================== *)
(** * The entries of an owner and the blocking entries                     *)
(* ===================================================================== *)

Section owners.
Import provider.
Context (w : World).

Lemma range_elem (m : gmap ObjectName ptr) (n : ObjectName) (p : ptr) :
  range_ok w -> (n, p) ∈ range_entries w m <-> m !! n = Some p.
Proof. intros H. rewrite (H m). apply elem_of_map_to_list. Qed.

Lemma range_NoDup (m : gmap ObjectName ptr) :
  range_ok w -> NoDup (range_entries w m).*1.
Proof. intros H. rewrite (H m). apply NoDup_fst_map_to_list. Qed.

Lemma owner_fold (st : state) (owners : gset string)
    (l : list (ObjectName * ptr)) (acc : gmap ObjectName ptr) :
  NoDup l.*1 ->
  (forall n p, (n, p) ∈ l -> ObjectName_ (deref st p) = n) ->
  forall k q,
    fold_left
      (fun (acc : gmap ObjectName ptr) (np : ObjectName * ptr) =>
         if bool_decide (OwnerId (deref st np.2) ∈ owners)
         then <[ObjectName_ (deref st np.2) := np.2]> acc
         else acc) l acc !! k = Some q
    <-> ((k, q) ∈ l /\ OwnerId (deref st q) ∈ owners)
        \/ (acc !! k = Some q
            /\ forall q', (k, q') ∈ l -> OwnerId (deref st q') ∉ owners).
Proof.
  revert acc. induction l as [|[n p] l IH]; intros acc Hnd Hnames k q; simpl.
  - split.
    + intros H. right. split; [done|]. intros q' Hq'. by apply elem_of_nil in Hq'.
    + intros [[H _]|[H _]]; [by apply elem_of_nil in H|done].
  - apply NoDup_cons in Hnd as [Hn Hnd].
    assert (Hname : ObjectName_ (deref st p) = n) by (apply Hnames; by left).
    rewrite IH; [|done|intros n' p' H; apply Hnames; by right].
    rewrite Hname. clear IH.
    assert (Hfresh : forall q', (n, q') ∉ l).
    { intros q' H. apply Hn. apply list_elem_of_fmap. by exists (n, q'). }
    destruct (bool_decide_reflect (OwnerId (deref st p) ∈ owners)) as [Ho|Ho].
    + split.
      * intros [[H1 H2]|[H1 H2]]; [left; split; [by right|done]|].
        apply lookup_insert_Some in H1 as [[<- <-]|[Hne H1]].
        -- left. split; [by left|done].
        -- right. split; [done|]. intros q' Hq'.
           apply elem_of_cons in Hq' as [Hq'|Hq']; [congruence|by apply H2].
      * intros [[H1 H2]|[H1 H2]].
        -- apply elem_of_cons in H1 as [H1|H1]; [|left; by split].
           inversion H1; subst k q. right. split; [apply lookup_insert_eq|].
           intros q' Hq'. by apply Hfresh in Hq'.
        -- assert (Hne : n <> k).
           { intros <-. apply (H2 p); [by left|done]. }
           right. split; [by rewrite lookup_insert_ne|].
           intros q' Hq'. apply H2. by right.
    + split.
      * intros [[H1 H2]|[H1 H2]]; [left; split; [by right|done]|].
        right. split; [done|]. intros q' Hq'.
        apply elem_of_cons in Hq' as [Hq'|Hq']; [|by apply H2].
        by inversion Hq'; subst.
      * intros [[H1 H2]|[H1 H2]].
        -- apply elem_of_cons in H1 as [H1|H1]; [|left; by split].
           inversion H1; subst k q. done.
        -- right. split; [done|]. intros q' Hq'. apply H2. by right.
Qed.

Lemma size_zero_empty (owners : gset string) :
  (Z.of_nat (size owners) =? 0) = true <-> owners = ∅.
Proof.
  rewrite Z.eqb_eq. split.
  - intros H. apply leibniz_equiv, size_empty_iff. lia.
  - intros ->. by rewrite size_empty.
Qed.

Lemma GetEntriesByOwner_lookup (st : state) (owners : gset string) :
  range_ok w -> index_wf st -> owners <> ∅ ->
  exists es,
    GetEntriesByOwner w st owners = Some es
    /\ forall n p, es !! n = Some p
         <-> entries st !! n = Some p /\ OwnerId (deref st p) ∈ owners.
Proof.
  intros Hr Hwf Hne. unfold GetEntriesByOwner.
  destruct (Z.of_nat (size owners) =? 0) eqn:Hs.
  { apply size_zero_empty in Hs. done. }
  eexists. split; [reflexivity|]. intros n p.
  rewrite owner_fold.
  - rewrite (range_elem _ _ _ Hr). split.
    + intros [H|[H _]]; [done|]. by rewrite lookup_empty in H.
    + intros H. by left.
  - by apply range_NoDup.
  - intros n' p' H. apply (range_elem _ _ _ Hr) in H. by apply Hwf.
Qed.

(** X18.  With a well-formed entries index, GetEntriesByOwner returns nil
    for an empty set of owners and
    otherwise, whatever the order of the range over the entries, exactly
    the entries of the index whose owner id is in the set, under their
    object names. *)
Theorem GetEntriesByOwner_spec (st : state) (owners : gset string) :
  range_ok w -> index_wf st ->
  (owners = ∅ -> GetEntriesByOwner w st owners = None)
  /\ (owners <> ∅ ->
      exists es,
        GetEntriesByOwner w st owners = Some es
        /\ forall n p, es !! n = Some p
             <-> entries st !! n = Some p /\ OwnerId (deref st p) ∈ owners).
Proof.
  intros Hr Hwf. split.
  - intros ->. reflexivity.
  - by apply GetEntriesByOwner_lookup.
Qed.

Lemma TriggerEntries_events (es : gmap ObjectName ptr) (st : state) :
  let st' := TriggerEntries w es st in
  events st' = events st
               ++ ((fun np => EvEnqueueKey (ClusterKey_ (deref st np.2)))
                     <$> range_entries w es)
  /\ entries st' = entries st /\ dnsnames st' = dnsnames st
  /\ mem st' = mem st /\ blockingEntries st' = blockingEntries st.
Proof.
  unfold TriggerEntries. generalize (range_entries w es). intros l.
  revert st. induction l as [|np l IH]; intros st; simpl.
  - by rewrite app_nil_r.
  - destruct (IH (TriggerEntry (deref st np.2) st)) as (I1 & I2 & I3 & I4 & I5).
    rewrite I1, I2, I3, I4, I5. simpl. rewrite <- app_assoc. done.
Qed.

(** X19.  With a well-formed entries index, TriggerEntriesByOwner changes
    nothing but the work queue: it
    enqueues the cluster key of every entry of the index whose owner id is
    in the set, each once, and no other key. *)
Theorem TriggerEntriesByOwner_spec (st : state) (owners : gset string) :
  range_ok w -> index_wf st ->
  let st' := TriggerEntriesByOwner w owners st in
  exists evs,
    events st' = events st ++ evs
    /\ entries st' = entries st /\ dnsnames st' = dnsnames st
    /\ mem st' = mem st /\ blockingEntries st' = blockingEntries st
    /\ NoDup evs
    /\ forall ev, In ev evs
         <-> exists n p, entries st !! n = Some p
                         /\ OwnerId (deref st p) ∈ owners
                         /\ ev = EvEnqueueKey (ClusterKey_ (deref st p)).
Proof.
  intros Hr Hwf st'. subst st'. unfold TriggerEntriesByOwner.
  destruct (decide (owners = ∅)) as [->|Hne].
  - exists []. rewrite app_nil_r. do 5 (split; [done|]).
    split; [constructor|]. intros ev. split; [intros []|].
    intros (n & p & _ & H & _). by apply not_elem_of_empty in H.
  - destruct (GetEntriesByOwner_lookup st owners Hr Hwf Hne) as (es & -> & Hes).
    destruct (TriggerEntries_events es st) as (E1 & E2 & E3 & E4 & E5).
    eexists. split; [exact E1|]. do 4 (split; [done|]).
    assert (Hin : forall n p, (n, p) ∈ range_entries w es ->
                    entries st !! n = Some p /\ OwnerId (deref st p) ∈ owners
                    /\ ObjectName_ (deref st p) = n).
    { intros n p H. apply (range_elem _ _ _ Hr), Hes in H as [H1 H2].
      split; [done|]. split; [done|]. by apply Hwf. }
    split.
    + apply NoDup_fmap_2_strong.
      * intros [n1 p1] [n2 p2] H1 H2 Heq. simpl in Heq.
        apply Hin in H1 as (A1 & _ & N1). apply Hin in H2 as (A2 & _ & N2).
        assert (Hn : ObjectName_ (deref st p1) = ObjectName_ (deref st p2))
          by (unfold ClusterKey_ in Heq; congruence).
        assert (Hnn : n1 = n2) by congruence.
        rewrite Hnn in A1. rewrite A1 in A2. inversion A2. by subst.
      * apply NoDup_fmap_1 with (f := fst). by apply range_NoDup.
    + intros ev. rewrite <- list_elem_of_In, list_elem_of_fmap. split.
      * intros ([n p] & -> & H).
        apply Hin in H as (A & O & _). by exists n, p.
      * intros (n & p & A & O & ->). exists (n, p). split; [done|].
        apply (range_elem _ _ _ Hr). apply Hes. done.
Qed.

Lemma block_fold (now : Go.Time) (l : list (ObjectName * ptr)) (st : state) :
  let step := fun (st : state) (np : ObjectName * ptr) =>
    let name := ObjectName_ (deref st np.2) in
    match blockingEntries st !! name with
    | Some _ => st
    | None => with_blockingEntries (<[name := now]> (blockingEntries st)) st
    end in
  let st' := fold_left step l st in
  mem st' = mem st /\ entries st' = entries st /\ dnsnames st' = dnsnames st
  /\ events st' = events st
  /\ (forall n t, blockingEntries st !! n = Some t ->
                  blockingEntries st' !! n = Some t)
  /\ (forall np, In np l ->
        is_Some (blockingEntries st' !! ObjectName_ (deref st np.2)))
  /\ (forall n t, blockingEntries st' !! n = Some t ->
        blockingEntries st !! n = Some t
        \/ (t = now /\ exists np, In np l /\ ObjectName_ (deref st np.2) = n)).
Proof.
  intros step. revert st. induction l as [|np l IH]; intros st; cbn [fold_left].
  - do 5 (split; [done|]). split; [intros np []|]. intros n t H. by left.
  - assert (H1 : mem (step st np) = mem st /\ entries (step st np) = entries st
                 /\ dnsnames (step st np) = dnsnames st
                 /\ events (step st np) = events st
                 /\ (forall n t, blockingEntries st !! n = Some t ->
                                 blockingEntries (step st np) !! n = Some t)
                 /\ is_Some (blockingEntries (step st np)
                               !! ObjectName_ (deref st np.2))
                 /\ (forall n t, blockingEntries (step st np) !! n = Some t ->
                       blockingEntries st !! n = Some t
                       \/ (t = now /\ n = ObjectName_ (deref st np.2)))).
    { unfold step. cbv zeta.
      destruct (blockingEntries st !! ObjectName_ (deref st np.2)) as [t0|] eqn:Hb.
      - do 5 (split; [done|]). split; [by eexists|]. intros n t H. by left.
      - do 4 (split; [done|]). simpl. split.
        + intros n t H. rewrite lookup_insert_ne; [done|]. intros <-. congruence.
        + split; [rewrite lookup_insert_eq; by eexists|].
          intros n t H. apply lookup_insert_Some in H as [[<- <-]|[_ H]];
            [by right|by left]. }
    destruct H1 as (M1 & E1 & D1 & V1 & K1 & N1 & O1).
    destruct (IH (step st np)) as (M & E & D & V & K & N & O).
    assert (Hd : forall q, deref (step st np) q = deref st q)
      by (intros q; unfold deref; by rewrite M1).
    split; [by rewrite M|]. split; [by rewrite E|]. split; [by rewrite D|].
    split; [by rewrite V|]. split; [intros n t H; by apply K, K1|].
    split.
    + intros np' [<-|Hin].
      * destruct N1 as [t Ht]. exists t. by apply K.
      * rewrite <- Hd. by apply N.
    + intros n t H. destruct (O n t H) as [H'|(-> & np' & Hin & Hn)].
      * destruct (O1 n t H') as [H''|[-> ->]]; [by left|].
        right. split; [done|]. exists np. split; [by left|done].
      * right. split; [done|]. exists np'. split; [by right|].
        by rewrite <- Hd.
Qed.

(** X20.  addBlockingEntries gives every entry of the given set a blocking
    time under its object name without ever replacing a blocking time that
    is already recorded: old blocking times stay, every new one is the
    current time and belongs to an entry of the set, and nothing else of
    the state changes. *)
Theorem addBlockingEntries_spec (now : Go.Time) (es : gmap ObjectName ptr)
    (st : state) :
  range_ok w ->
  let st' := addBlockingEntries w now es st in
  mem st' = mem st /\ entries st' = entries st /\ dnsnames st' = dnsnames st
  /\ events st' = events st
  /\ (forall n t, blockingEntries st !! n = Some t ->
                  blockingEntries st' !! n = Some t)
  /\ (forall n p, es !! n = Some p ->
        is_Some (blockingEntries st' !! ObjectName_ (deref st p)))
  /\ (forall n t, blockingEntries st' !! n = Some t ->
        blockingEntries st !! n = Some t
        \/ (t = now /\ exists n' p, es !! n' = Some p
                                    /\ ObjectName_ (deref st p) = n)).
Proof.
  intros Hr st'. subst st'. unfold addBlockingEntries.
  destruct (Z.of_nat (size es) =? 0) eqn:Hs.
  - apply Z.eqb_eq in Hs. assert (He : es = ∅) by (apply map_size_empty_iff; lia).
    subst es. do 5 (split; [done|]). split.
    + intros n p H. by rewrite lookup_empty in H.
    + intros n t H. by left.
  - destruct (block_fold now (range_entries w es) st) as (M & E & D & V & K & N & O).
    do 5 (split; [done|]). split.
    + intros n p H. apply (N (n, p)). apply list_elem_of_In.
      by apply (range_elem _ _ _ Hr).
    + intros n t H. destruct (O n t H) as [H'|(-> & [n' p] & Hin & Hn)]; [by left|].
      right. split; [done|]. exists n', p. split; [|done].
      apply list_elem_of_In in Hin. by apply (range_elem _ _ _ Hr) in Hin.
Qed.

Lemma arbitrate_blocking (v : EntryVersion) (new : ptr) (status_ : Status)
    (st : state) :
  blockingEntries (arbitrate w v new status_ st).2 = blockingEntries st.
Proof.
  unfold arbitrate, activate, UpdateStatus.
  destruct (negb (String.eqb (vDNSName v) "")); [|done].
  destruct (dnsnames st !! vDNSName v) as [c|].
  - destruct (negb (String.eqb _ _)).
    + destruct (Before _ _).
      * destruct (IsSucceeded status_); [|done].
        by destruct (UpdateStatus_err w _ _ _).
      * cbn [snd]. by destruct (_ && _ && _).
    + cbn [snd]. by destruct (_ && _ && _).
  - cbn [snd]. by destruct (_ && _ && _).
Qed.

Lemma install_blocking (st : state) (v : EntryVersion) :
  blockingEntries (install w st v).2 = blockingEntries st.
Proof.
  unfold install, Update, alloc.
  destruct (entries st !! vObjectName v) as [o|];
    [destruct (String.eqb _ _)|]; done.
Qed.

(** X21.  AddEntryVersion removes the blocking time of the version's object
    name and touches no other blocking time, whatever branch it takes. *)
Theorem AddEntryVersion_unblocks (st : state) (v : EntryVersion) (status_ : Status) :
  blockingEntries (AddEntryVersion w st v status_).2
  = delete (vObjectName v) (blockingEntries st).
Proof.
  set (st0 := with_blockingEntries (delete (vObjectName v) (blockingEntries st)) st).
  pose proof (install_blocking st0 v) as Hb1.
  destruct (vIsDeleting v) eqn:Hdel.
  - rewrite (deleting_run w st v status_ Hdel). fold st0.
    set (new := (install w st0 v).1) in *. set (st1 := (install w st0 v).2) in *.
    clearbody new st1.
    match goal with
    | |- context [deref ?s new] => set (st2 := s)
    end.
    assert (H2 : blockingEntries st2 = blockingEntries st0).
    { subst st2. destruct (entries st0 !! vObjectName v) as [o|]; [|done].
      destruct (decide _); [|done].
      destruct (cleanupEntry_effect w st1 o) as (_ & _ & B). by rewrite B. }
    clearbody st2.
    assert (Hret : forall err s, blockingEntries s = blockingEntries st0 ->
              blockingEntries (deleting_return v new err s).2 = blockingEntries st0).
    { intros err s Hs. unfold deleting_return. by destruct err. }
    destruct (valid (version (deref st2 new))).
    + destruct (decide _).
      * destruct (HasFinalizer _); [exact H2|by apply Hret].
      * destruct (_ || _); by apply Hret.
    + destruct (_ || _); by apply Hret.
  - rewrite (managed_run w st v status_ Hdel). fold st0.
    set (new := (install w st0 v).1) in *. set (st1 := (install w st0 v).2) in *.
    clearbody new st1.
    set (fin := if valid (version (deref st1 new)) && IsManaging st1 v
                then SetFinalizer w (Object_ (deref st1 new)) st1
                else (None, st1)).
    assert (Hf : blockingEntries fin.2 = blockingEntries st0).
    { subst fin. by destruct (_ && _). }
    clearbody fin.
    destruct fin.1 as [err|]; [exact Hf|].
    match goal with
    | |- context [arbitrate w v new status_ ?s] => set (st4 := s)
    end.
    assert (H4 : blockingEntries st4 = blockingEntries st0).
    { subst st4. cbv zeta. destruct (entries st0 !! vObjectName v) as [o|]; [|done].
      destruct (decide _); [|done].
      match goal with
      | |- context [cleanupEntry w ?s o] =>
          destruct (cleanupEntry_effect w s o) as (_ & _ & B)
      end.
      destruct (_ && _ && _); simpl; by rewrite B. }
    clearbody st4.
    destruct (negb (IsManaging st4 v)); [exact H4|].
    by rewrite arbitrate_blocking.
Qed.

End owners.

Lemma GetEntriesByOwner_spec_witness :
  exists es,
    provider.GetEntriesByOwner examples.quiet examples.contested {[ "" ]} = Some es
    /\ forall n p, es !! n = Some p
         <-> provider.entries examples.contested !! n = Some p
             /\ provider.OwnerId (provider.deref examples.contested p)
                ∈ ({[ "" ]} : gset string).
Proof.
  destruct (GetEntriesByOwner_spec examples.quiet examples.contested {[ "" ]}
              quiet_range_ok contested_wf) as [_ H].
  apply H. intros E. apply (f_equal size) in E. discriminate.
Defined.

Lemma TriggerEntriesByOwner_spec_witness :
  let st' := provider.TriggerEntriesByOwner examples.quiet {[ "" ]}
               examples.contested in
  exists evs,
    provider.events st' = [] ++ evs
    /\ NoDup evs
    /\ In (provider.EvEnqueueKey (provider.DNSEntryKind, "default/e3")) evs.
Proof.
  intros st'.
  destruct (TriggerEntriesByOwner_spec examples.quiet examples.contested {[ "" ]}
              quiet_range_ok contested_wf)
    as (evs & H1 & _ & _ & _ & _ & H2 & H3).
  exists evs. split; [exact H1|]. split; [exact H2|].
  apply H3. exists "default/e3", 3%positive.
  split; [reflexivity|]. split; [|reflexivity].
  apply elem_of_singleton. reflexivity.
Defined.

Lemma addBlockingEntries_spec_witness :
  let st' := provider.addBlockingEntries examples.quiet 5
               (provider.entries examples.contested) examples.contested in
  provider.blockingEntries st' !! "default/e2" = Some 5.
Proof.
  intros st'.
  destruct (addBlockingEntries_spec examples.quiet 5
              (provider.entries examples.contested) examples.contested
              quiet_range_ok) as (_ & _ & _ & _ & _ & H1 & H2).
  destruct (H1 "default/e2" 2%positive eq_refl) as [t Ht].
  fold st' in Ht, H2. change (provider.ObjectName_ _) with "default/e2" in Ht.
  destruct (H2 _ _ Ht) as [H|[-> _]]; [discriminate|exact Ht].
Defined.

(* ===================================================================== *)
(** * The deferred calls of the reconcile handler                          *)
(* ===================================================================== *)

Section handler_calls.
Import provider.
Context (w : World).

Lemma deferred_suffix (key : ClusterKey) (o : Outcome Status) :
  events (outcome_state (deferred key o))
  = events (outcome_state o) ++ [EvNotifyHolder key; EvTriggerStatistic].
Proof. destruct o; simpl; by rewrite <- app_assoc. Qed.

(** X22.  Whatever HandleUpdateEntry does, and also when the lock check
    panics, its last two calls are the deferred ones: the holders of
    references to the object are notified and the statistic is triggered.
    This holds for UpdateEntry and DeleteEntry alike. *)
Theorem handler_deferred_calls (reg reg' : Registry) (st : state) (op : string)
    (obj : Object) :
  exists pre,
    events (outcome_state (h_result (HandleUpdateEntry w reg reg' st op obj)))
    = pre ++ [EvNotifyHolder (oKind obj, oName obj); EvTriggerStatistic].
Proof.
  unfold HandleUpdateEntry. cbv zeta.
  destruct (EntryPremise_ reg obj) as [p err].
  destruct (Setup w _ _ _ _ _) as [v status_].
  match goal with
  | |- context [AddEntryVersion ?a ?b ?c ?d] =>
      destruct (AddEntryVersion a b c d) as [[new s] st']
  end.
  destruct new as [n|].
  - destruct (decide (Kind_ (deref st' n) = DNSLockKind)).
    + cbn [h_result]. rewrite deferred_suffix. by eexists.
    + destruct (negb (oDeleting obj)); cbn [h_result];
        rewrite deferred_suffix; by eexists.
  - destruct (negb (oDeleting obj)); cbn [h_result];
      rewrite deferred_suffix; by eexists.
Qed.

End handler_calls.

(* ===================================================================== *)
(** * The write of a lock record                                           *)
(* ===================================================================== *)

Section lock_write.
Import provider.
Context (w : World).

(** The end of [checkAndUpdateLock] when the record set is written. *)
Lemma write_lock_run (st : state) (entry : ptr) (premise : EntryPremise)
    (prov : DNSProvider) (zone : option Zone_) (newRS : direct.RecordSet) :
  let e := deref st entry in
  let r := write_lock w entry premise prov zone newRS true st in
  Kind_ e = DNSLockKind ->
  match CreateOrUpdateRecordSet_err w prov zone newRS with
  | Some err =>
      r = Ret (Delay (Some err)) (emit (EvCreateOrUpdateRecordSet zone newRS) st)
  | None =>
      exists st' s evs,
        r = Ret s st'
        /\ updateRequired (deref st' entry) = false
        /\ events st' = events st ++ EvCreateOrUpdateRecordSet zone newRS :: evs
        /\ (forall z x, ~ In (EvCreateOrUpdateRecordSet z x) evs)
        /\ (ModifyStatus_err w (ObjectName_ e) = None ->
            s = Succeeded
            /\ oFirstFailedDNSLookup (Object_ (deref st' entry)) = None
            /\ Zone (oStatus (Object_ (deref st' entry))) = Some (zoneid premise)
            /\ Provider_ (oStatus (Object_ (deref st' entry)))
               = Some (pObjectName prov)
            /\ ProviderType (oStatus (Object_ (deref st' entry)))
               = Some (ptype premise))
  end.
Proof.
  intros e r Hkind. subst r. unfold write_lock.
  destruct (CreateOrUpdateRecordSet_err w prov zone newRS) as [err|]; [done|].
  set (st1 := emit (EvCreateOrUpdateRecordSet zone newRS) st).
  set (st2 := store entry (set_updateRequired false (deref st1 entry)) st1).
  assert (H2 : deref st2 entry = set_updateRequired false e).
  { unfold deref, st2, store. simpl. by rewrite lookup_total_insert_eq. }
  rewrite H2.
  change (Kind_ (set_updateRequired false e)) with (Kind_ e).
  destruct (decide (Kind_ e = DNSLockKind)) as [_|]; [|done].
  unfold ModifyStatus. rewrite H2.
  change (Object_ (set_updateRequired false e)) with (Object_ e).
  destruct (clear_failed_lookup premise prov (Object_ e)) as [o' m] eqn:Ef.
  assert (Ho' : oFirstFailedDNSLookup o' = None
                /\ Zone (oStatus o') = Some (zoneid premise)
                /\ Provider_ (oStatus o') = Some (pObjectName prov)
                /\ ProviderType (oStatus o') = Some (ptype premise)).
  { unfold clear_failed_lookup in Ef. inversion Ef; subst o'. done. }
  destruct m.
  - destruct (ModifyStatus_err w (oName (Object_ e))) as [merr|] eqn:Em.
    + eexists _, _, [_]. split; [reflexivity|].
      split; [unfold deref; simpl; by rewrite lookup_total_insert_eq|].
      split; [simpl; by rewrite <- app_assoc|].
      split; [intros z x [H|[]]; discriminate|].
      intros Hm. unfold ObjectName_, vObjectName in Hm. unfold Object_ in Em.
      congruence.
    + eexists _, _, [_]. split; [reflexivity|].
      split; [unfold deref, store; simpl; by rewrite lookup_total_insert_eq|].
      split; [simpl; by rewrite <- app_assoc|].
      split; [intros z x [H|[]]; discriminate|].
      intros _. split; [done|].
      unfold deref, store; simpl. rewrite lookup_total_insert_eq. exact Ho'.
  - eexists _, _, []. split; [reflexivity|].
    split; [by rewrite H2|]. split; [done|]. split; [intros z x []|].
    intros _. split; [done|]. rewrite H2.
    change (Object_ (set_updateRequired false e)) with (Object_ e).
    unfold clear_failed_lookup in Ef. inversion Ef as [[Eo Em]].
    rewrite !orb_false_iff, !bool_decide_eq_false in Em.
    destruct Em as [[[M1 M2] M3] M4].
    apply dec_stable in M1, M2, M3, M4. done.
Qed.

(** X23.  A lock entry that requires an update writes its record set when
    the provider holds none for the name, or holds one that carries the
    lock's own id and a timestamp that is not newer than the lock's and
    differs from the desired one.  The record set written has one TXT
    record for every text of the lock, with the DNS name and the TTL of the
    entry.  When the write fails the result is a delay with that error and
    the entry still requires the update; otherwise the flag is cleared and,
    when the status can be written, the result is success and the status
    has no first failed lookup and names the zone, the provider and the
    provider type of the premise. *)
Theorem lock_record_written (st : state) (entry : ptr) (premise : EntryPremise)
    (prov : DNSProvider) (ors : option direct.RecordSet) :
  let e := deref st entry in
  let o := Object_ e in
  let zone := zones st !! ZoneId e in
  let newRS :=
    map (fun s => {| direct.DNSName := DNSName e; direct.Type_ := dns.RS_TXT;
                     direct.TTL := Go.int (intSize w) (TTL e);
                     direct.Value := NewText_value w s (TTL e) |})
        (oText o) in
  let r := checkAndUpdateLock w st entry premise in
  updateRequired e = true ->
  Kind_ e = DNSLockKind ->
  provider premise = Some prov ->
  GetRecordSet_res w prov zone (DNSName e) = inr ors ->
  (default [] ors = []
   \/ exists value i,
        direct.GetAttr (default [] ors) (ATTR_LOCKID w)
        = Some (StringValue (oLockId o))
        /\ direct.GetAttr (default [] ors) (ATTR_TIMESTAMP w) = Some value
        /\ Go.ParseInt value = (i, None)
        /\ Go.Before (oTimestamp o) (Go.Unix i) = false
        /\ lock_changed newRS (default [] ors) = true) ->
  match CreateOrUpdateRecordSet_err w prov zone newRS with
  | Some err =>
      r = Ret (Delay (Some err)) (emit (EvCreateOrUpdateRecordSet zone newRS) st)
      /\ updateRequired (deref (outcome_state r) entry) = true
  | None =>
      exists st' s evs,
        r = Ret s st'
        /\ updateRequired (deref st' entry) = false
        /\ events st' = events st ++ EvCreateOrUpdateRecordSet zone newRS :: evs
        /\ (forall z x, ~ In (EvCreateOrUpdateRecordSet z x) evs)
        /\ (ModifyStatus_err w (ObjectName_ e) = None ->
            s = Succeeded
            /\ oFirstFailedDNSLookup (Object_ (deref st' entry)) = None
            /\ Zone (oStatus (Object_ (deref st' entry))) = Some (zoneid premise)
            /\ Provider_ (oStatus (Object_ (deref st' entry)))
               = Some (pObjectName prov)
            /\ ProviderType (oStatus (Object_ (deref st' entry)))
               = Some (ptype premise))
  end.
Proof.
  intros e o zone newRS r Hupd Hkind Hprov Hget Hdue.
  assert (Hrun : r = write_lock w entry premise prov zone newRS true st).
  { subst r. unfold checkAndUpdateLock. fold e. rewrite Hupd, Hprov.
    cbn [negb]. fold zone. rewrite Hget. fold o.
    assert (Hrs : direct.FromPlainRecordSet (intSize w) (DNSName e)
                    (dns.NewRecordSet dns.RS_TXT (TTL e)
                       (fold_left
                          (fun records s =>
                             records ++ [ {| dns.Value := NewText_value w s (TTL e) |} ])
                          (oText o) [])) = newRS).
    { rewrite FromPlainRecordSet_map. simpl.
      rewrite (fold_snoc_map (fun s => {| dns.Value := NewText_value w s (TTL e) |})).
      simpl. by rewrite map_map. }
    rewrite Hrs.
    destruct Hdue as [Hnil|(value & i & Hl & Ht & Hp & Hb & Hc)].
    - rewrite Hnil. reflexivity.
    - destruct (default [] ors) as [|r0 rs]; [reflexivity|].
      cbn [length negb]. rewrite Hl.
      destruct (Z.of_nat (S (length rs)) =? 0) eqn:Hz;
        [apply Z.eqb_eq in Hz; lia|]. cbn [negb].
      destruct (decide (Kind_ e = DNSLockKind)) as [_|]; [|done].
      rewrite String.eqb_refl. cbn [negb]. rewrite Ht, Hp, Hb, Hc. reflexivity. }
  pose proof (write_lock_run st entry premise prov zone newRS Hkind) as Hw.
  cbv zeta in Hw. fold e in Hw. rewrite <- Hrun in Hw.
  destruct (CreateOrUpdateRecordSet_err w prov zone newRS) as [err|]; [|exact Hw].
  split; [exact Hw|]. rewrite Hw. exact Hupd.
Qed.

End lock_write.

Lemma lock_record_written_witness :
  let o := examples.lock_object "default/lock" "A" 100 provider.STATE_PENDING
             None false in
  let st := examples.lock_state o true 0 in
  let r := provider.checkAndUpdateLock examples.quiet st 1%positive
             examples.mock_premise in
  exists st' s evs,
    r = provider.Ret s st'
    /\ provider.updateRequired (provider.deref st' 1%positive) = false
    /\ provider.events st'
       = [] ++ provider.EvCreateOrUpdateRecordSet (Some examples.zone1)
                 [ {| direct.DNSName := "lock.example.com";
                      direct.Type_ := "TXT"; direct.TTL := 60;
                      direct.Value := examples.quoted "lockid=A" |} ] :: evs.
Proof.
  intros o st r.
  pose proof (lock_record_written examples.quiet st 1%positive
                examples.mock_premise examples.mock None
                eq_refl eq_refl eq_refl eq_refl (or_introl eq_refl)) as H.
  destruct H as (st' & s & evs & H1 & H2 & H3 & _).
  exists st', s, evs. split; [exact H1|]. split; [exact H2|exact H3].
Defined.

(* ===================================================================== *)
(** * The refresh of a lock whose lookup succeeds                          *)
(* ===================================================================== *)

Section refresh_success.
Import provider.
Context (w : World).

(** The place of a lock entry in the range over the lock entries. *)
Lemma refresh_focus (st : state) (n : ObjectName) (p : ptr) :
  range_ok w ->
  lock_entries w st !! n = Some p ->
  exists l1 l2,
    range_entries w (lock_entries w st) = l1 ++ (n, p) :: l2
    /\ ~ In p l1.*2 /\ ~ In p l2.*2
    /\ forall q, In q (l1.*2 ++ l2.*2) ->
         ObjectName_ (deref st q) <> ObjectName_ (deref st p).
Proof.
  intros Hrange Hp.
  set (m := lock_entries w st) in *.
  set (l := range_entries w m).
  assert (Hperm : l ≡ₚ map_to_list m) by apply Hrange.
  assert (Hin : (n, p) ∈ l) by (rewrite Hperm; by apply elem_of_map_to_list).
  assert (Hkeys : forall n' q, (n', q) ∈ l -> ObjectName_ (deref st q) = n').
  { intros n' q H. rewrite Hperm in H. apply elem_of_map_to_list in H.
    by apply lock_entries_spec in H as [? _]. }
  assert (Hnodup : NoDup l.*2).
  { apply NoDup_fmap_2_strong.
    - intros [n1 q1] [n2 q2] H1 H2 Heq. simpl in Heq. subst q2.
      by rewrite <- (Hkeys _ _ H1), <- (Hkeys _ _ H2).
    - rewrite Hperm. apply NoDup_map_to_list. }
  pose proof Hin as Hin'.
  apply list_elem_of_split in Hin' as (l1 & l2 & Hl).
  exists l1, l2. split; [exact Hl|].
  rewrite Hl, fmap_app, fmap_cons in Hnodup. simpl in Hnodup.
  apply NoDup_app in Hnodup as (_ & Hdisj & Hnd2).
  apply NoDup_cons in Hnd2 as [Hnot2 _].
  assert (Hnot1 : ~ In p l1.*2).
  { intros H. apply list_elem_of_In in H. apply (Hdisj p H). by left. }
  assert (Hnot2' : ~ In p l2.*2) by (by rewrite <- list_elem_of_In).
  split; [exact Hnot1|]. split; [exact Hnot2'|].
  intros q Hq Heq.
  assert (Hqp : q <> p).
  { intros ->. apply in_app_or in Hq as [?|?]; tauto. }
  assert (exists n', (n', q) ∈ l) as [n' Hn'].
  { rewrite Hl. apply in_app_or in Hq as [Hq|Hq];
      apply list_elem_of_In, list_elem_of_fmap in Hq as ([n' q'] & -> & Hq);
      exists n'; simpl.
    - apply elem_of_app. by left.
    - apply elem_of_app. right. by right. }
  pose proof (Hkeys _ _ Hn') as K1. pose proof (Hkeys _ _ Hin) as K2.
  rewrite Heq, K2 in K1. subst n'.
  rewrite Hperm in Hn', Hin. apply elem_of_map_to_list in Hn', Hin.
  congruence.
Qed.

(** One round on an entry whose lookup succeeds. *)
Lemma updateLockState_success (s : state) (p : ptr) (records : list string) :
  let f := observed_status (p_ts (parse_records w records)) Go.zeroTime
             (p_attrs (parse_records w records)) in
  LookupTXT_res w (DNSName (deref s p)) = inr records ->
  ModifyStatus_err w (ObjectName_ (deref s p)) = None ->
  Object_ (deref (updateLockState w s p) p) = (f (Object_ (deref s p))).1.
Proof.
  intros f Hl Hm. unfold updateLockState, lookup. rewrite Hl. cbn [fst snd].
  fold f. unfold ModifyStatus.
  pose proof (observed_status_exact (p_ts (parse_records w records)) Go.zeroTime
                (p_attrs (parse_records w records)) (Object_ (deref s p))) as Hex.
  fold f in Hex.
  destruct (f (Object_ (deref s p))) as [o' m].
  destruct m.
  - unfold ObjectName_, vObjectName in Hm. unfold Object_ at 1 2. rewrite Hm.
    cbn [snd fst]. unfold deref, store. simpl.
    by rewrite lookup_total_insert_eq.
  - cbn [snd fst] in *. symmetry. by apply Hex.
Qed.

(** X24.  When the TXT lookup of a lock entry succeeds, UpdateLockStates
    neither enqueues the object nor touches the entry's updateRequired
    flag; and when the status can be written, the object's status
    afterwards is ready with the message "DNS record is set.", has no first
    failed lookup, carries the timestamp read from the records (none when
    there was none) and the attributes parsed from them. *)
Theorem lock_lookup_success (st : state) (n : ObjectName) (p : ptr)
    (records : list string) :
  let e := deref st p in
  let parsed := parse_records w records in
  let st' := UpdateLockStates w st in
  range_ok w ->
  lock_entries w st !! n = Some p ->
  LookupTXT_res w (DNSName e) = inr records ->
  exists evs,
    events st' = events st ++ evs
    /\ ~ In (EvEnqueue (ObjectName_ e)) evs
    /\ updateRequired (deref st' p) = updateRequired e
    /\ (ModifyStatus_err w (ObjectName_ e) = None ->
        let o' := Object_ (deref st' p) in
        State (oStatus o') = STATE_READY
        /\ Message_ (oStatus o') = Some (MsgText "DNS record is set.")
        /\ oFirstFailedDNSLookup o' = None
        /\ oStatusTimestamp o'
           = (if Go.IsZero (p_ts parsed) then None else Some (p_ts parsed))
        /\ oAttributes o' = p_attrs parsed).
Proof.
  intros e parsed st' Hrange Hp Hl.
  destruct (refresh_focus st n p Hrange Hp) as (l1 & l2 & Hsplit & Hnot1 & Hnot2 & Hnames).
  subst st'. unfold UpdateLockStates. rewrite Hsplit.
  rewrite fold_left_app. simpl.
  set (st1 := fold_left (fun st np => updateLockState w st np.2) l1 st).
  destruct (rounds_frame w l1 st) as (S1 & N1 & O1 & evs1 & E1 & Q1).
  fold st1 in S1, N1, O1, E1.
  destruct (updateLockState_round w st1 p) as (Ro & Rn & Rs & evsp & Ep & Qp & Rflag).
  pose proof (updateLockState_success st1 p records) as Hobj.
  set (st2 := updateLockState w st1 p) in *.
  destruct (rounds_frame w l2 st2) as (S2 & N2 & O2 & evs2 & E2 & Q2).
  set (st3 := fold_left (fun st np => updateLockState w st np.2) l2 st2) in *.
  assert (He1 : deref st1 p = e) by (by apply O1).
  rewrite He1 in Rn, Rflag, Qp, Hobj.
  assert (Hlk : (lookup w st1 e).1.1 = false).
  { unfold lookup. fold e in Hl. by rewrite Hl. }
  rewrite Hlk in Rflag. destruct Rflag as [Hu Hq].
  assert (Hp3 : deref st3 p = deref st2 p) by (by apply O2).
  rewrite Hp3.
  assert (Hno1 : ~ In (EvEnqueue (ObjectName_ e)) evs1).
  { intros H. destruct (Q1 _ H) as (q & Hq' & Hn).
    apply (Hnames q); [apply in_or_app; by left|done]. }
  assert (Hno2 : ~ In (EvEnqueue (ObjectName_ e)) evs2).
  { intros H. destruct (Q2 _ H) as (q & Hq' & Hn).
    apply (Hnames q); [apply in_or_app; by right|].
    change (ObjectName_ (deref st q) = ObjectName_ e).
    rewrite Hn. destruct (decide (q = p)) as [->|Hqp]; [tauto|].
    rewrite (Ro q Hqp). by rewrite N1. }
  exists (evs1 ++ evsp ++ evs2).
  split; [by rewrite E2, Ep, E1, <- !app_assoc|].
  split.
  { intros H. apply in_app_or in H as [H|H]; [tauto|].
    apply in_app_or in H as [H|H]; [by apply (Hq _ H)|tauto]. }
  split; [exact Hu|].
  intros Hm. cbv zeta. fold e in Hl. rewrite (Hobj Hl Hm).
  fold parsed. unfold observed_status.
  pose proof (AssureTimestamp_target (oStatusTimestamp (Object_ e)) (p_ts parsed))
    as A1.
  destruct (AssureTimestamp (oStatusTimestamp (Object_ e)) (p_ts parsed))
    as [ts' m1].
  simpl in A1. subst ts'.
  assert (Hz : Go.IsZero Go.zeroTime = true) by reflexivity.
  unfold AssureTimestamp. rewrite Hz. done.
Qed.

End refresh_success.

Lemma lock_lookup_success_witness :
  let w := examples.world (inr [ "lockid=A"; "ts=100" ]) (inr None) None 0 in
  let o := examples.lock_object "default/lock" "A" 100 provider.STATE_STALE
             (Some 5) false in
  let st := examples.lock_state o true 0 in
  let st' := provider.UpdateLockStates w st in
  exists evs,
    provider.events st' = [] ++ evs
    /\ ~ In (provider.EvEnqueue "default/lock") evs
    /\ provider.updateRequired (provider.deref st' 1%positive) = true.
Proof.
  intros w o st st'.
  assert (Hr : provider.range_ok w) by (intros m; reflexivity).
  destruct (lock_lookup_success w st "default/lock" 1%positive
              [ "lockid=A"; "ts=100" ] Hr eq_refl eq_refl)
    as (evs & H1 & H2 & H3 & _).
  exists evs. split; [exact H1|]. split; [exact H2|exact H3].
Defined.

(* ===================================================================== *)
(** * The creation of an object by I_modify                                *)
(* ===================================================================== *)

Section modify_create.
Import resources.
Context {D S : Type} (resource : @Internal D S).

Lemma allowed_no_create (status_only : bool) (new : list (@Call D)) :
  forallb (allowed_call status_only false) new = true ->
  List.filter is_create new = [] /\ forall d, ~ In (CallCreate d) new.
Proof.
  intros H. rewrite forallb_forall in H. split.
  - induction new as [|c new IH]; [done|]. simpl.
    assert (Hc : allowed_call status_only false c = true) by (apply H; by left).
    destruct c; try discriminate; simpl; apply IH; intros x Hx; apply H; by right.
  - intros d Hin. apply H in Hin. discriminate.
Qed.

(** X25.  I_modify creates the object at most once, and only when [create]
    is set, the first read reported that the object was not found and the
    modifier, applied to the data read, reported no error; the object
    created is the data the modifier left, whether or not the modifier
    reported a modification. *)
Theorem I_modify_create_once (status_only create : bool) (modifier : Modifier)
    (r : Run) :
  exists new,
    calls (I_modify resource status_only create modifier r).2 = calls r ++ new
    /\ (length (List.filter is_create new) <= 1)%nat
    /\ forall d, In (CallCreate d) new ->
         create = true
         /\ exists e data s m,
              I_get resource (ObjectData r) (cluster r) = (Some e, data, s)
              /\ IsNotFound e = true
              /\ modifier data = (m, None, d).
Proof.
  unfold I_modify. destruct create.
  2:{ destruct (modify_loop_calls resource 10 status_only modifier (ObjectData r)
                  None r) as (new & Hn & Ha & _).
      destruct (allowed_no_create _ _ Ha) as [Hf Hno].
      exists new. split; [exact Hn|]. rewrite Hf. split; [simpl; lia|].
      intros d Hin. by apply Hno in Hin. }
  destruct (I_get resource (ObjectData r) (cluster r)) as [[err data] s] eqn:Hget.
  destruct err as [e|].
  2:{ match goal with
      | |- context [modify_loop _ ?c ?so ?m ?d ?le ?r0] =>
          destruct (modify_loop_calls resource c so m d le r0) as (new & Hn & Ha & _)
      end.
      destruct (allowed_no_create _ _ Ha) as [Hf Hno].
      exists (CallGet :: new). rewrite Hn. simpl. rewrite <- app_assoc, Hf.
      split; [done|]. split; [simpl; lia|].
      intros d [Hin|Hin]; [discriminate|by apply Hno in Hin]. }
  destruct (IsNotFound e) eqn:Hnf; cbn [negb].
  2:{ exists [CallGet]. split; [done|]. split; [simpl; lia|].
      intros d [Hin|[]]. discriminate. }
  destruct (modifier data) as [[m merr] data'] eqn:Hmod.
  destruct merr as [me|].
  { exists [CallGet]. split; [done|]. split; [simpl; lia|].
    intros d [Hin|[]]. discriminate. }
  assert (Hthis : forall d, CallCreate data' = CallCreate d ->
            true = true
            /\ exists e0 data0 s0 m0,
                 (Some e, data, s) = (Some e0, data0, s0)
                 /\ IsNotFound e0 = true
                 /\ modifier data0 = (m0, None, d)).
  { intros d Hd. inversion Hd; subst d. split; [done|].
    exists e, data, s, m. done. }
  destruct (I_create resource data' _) as [[created cerr] s'].
  destruct cerr as [ce|].
  2:{ exists [CallGet; CallCreate data']. simpl. rewrite <- app_assoc.
      split; [done|]. split; [lia|].
      intros d [Hin|[Hin|[]]]; [discriminate|by apply Hthis]. }
  destruct (IsAlreadyExists ce); cbn [negb].
  2:{ exists [CallGet; CallCreate data']. simpl. rewrite <- app_assoc.
      split; [done|]. split; [lia|].
      intros d [Hin|[Hin|[]]]; [discriminate|by apply Hthis]. }
  destruct (I_get resource data' _) as [[gerr data''] s''].
  destruct gerr as [ge|].
  { exists [CallGet; CallCreate data'; CallGet]. simpl. rewrite <- !app_assoc.
    split; [done|]. split; [lia|].
    intros d [Hin|[Hin|[Hin|[]]]]; [discriminate|by apply Hthis|discriminate]. }
  match goal with
  | |- context [modify_loop _ ?c ?so ?m ?d ?le ?r0] =>
      destruct (modify_loop_calls resource c so m d le r0) as (new & Hn & Ha & _)
  end.
  destruct (allowed_no_create _ _ Ha) as [Hf Hno].
  exists (CallGet :: CallCreate data' :: CallGet :: new). rewrite Hn. simpl.
  rewrite <- !app_assoc, Hf. split; [done|]. split; [simpl; lia|].
  intros d [Hin|[Hin|[Hin|Hin]]];
    [discriminate|by apply Hthis|discriminate|by apply Hno in Hin].
Qed.

End modify_create.

(* ===================================================================== *)
(** * AddEntryVersion on a version under deletion                          *)
(* ===================================================================== *)

Section deleting_versions.
Import provider.
Context (w : World).

(** X26.  When the object of an indexed entry comes under deletion and
    neither the entry nor the incoming version is a lock, AddEntryVersion
    takes its claims away in a state with well-formed indexes: afterwards the
    old entry holds no DNS name, no entry has gained one, the other
    holders keep theirs, and the object name is no longer bound unless
    removing the finalizer failed. *)
Theorem deleting_entry_releases_name (st : state) (v : EntryVersion)
    (status_ : Status) (o : ptr) :
  state_wf st ->
  vIsDeleting v = true ->
  entries st !! vObjectName v = Some o ->
  oKind (object v) <> DNSLockKind ->
  Kind_ (deref st o) <> DNSLockKind ->
  let st' := (AddEntryVersion w st v status_).2 in
  (forall d, dnsnames st' !! d <> Some o)
  /\ (forall d c, dnsnames st' !! d = Some c -> dnsnames st !! d = Some c)
  /\ (forall d c, dnsnames st !! d = Some c -> c <> o ->
                  dnsnames st' !! d = Some c)
  /\ (RemoveFinalizer_err w (object v) = None ->
      entries st' !! vObjectName v = None).
Proof.
  intros Hwf Hdel Ho Hkv Hko st'. subst st'.
  rewrite (deleting_run w st v status_ Hdel).
  set (st0 := with_blockingEntries (delete (vObjectName v) (blockingEntries st)) st).
  assert (Hwf0 : state_wf st0) by exact Hwf.
  destruct (install_wf w st0 v Hwf0) as (_ & Hkept & _).
  destruct (install_spec w st0 v)
    as (Hver & Hother & _ & He1 & Hd1 & _).
  change (entries st0) with (entries st) in *.
  change (dnsnames st0) with (dnsnames st) in *.
  set (new := (install w st0 v).1) in *. set (st1 := (install w st0 v).2) in *.
  clearbody new st1. rewrite Ho.
  destruct Hwf as [Hi Hc]. destruct (Hi _ _ Ho) as [Ha Hn].
  destruct (Hkept o Ha) as (_ & Hn1 & Hdn1).
  change (deref st0 o) with (deref st o) in *.
  assert (Hk1 : Kind_ (deref st1 o) <> DNSLockKind).
  { destruct (decide (o = new)) as [->|Hne].
    - unfold Kind_. by rewrite Hver.
    - by rewrite (Hother o Hne). }
  destruct (decide (Kind_ (deref st1 o) <> DNSLockKind)) as [_|]; [|done].
  destruct (cleanupEntry_effect w st1 o) as (Ee & Ed & _).
  destruct (cleanupEntry_shrink w st1 o) as (Mc & _).
  rewrite Hn1, Hn, Hdn1, He1, Hd1 in *.
  set (st2 := cleanupEntry w st1 o) in *. clearbody st2.
  assert (Hent2 : entries st2 !! vObjectName v = None).
  { rewrite Ee. unfold Entries_Delete. rewrite decide_True by done.
    apply lookup_delete_eq. }
  assert (Hd2 : (forall d, dnsnames st2 !! d <> Some o)
                /\ (forall d c, dnsnames st2 !! d = Some c -> dnsnames st !! d = Some c)
                /\ (forall d c, dnsnames st !! d = Some c -> c <> o ->
                                dnsnames st2 !! d = Some c)).
  { rewrite Ed.
    destruct (decide (dnsnames st !! DNSName (deref st o) = Some o)) as [Hh|Hh].
    - split.
      + intros d H. apply lookup_delete_Some in H as [Hne H].
        destruct (Hc _ _ H) as [_ Hname]. congruence.
      + split.
        * intros d c H. apply lookup_delete_Some in H. tauto.
        * intros d c H Hne. rewrite lookup_delete_ne; [done|]. intros <-. congruence.
    - split; [|done].
      intros d H. destruct (Hc _ _ H) as [_ Hname]. congruence. }
  assert (Hret : forall err s,
            dnsnames s = dnsnames st2 -> entries s = entries st2 ->
            dnsnames (deleting_return v new err s).2 = dnsnames st2
            /\ (err = None ->
                entries (deleting_return v new err s).2 !! vObjectName v = None)).
  { intros err s Hs1 Hs2. unfold deleting_return. destruct err; cbn [snd].
    - split; [done|discriminate].
    - split; [done|]. intros _. by rewrite Hs2. }
  assert (Hfin : forall res : option ptr * Status * state,
            dnsnames res.2 = dnsnames st2 ->
            (RemoveFinalizer_err w (object v) = None ->
             entries res.2 !! vObjectName v = None) ->
            (forall d, dnsnames res.2 !! d <> Some o)
            /\ (forall d c, dnsnames res.2 !! d = Some c -> dnsnames st !! d = Some c)
            /\ (forall d c, dnsnames st !! d = Some c -> c <> o ->
                            dnsnames res.2 !! d = Some c)
            /\ (RemoveFinalizer_err w (object v) = None ->
                entries res.2 !! vObjectName v = None)).
  { intros res Hr1 Hr2. rewrite Hr1. destruct Hd2 as (D1 & D2 & D3).
    split; [exact D1|]. split; [exact D2|]. split; [exact D3|exact Hr2]. }
  destruct (valid (version (deref st2 new))).
  - destruct (decide (is_Some (zones st2 !! activezone (deref st2 new)))).
    + destruct (HasFinalizer _).
      * apply Hfin; [done|]. intros _. exact Hent2.
      * destruct (Hret None st2 eq_refl eq_refl) as [R1 R2].
        apply Hfin; [exact R1|]. intros _. by apply R2.
    + destruct (_ || _).
      * destruct (Hret (RemoveFinalizer_err w (object v))
                    (emit (EvRemoveFinalizer (oName (object v))) st2)
                    eq_refl eq_refl) as [R1 R2].
        apply Hfin; [exact R1|exact R2].
      * destruct (Hret None st2 eq_refl eq_refl) as [R1 R2].
        apply Hfin; [exact R1|]. intros _. by apply R2.
  - destruct (_ || _).
    + destruct (Hret (RemoveFinalizer_err w (object v))
                  (emit (EvRemoveFinalizer (oName (object v))) st2)
                  eq_refl eq_refl) as [R1 R2].
      apply Hfin; [exact R1|exact R2].
    + destruct (Hret None st2 eq_refl eq_refl) as [R1 R2].
      apply Hfin; [exact R1|]. intros _. by apply R2.
Qed.

End deleting_versions.

Lemma deleting_entry_releases_name_witness :
  let st' := (provider.AddEntryVersion examples.quiet (examples.e1_holds false)
                examples.e1_deleting provider.Succeeded).2 in
  provider.dnsnames st' !! "www.example.com" <> Some 1%positive
  /\ provider.entries st' !! "default/e1" = None.
Proof.
  intros st'.
  destruct (deleting_entry_releases_name examples.quiet (examples.e1_holds false)
              examples.e1_deleting provider.Succeeded 1%positive
              (e1_holds_state_wf false) eq_refl eq_refl)
    as (H1 & _ & _ & H4).
  - discriminate.
  - discriminate.
  - split; [apply H1|by apply H4].
Defined.
